(** * rhasspy-wake-snowboy-hermes: the audio dispatch pipeline of [WakeHermesMqtt]

    A shallow embedding of [rhasspywake_snowboy_hermes/__init__.py]: the
    persistent audio buffer and its chunking loop, the detector loop with its
    [break], [handle_detection], the enable/disable gate of [on_message] and
    [maybe_convert_wav].

    The libraries the class talks to (snowboy, [wave], [sox], [json], the file
    system) are an interface, [Collaborators]; every definition and theorem is
    stated for an arbitrary implementation of it.  The object [self] is a
    record threaded through the methods; a Python exception is a value of
    [exn]; what a method does to the outside world (a detector call, a [sox]
    run, a yielded result, a published message) is recorded in a trace of
    [event]s. *)

From Stdlib Require Import List ZArith Lia Bool String Ascii Arith DecimalString.
From Stdlib.Strings Require Import Byte.
Import ListNotations.

Set Implicit Arguments.

(** ** Python values *)

Definition bytes := list byte.

(** [len(x)] as a Python integer. *)
Definition py_len {A : Type} (l : list A) : Z := Z.of_nat (List.length l).

(** [b[:k]] for a possibly negative [k]. *)
Definition slice_until (b : bytes) (k : Z) : bytes :=
  if (0 <=? k)%Z then firstn (Z.to_nat k) b
  else firstn (Z.to_nat (py_len b + k)) b.

(** [b[k:]] for a possibly negative [k]. *)
Definition slice_from (b : bytes) (k : Z) : bytes :=
  if (0 <=? k)%Z then skipn (Z.to_nat k) b
  else skipn (Z.to_nat (py_len b + k)) b.

(** [str(n)] for a non-negative integer. *)
Definition str_of_nat (n : nat) : string :=
  NilEmpty.string_of_uint (Nat.to_uint n).

Inductive exn : Type :=
| AssertionError (msg : string)
| IndexError (msg : string)
| AttributeError (msg : string)
| JSONDecodeError
| WaveError
| CalledProcessError.

(** [str(e)] *)
Definition str_of_exn (e : exn) : string :=
  match e with
  | AssertionError m | IndexError m | AttributeError m => m
  | JSONDecodeError => "Expecting value"
  | WaveError => "file does not start with RIFF id"
  | CalledProcessError => "Command sox returned non-zero exit status"
  end.

(** The values [json.loads] can return. *)
#[warnings="-register-all"]
Inductive json : Type :=
| JNull
| JBool (b : bool)
| JNum (z : Z)
| JStr (s : string)
| JList (l : list json)
| JDict (d : list (string * json)).

(** [d.get(key, default)] *)
Fixpoint dict_get (d : list (string * json)) (key : string) (default : json) : json :=
  match d with
  | [] => default
  | (k, v) :: d' => if String.eqb k key then v else dict_get d' key default
  end.

(** [v in l] for a list [l] of strings. *)
Definition json_in (v : json) (l : list string) : bool :=
  match v with
  | JStr s => existsb (String.eqb s) l
  | _ => false
  end.

(** ** pathlib *)

Definition Path := string.

(** Position of the last occurrence of [c] ([str.rfind], [None] for -1). *)
Fixpoint rindex (c : ascii) (s : string) : option nat :=
  match s with
  | EmptyString => None
  | String a s' =>
      match rindex c s' with
      | Some i => Some (S i)
      | None => if Ascii.eqb a c then Some 0 else None
      end
  end.

(** [PurePath.name]: the final component of a normalised path. *)
Definition path_name (p : Path) : string :=
  match rindex "/" p with
  | Some i => substring (S i) (String.length p - S i) p
  | None => p
  end.

(** [PurePath.stem]: the final component without its last suffix. *)
Definition stem (p : Path) : string :=
  let name := path_name p in
  match rindex "." name with
  | Some i =>
      if (0 <? i) && (i <? String.length name - 1) then substring 0 i name
      else name
  | None => name
  end.

(** ** Hermes messages *)

Inductive topic : Type :=
| HotwordToggleOn_topic
| HotwordToggleOff_topic
| AudioFrame_topic (siteId : string)
| other_topic (name : string).

Definition topic_eqb (a b : topic) : bool :=
  match a, b with
  | HotwordToggleOn_topic, HotwordToggleOn_topic => true
  | HotwordToggleOff_topic, HotwordToggleOff_topic => true
  | AudioFrame_topic s, AudioFrame_topic t => String.eqb s t
  | other_topic s, other_topic t => String.eqb s t
  | _, _ => false
  end.

(** A slash in a site id. *)
Fixpoint has_slash (s : string) : bool :=
  match s with
  | EmptyString => false
  | String c s' => Ascii.eqb c "/" || has_slash s'
  end.

(** [AudioFrame.is_topic]: the library matches the topic against the pattern
    [^hermes/audioServer/([^/]+)/audioFrame$], so the site id has to be one
    topic level, not empty and without a slash.  [AudioFrame_topic s] is
    the string [AudioFrame.topic(siteId=s)], whatever [s] is. *)
Definition AudioFrame_is_topic (t : topic) : bool :=
  match t with
  | AudioFrame_topic s => negb (String.eqb s "") && negb (has_slash s)
  | _ => false
  end.

(** [AudioFrame.get_siteId]: the group of the same pattern; it is called on
    topics that [AudioFrame.is_topic] accepts only. *)
Definition AudioFrame_get_siteId (t : topic) : string :=
  match t with AudioFrame_topic s => s | _ => "" end.

Record mqtt_message : Type := MqttMessage {
  msg_topic : topic;
  msg_payload : bytes
}.

Record HotwordDetected : Type := mkHotwordDetected {
  hd_siteId : string;
  modelId : string;
  currentSensitivity : string;
  modelVersion : string;
  modelType : string
}.

Record HotwordError : Type := mkHotwordError {
  error : string;
  context : string;
  he_siteId : string
}.

(** [typing.Union[HotwordDetected, HotwordError]] *)
Inductive hotword_message : Type :=
| Detected (d : HotwordDetected)
| Error (e : HotwordError).

(** Topics of published messages: [HotwordDetected.topic(wakewordId=...)] and
    [HotwordError.topic()]. *)
Inductive out_topic : Type :=
| detected_topic (wakewordId : string)
| error_topic.

Inductive event : Type :=
| EvSox (wav_data : bytes)
| EvRunDetection (detector_index : nat) (chunk : bytes) (result_index : Z)
| EvYield (wakewordId : string) (result : hotword_message)
| EvPublish (t : out_topic) (message : hotword_message).

(** ** The [wave] reader *)

Record Wave_read : Type := mkWave_read {
  getframerate : Z;
  getsampwidth : Z;
  getnchannels : Z;
  getnframes : nat;
  readframes : nat -> bytes
}.

(** ** External collaborators *)

Class Collaborators : Type := {
  float : Type;
  (** a [snowboydetect.SnowboyDetect] object *)
  Detector : Type;
  SnowboyDetect : Path -> Detector;
  SetSensitivity : string -> Detector -> Detector;
  SetAudioGain : float -> Detector -> Detector;
  ApplyFrontend : bool -> Detector -> Detector;
  RunDetection : Detector -> bytes -> Z * Detector;
  (** [Path.is_file] *)
  is_file : Path -> bool;
  (** [wave.open(io.BytesIO(b), "rb")], [None] when it raises *)
  wave_open : bytes -> option Wave_read;
  (** [sox -t wav - -r rate -e signed-integer -b bits -c channels -t raw -],
      [None] on a non-zero exit status *)
  sox : Z -> Z -> Z -> bytes -> option bytes;
  (** [json.loads], [None] when it raises *)
  json_loads : bytes -> option json
}.

Section WakeHermesMqtt.

Context {C : Collaborators}.

Record SnowboyModel : Type := mkSnowboyModel {
  model_path : Path;
  sensitivity : string;
  audio_gain : float;
  apply_frontend : bool
}.

(** [self.model_ids] starts as the empty list and is assigned a string by
    [load_detectors]. *)
Inductive model_ids_value : Type :=
| ids_list (l : list string)
| ids_str (s : string).

Record WakeHermesMqtt : Type := mkWakeHermesMqtt {
  models : list SnowboyModel;
  wakeword_ids : list string;
  siteIds : list string;
  enabled : bool;
  sample_rate : Z;
  sample_width : Z;
  channels : Z;
  chunk_size : Z;
  audioframe_topics : list topic;
  first_audio : bool;
  audio_buffer : bytes;
  detectors : list Detector;
  model_ids : model_ids_value
}.

(** [WakeHermesMqtt.__init__] *)
Definition init (models : list SnowboyModel) (wakeword_ids : list string)
    (siteIds : option (list string)) (enabled : bool)
    (sample_rate sample_width channels chunk_size : Z) : WakeHermesMqtt :=
  let siteIds := match siteIds with Some l => l | None => [] end in
  {| models := models;
     wakeword_ids := wakeword_ids;
     siteIds := siteIds;
     enabled := enabled;
     sample_rate := sample_rate;
     sample_width := sample_width;
     channels := channels;
     chunk_size := chunk_size;
     audioframe_topics := map AudioFrame_topic siteIds;
     first_audio := true;
     audio_buffer := [];
     detectors := [];
     model_ids := ids_list [] |}.

Definition set_enabled (b : bool) (self : WakeHermesMqtt) : WakeHermesMqtt :=
  {| models := models self; wakeword_ids := wakeword_ids self;
     siteIds := siteIds self; enabled := b;
     sample_rate := sample_rate self; sample_width := sample_width self;
     channels := channels self; chunk_size := chunk_size self;
     audioframe_topics := audioframe_topics self;
     first_audio := first_audio self; audio_buffer := audio_buffer self;
     detectors := detectors self; model_ids := model_ids self |}.

Definition set_first_audio (b : bool) (self : WakeHermesMqtt) : WakeHermesMqtt :=
  {| models := models self; wakeword_ids := wakeword_ids self;
     siteIds := siteIds self; enabled := enabled self;
     sample_rate := sample_rate self; sample_width := sample_width self;
     channels := channels self; chunk_size := chunk_size self;
     audioframe_topics := audioframe_topics self;
     first_audio := b; audio_buffer := audio_buffer self;
     detectors := detectors self; model_ids := model_ids self |}.

Definition set_audio_buffer (b : bytes) (self : WakeHermesMqtt) : WakeHermesMqtt :=
  {| models := models self; wakeword_ids := wakeword_ids self;
     siteIds := siteIds self; enabled := enabled self;
     sample_rate := sample_rate self; sample_width := sample_width self;
     channels := channels self; chunk_size := chunk_size self;
     audioframe_topics := audioframe_topics self;
     first_audio := first_audio self; audio_buffer := b;
     detectors := detectors self; model_ids := model_ids self |}.

Definition set_detectors (d : list Detector) (self : WakeHermesMqtt) : WakeHermesMqtt :=
  {| models := models self; wakeword_ids := wakeword_ids self;
     siteIds := siteIds self; enabled := enabled self;
     sample_rate := sample_rate self; sample_width := sample_width self;
     channels := channels self; chunk_size := chunk_size self;
     audioframe_topics := audioframe_topics self;
     first_audio := first_audio self; audio_buffer := audio_buffer self;
     detectors := d; model_ids := model_ids self |}.

Definition set_model_ids (m : model_ids_value) (self : WakeHermesMqtt) : WakeHermesMqtt :=
  {| models := models self; wakeword_ids := wakeword_ids self;
     siteIds := siteIds self; enabled := enabled self;
     sample_rate := sample_rate self; sample_width := sample_width self;
     channels := channels self; chunk_size := chunk_size self;
     audioframe_topics := audioframe_topics self;
     first_audio := first_audio self; audio_buffer := audio_buffer self;
     detectors := detectors self; model_ids := m |}.

(** *** [load_detectors] *)

(** The body of [for model in self.models]; an assertion that fails leaves
    the object as the earlier iterations made it. *)
Fixpoint load_detectors_loop (ms : list SnowboyModel) (self : WakeHermesMqtt)
    : option exn * WakeHermesMqtt :=
  match ms with
  | [] => (None, self)
  | model :: ms' =>
      if is_file (model_path model) then
        let detector := SnowboyDetect (model_path model) in
        let detector := SetSensitivity (sensitivity model) detector in
        let detector := SetAudioGain (audio_gain model) detector in
        let detector := ApplyFrontend (apply_frontend model) detector in
        let self := set_detectors (detectors self ++ [detector]) self in
        let self := set_model_ids (ids_str (stem (model_path model))) self in
        load_detectors_loop ms' self
      else (Some (AssertionError ("Missing " ++ model_path model)), self)
  end.

Definition load_detectors (self : WakeHermesMqtt) : option exn * WakeHermesMqtt :=
  let self := set_model_ids (ids_list []) self in
  let self := set_detectors [] self in
  load_detectors_loop (models self) self.

(** *** [maybe_convert_wav] and [_convert_wav] *)

Definition _convert_wav (self : WakeHermesMqtt) (wav_data : bytes)
    : (exn + bytes) * list event :=
  match sox (sample_rate self) (sample_width self * 8) (channels self) wav_data with
  | Some stdout => (inr stdout, [EvSox wav_data])
  | None => (inl CalledProcessError, [EvSox wav_data])
  end.

Definition maybe_convert_wav (self : WakeHermesMqtt) (wav_bytes : bytes)
    : (exn + bytes) * list event :=
  match wave_open wav_bytes with
  | None => (inl WaveError, [])
  | Some wav_file =>
      if negb (getframerate wav_file =? sample_rate self)%Z
         || negb (getsampwidth wav_file =? sample_width self)%Z
         || negb (getnchannels wav_file =? channels self)%Z
      then _convert_wav self wav_bytes
      else (inr (readframes wav_file (getnframes wav_file)), [])
  end.

(** *** [handle_detection] *)

Definition model_ids_len (m : model_ids_value) : nat :=
  match m with
  | ids_list l => List.length l
  | ids_str s => String.length s
  end.

(** [self.model_ids[i]]: an element of a list, a one-character string of a
    string. *)
Definition model_ids_get (m : model_ids_value) (i : nat) : option string :=
  match m with
  | ids_list l => nth_error l i
  | ids_str s =>
      match String.get i s with
      | Some c => Some (String c EmptyString)
      | None => None
      end
  end.

(** The [try] block. *)
Definition handle_detection_try (self : WakeHermesMqtt) (model_index : nat)
    (siteId : string) : exn + HotwordDetected :=
  if model_index <? model_ids_len (model_ids self) then
    match model_ids_get (model_ids self) model_index with
    | None => inl (IndexError "string index out of range")
    | Some mid =>
        match nth_error (models self) model_index with
        | None => inl (IndexError "list index out of range")
        | Some model =>
            inr {| hd_siteId := siteId;
                   modelId := mid;
                   currentSensitivity := sensitivity model;
                   modelVersion := "";
                   modelType := "personal" |}
        end
    end
  else inl (AssertionError ("Missing " ++ str_of_nat model_index ++ " in models")).

Definition handle_detection (self : WakeHermesMqtt) (model_index : nat)
    (siteId : string) : hotword_message :=
  match handle_detection_try self model_index siteId with
  | inr d => Detected d
  | inl e =>
      Error {| error := str_of_exn e;
               context := str_of_nat model_index;
               he_siteId := siteId |}
  end.

(** *** [handle_audio_frame] *)

(** [for detector_index, detector in enumerate(self.detectors)], from
    [detector_index] on: the detectors with their new state, the calls made,
    and the index the loop broke at. *)
Fixpoint detector_loop (detector_index : nat) (ds : list Detector) (chunk : bytes)
    : list Detector * list event * option nat :=
  match ds with
  | [] => ([], [], None)
  | detector :: ds' =>
      let (result_index, detector') := RunDetection detector chunk in
      let call := EvRunDetection detector_index chunk result_index in
      if (0 <? result_index)%Z then
        (detector' :: ds', [call], Some detector_index)
      else
        let '(ds'', calls, hit) := detector_loop (S detector_index) ds' chunk in
        (detector' :: ds'', call :: calls, hit)
  end.

(** The wake word id of a detection. *)
Definition wakewordId_of (self : WakeHermesMqtt) (detector_index : nat) : string :=
  if detector_index <? List.length (wakeword_ids self) then
    nth detector_index (wakeword_ids self) "default"%string
  else "default"%string.

(** One iteration of the [while] body: [None] when the loop condition is
    false. *)
Definition drain_step (self : WakeHermesMqtt) (siteId : string)
    : option (WakeHermesMqtt * list event) :=
  if (chunk_size self <=? py_len (audio_buffer self))%Z then
    let chunk := slice_until (audio_buffer self) (chunk_size self) in
    let self := set_audio_buffer (slice_from (audio_buffer self) (chunk_size self)) self in
    let '(ds, calls, hit) := detector_loop 0 (detectors self) chunk in
    let self := set_detectors ds self in
    match hit with
    | Some detector_index =>
        Some (self, calls ++ [EvYield (wakewordId_of self detector_index)
                                      (handle_detection self detector_index siteId)])
    | None => Some (self, calls)
    end
  else None.

(** The [while] loop; [None] when [fuel] iterations were not enough. *)
Fixpoint drain (fuel : nat) (self : WakeHermesMqtt) (siteId : string)
    : option (WakeHermesMqtt * list event) :=
  match fuel with
  | O => None
  | S fuel' =>
      match drain_step self siteId with
      | None => Some (self, [])
      | Some (self', tr) =>
          match drain fuel' self' siteId with
          | None => None
          | Some (self'', tr') => Some (self'', tr ++ tr')
          end
      end
  end.

(** [if not self.detectors: self.load_detectors()] *)
Definition ensure_detectors (self : WakeHermesMqtt) : option exn * WakeHermesMqtt :=
  match detectors self with
  | [] => load_detectors self
  | _ :: _ => (None, self)
  end.

(** The generator run to its end, as the [for] loop of [on_message] does:
    the exception that ended it, if any, the object and the trace. *)
Definition handle_audio_frame (fuel : nat) (self : WakeHermesMqtt)
    (wav_bytes : bytes) (siteId : string)
    : option (option exn * WakeHermesMqtt * list event) :=
  match ensure_detectors self with
  | (Some e, self) => Some (Some e, self, [])
  | (None, self) =>
      match maybe_convert_wav self wav_bytes with
      | (inl e, tr) => Some (Some e, self, tr)
      | (inr audio_data, tr) =>
          let self := set_audio_buffer (audio_buffer self ++ audio_data) self in
          match drain fuel self siteId with
          | None => None
          | Some (self, tr') => Some (None, self, tr ++ tr')
          end
      end
  end.

(** *** [_check_siteId] *)

Definition _check_siteId (self : WakeHermesMqtt) (json_payload : json) : exn + bool :=
  match siteIds self with
  | [] => inr true
  | _ :: _ =>
      match json_payload with
      | JDict d => inr (json_in (dict_get d "siteId" (JStr "default")) (siteIds self))
      | _ => inl (AttributeError "object has no attribute 'get'")
      end
  end.

(** *** [on_message] *)

(** The bytes of ["{}"]. *)
Definition empty_object : bytes := [x7b; x7d].

(** [json.loads(msg.payload or "{}")] *)
Definition loads_payload (payload : bytes) : option json :=
  match payload with
  | [] => json_loads empty_object
  | _ :: _ => json_loads payload
  end.

(** The enable/disable branch. *)
Definition handle_toggle (self : WakeHermesMqtt) (msg : mqtt_message)
    : exn + WakeHermesMqtt :=
  match msg_topic msg with
  | HotwordToggleOn_topic =>
      match loads_payload (msg_payload msg) with
      | None => inl JSONDecodeError
      | Some json_payload =>
          match _check_siteId self json_payload with
          | inl e => inl e
          | inr true => inr (set_first_audio true (set_enabled true self))
          | inr false => inr self
          end
      end
  | HotwordToggleOff_topic =>
      match loads_payload (msg_payload msg) with
      | None => inl JSONDecodeError
      | Some json_payload =>
          match _check_siteId self json_payload with
          | inl e => inl e
          | inr true => inr (set_enabled false self)
          | inr false => inr self
          end
      end
  | _ => inr self
  end.

(** *** [publish] *)

(** The topic of a detection takes the wake word id from the keyword
    arguments, and the wildcard [+] when there is none, as the library's
    [HotwordDetected.topic] does; the topic of an error takes nothing. *)
Definition publish (message : hotword_message) (wakewordId : option string)
    : list event :=
  match message, wakewordId with
  | Detected _, Some w => [EvPublish (detected_topic w) message]
  | Detected _, None => [EvPublish (detected_topic "+") message]
  | Error _, _ => [EvPublish error_topic message]
  end.

(** The body of [for wakewordId, result in self.handle_audio_frame(...)], run
    where the generator yields. *)
Definition publish_result (ev : event) : list event :=
  match ev with
  | EvYield wakewordId result =>
      match result with
      | Detected _ => publish result (Some wakewordId)
      | Error _ => publish result None
      end
  | _ => [ev]
  end.

(** [(not self.audioframe_topics) or (msg.topic in self.audioframe_topics)] *)
Definition listens_to (self : WakeHermesMqtt) (t : topic) : bool :=
  match audioframe_topics self with [] => true | _ :: _ => false end
  || existsb (topic_eqb t) (audioframe_topics self).

Definition on_message (fuel : nat) (self : WakeHermesMqtt) (msg : mqtt_message)
    : option (WakeHermesMqtt * list event) :=
  match handle_toggle self msg with
  | inl _ => Some (self, [])
  | inr self =>
      if negb (enabled self) then Some (self, [])
      else if AudioFrame_is_topic (msg_topic msg) then
        if listens_to self (msg_topic msg)
        then
          let self := if first_audio self then set_first_audio false self else self in
          let siteId := AudioFrame_get_siteId (msg_topic msg) in
          match handle_audio_frame fuel self (msg_payload msg) siteId with
          | None => None
          | Some (_, self, tr) => Some (self, flat_map publish_result tr)
          end
        else Some (self, [])
      else Some (self, [])
  end.

(** The messages of a session, one after the other. *)
Fixpoint on_messages (fuel : nat) (self : WakeHermesMqtt) (msgs : list mqtt_message)
    : option (WakeHermesMqtt * list event) :=
  match msgs with
  | [] => Some (self, [])
  | msg :: msgs' =>
      match on_message fuel self msg with
      | None => None
      | Some (self', tr) =>
          match on_messages fuel self' msgs' with
          | None => None
          | Some (self'', tr') => Some (self'', tr ++ tr')
          end
      end
  end.

End WakeHermesMqtt.

(** ** Observations on a trace *)

(** The chunks handed to the first detector, in order: one per iteration of
    the [while] loop when there is a detector. *)
Definition chunks_fed (tr : list event) : list bytes :=
  flat_map (fun ev => match ev with
                      | EvRunDetection O chunk _ => [chunk]
                      | _ => []
                      end) tr.

(** The detector indexes of the [RunDetection] calls, in order. *)
Definition invoked (tr : list event) : list nat :=
  flat_map (fun ev => match ev with
                      | EvRunDetection i _ _ => [i]
                      | _ => []
                      end) tr.

(** The chunks of the [RunDetection] calls, in order. *)
Definition chunks_of_calls (tr : list event) : list bytes :=
  flat_map (fun ev => match ev with
                      | EvRunDetection _ chunk _ => [chunk]
                      | _ => []
                      end) tr.

(** The results of the [RunDetection] calls, in order. *)
Definition results_of (tr : list event) : list Z :=
  flat_map (fun ev => match ev with
                      | EvRunDetection _ _ r => [r]
                      | _ => []
                      end) tr.

(** The pairs the generator yielded, in order. *)
Definition yields (tr : list event) : list (string * hotword_message) :=
  flat_map (fun ev => match ev with
                      | EvYield w r => [(w, r)]
                      | _ => []
                      end) tr.

(** The [sox] runs. *)
Definition sox_runs (tr : list event) : list bytes :=
  flat_map (fun ev => match ev with
                      | EvSox wav => [wav]
                      | _ => []
                      end) tr.

(** The calls [RunDetection(chunk)] on the detectors [i], [i+1], ... with
    the results [rs]. *)
Fixpoint calls_of (i : nat) (chunk : bytes) (rs : list Z) : list event :=
  match rs with
  | [] => []
  | r :: rs' => EvRunDetection i chunk r :: calls_of (S i) chunk rs'
  end.

(** The position of the first detector of [ds] that reports a detection on
    [chunk]. *)
Fixpoint first_match `{C : Collaborators} (ds : list Detector) (chunk : bytes)
    : option nat :=
  match ds with
  | [] => None
  | d :: ds' =>
      if (0 <? fst (RunDetection d chunk))%Z then Some O
      else option_map S (first_match ds' chunk)
  end.

(** How many detectors see [chunk]: those up to the first match, or all. *)
Definition polled `{C : Collaborators} (ds : list Detector) (chunk : bytes) : nat :=
  match first_match ds chunk with
  | Some k => S k
  | None => List.length ds
  end.

(** Two states of the object that differ at most in the audio buffer and in
    the internal state of the detectors. *)
Definition same_settings `{C : Collaborators} (a b : WakeHermesMqtt) : Prop :=
  models a = models b /\
  wakeword_ids a = wakeword_ids b /\
  siteIds a = siteIds b /\
  enabled a = enabled b /\
  sample_rate a = sample_rate b /\
  sample_width a = sample_width b /\
  channels a = channels b /\
  chunk_size a = chunk_size b /\
  audioframe_topics a = audioframe_topics b /\
  first_audio a = first_audio b /\
  model_ids a = model_ids b /\
  List.length (detectors a) = List.length (detectors b).

(** What [load_detectors] does not touch. *)
Definition same_configuration `{C : Collaborators} (a b : WakeHermesMqtt) : Prop :=
  models a = models b /\
  wakeword_ids a = wakeword_ids b /\
  siteIds a = siteIds b /\
  enabled a = enabled b /\
  sample_rate a = sample_rate b /\
  sample_width a = sample_width b /\
  channels a = channels b /\
  chunk_size a = chunk_size b /\
  audioframe_topics a = audioframe_topics b /\
  first_audio a = first_audio b /\
  audio_buffer a = audio_buffer b.

(** [wav] is a WAV file in the format [self] requires whose frames are
    [pcm]. *)
Definition wraps `{C : Collaborators} (self : WakeHermesMqtt) (pcm wav : bytes) : Prop :=
  exists wav_file,
    wave_open wav = Some wav_file /\
    getframerate wav_file = sample_rate self /\
    getsampwidth wav_file = sample_width self /\
    getnchannels wav_file = channels self /\
    readframes wav_file (getnframes wav_file) = pcm.

(** A trace in which the calls that report a detection, and nothing else,
    are each directly followed by a yield: that of the pair [(w i, m i)] for
    the index [i] of the call.  Every index is below [n]. *)
Inductive resolved (n : nat) (w : nat -> string) (m : nat -> hotword_message)
    : list event -> Prop :=
| resolved_nil : resolved n w m []
| resolved_sox (wav : bytes) (tr : list event) :
    resolved n w m tr -> resolved n w m (EvSox wav :: tr)
| resolved_quiet (i : nat) (chunk : bytes) (r : Z) (tr : list event) :
    (i < n)%nat -> (r <= 0)%Z -> resolved n w m tr ->
    resolved n w m (EvRunDetection i chunk r :: tr)
| resolved_match (i : nat) (chunk : bytes) (r : Z) (tr : list event) :
    (i < n)%nat -> (0 < r)%Z -> resolved n w m tr ->
    resolved n w m (EvRunDetection i chunk r :: EvYield (w i) (m i) :: tr).

(** ** The rest of the service *)

(** The topics [on_connect] subscribes to, in order: the two toggle topics,
    then the audio frame topics of the configured sites, or the wildcard
    topic [AudioFrame.topic(siteId="+")] when there is none. *)
Definition on_connect `{C : Collaborators} (self : WakeHermesMqtt) : list topic :=
  [HotwordToggleOn_topic; HotwordToggleOff_topic]
    ++ match audioframe_topics self with
       | [] => [AudioFrame_topic "+"]
       | _ :: _ => audioframe_topics self
       end.

(** [itertools.zip_longest(a, b)] with a fill value for either side. *)
Fixpoint zip_longest {A B : Type} (a : list A) (b : list B) (fill_a : A) (fill_b : B)
    : list (A * B) :=
  match a with
  | [] => map (fun y => (fill_a, y)) b
  | x :: a' =>
      match b with
      | [] => (x, fill_b) :: zip_longest a' [] fill_a fill_b
      | y :: b' => (x, y) :: zip_longest a' b' fill_a fill_b
      end
  end.

(** The wake word ids [main] hands to the service:
    [[kn[1] for kn in zip_longest(args.model, args.wakewordId or [],
    fillvalue="default")]].  Of a pair only the second component is looked
    at, so what fills the model side does not matter. *)
Definition main_wakeword_ids (model : list (list string))
    (wakewordId : option (list string)) : list string :=
  map snd (zip_longest model
             (match wakewordId with Some l => l | None => [] end)
             [] "default"%string).

(** The detector [load_detectors] makes for a model. *)
Definition new_detector `{C : Collaborators} (model : SnowboyModel) : Detector :=
  ApplyFrontend (apply_frontend model)
    (SetAudioGain (audio_gain model)
       (SetSensitivity (sensitivity model)
          (SnowboyDetect (model_path model)))).

(** The [siteId] field of a message. *)
Definition message_siteId (m : hotword_message) : string :=
  match m with
  | Detected d => hd_siteId d
  | Error e => he_siteId e
  end.

(** The messages published, with their topics, in order. *)
Definition published (tr : list event) : list (out_topic * hotword_message) :=
  flat_map (fun ev => match ev with
                      | EvPublish t m => [(t, m)]
                      | _ => []
                      end) tr.

(** The topic a yielded result is published on. *)
Definition topic_of_result (wakewordId : string) (m : hotword_message) : out_topic :=
  match m with
  | Detected _ => detected_topic wakewordId
  | Error _ => error_topic
  end.

(** Two states of the object with the same options: everything that is set
    once in [__init__]. *)
Definition same_options `{C : Collaborators} (a b : WakeHermesMqtt) : Prop :=
  models a = models b /\
  wakeword_ids a = wakeword_ids b /\
  siteIds a = siteIds b /\
  sample_rate a = sample_rate b /\
  sample_width a = sample_width b /\
  channels a = channels b /\
  chunk_size a = chunk_size b /\
  audioframe_topics a = audioframe_topics b.

(** What [on_message] does with an audio frame it takes: [first_audio] is
    cleared, the frame goes to [handle_audio_frame] with the site id of its
    topic, and each result is published. *)
Definition take_audio_frame `{C : Collaborators} (fuel : nat) (self : WakeHermesMqtt)
    (msg : mqtt_message) : option (WakeHermesMqtt * list event) :=
  let self := if first_audio self then set_first_audio false self else self in
  let siteId := AudioFrame_get_siteId (msg_topic msg) in
  match handle_audio_frame fuel self (msg_payload msg) siteId with
  | None => None
  | Some (_, self, tr) => Some (self, flat_map publish_result tr)
  end.

(** The topic of a toggle message, and what an accepted one does to the
    object. *)
Definition toggle_topic (on : bool) : topic :=
  if on then HotwordToggleOn_topic else HotwordToggleOff_topic.

Definition toggled `{C : Collaborators} (on : bool) (self : WakeHermesMqtt)
    : WakeHermesMqtt :=
  if on then set_first_audio true (set_enabled true self)
  else set_enabled false self.

(** ** Test doubles

    Stand-ins for the collaborators, the way a unit test would mock them. *)

(** A detector that fires on a chunk starting with the first character of its
    model's stem, reports silence on an empty chunk, and remembers what it was
    fed. *)
Record FakeDetector : Type := mkFakeDetector {
  trigger : option byte;
  fed : list bytes
}.

Definition fake_SnowboyDetect (p : Path) : FakeDetector :=
  {| trigger := hd_error (list_byte_of_string (stem p)); fed := [] |}.

Definition fake_RunDetection (d : FakeDetector) (chunk : bytes) : Z * FakeDetector :=
  let result_index :=
    match trigger d, chunk with
    | Some t, b :: _ => if Byte.eqb t b then 1%Z else 0%Z
    | _, _ => (-2)%Z
    end in
  (result_index, {| trigger := trigger d; fed := fed d ++ [chunk] |}).

(** A one-byte header instead of RIFF: [x01] for 16 kHz, 16 bit, mono and
    [x02] for 8 kHz, 8 bit, mono; the frames follow. *)
Definition fake_wave_open (b : bytes) : option Wave_read :=
  match b with
  | x01 :: data =>
      Some {| getframerate := 16000; getsampwidth := 2; getnchannels := 1;
              getnframes := List.length data / 2;
              readframes := fun n => firstn (n * 2) data |}
  | x02 :: data =>
      Some {| getframerate := 8000; getsampwidth := 1; getnchannels := 1;
              getnframes := List.length data;
              readframes := fun n => firstn n data |}
  | _ => None
  end.

(** Every sample twice, low byte zero: 8 kHz, 8 bit to 16 kHz, 16 bit. *)
Definition fake_sox (rate bits chans : Z) (wav : bytes) : option bytes :=
  match wav with
  | x02 :: data => Some (flat_map (fun b => [x00; b; x00; b]) data)
  | _ => None
  end.

Fixpoint strip_prefix (p b : bytes) : option bytes :=
  match p, b with
  | [], _ => Some b
  | x :: p', y :: b' => if Byte.eqb x y then strip_prefix p' b' else None
  | _ :: _, [] => None
  end.

(** The bytes of [{"siteId": "] and of ["}]. *)
Definition siteId_open : bytes :=
  [x7b; x22; x73; x69; x74; x65; x49; x64; x22; x3a; x20; x22].
Definition siteId_close : bytes := [x22; x7d].

(** Reads [{}] and [{"siteId": "<name>"}] only. *)
Definition fake_json_loads (b : bytes) : option json :=
  match strip_prefix empty_object b with
  | Some [] => Some (JDict [])
  | _ =>
      match strip_prefix siteId_open b with
      | Some rest =>
          match strip_prefix (rev siteId_close) (rev rest) with
          | Some name => Some (JDict [("siteId"%string, JStr (string_of_list_byte (rev name)))])
          | None => None
          end
      | None => None
      end
  end.

Definition test_double : Collaborators :=
  {| float := Z;
     Detector := FakeDetector;
     SnowboyDetect := fake_SnowboyDetect;
     SetSensitivity := fun _ d => d;
     SetAudioGain := fun _ d => d;
     ApplyFrontend := fun _ d => d;
     RunDetection := fake_RunDetection;
     is_file := fun _ => true;
     wave_open := fake_wave_open;
     sox := fake_sox;
     json_loads := fake_json_loads |}.

(** [{"siteId": "<name>"}] *)
Definition siteId_payload (name : string) : bytes :=
  siteId_open ++ list_byte_of_string name ++ siteId_close.

(** A model with the default settings. *)
Definition fake_model (p : Path) : @SnowboyModel test_double :=
  @mkSnowboyModel test_double p "0.5" 1%Z false.

(** ** Example configurations *)

(** One model, the default chunk size of 960 bytes, every site. *)
Definition hey_960 : @WakeHermesMqtt test_double :=
  @init test_double [fake_model "hey.umdl"%string] ["hey"%string] None true 16000 2 1 960.

(** 500 bytes of audio, and a WAV file of them in the required format. *)
Definition pcm_500 : bytes := repeat x2a 500.
Definition wav_500 : bytes := x01 :: pcm_500.

(** [hey_960] with its detector loaded and 500 bytes buffered. *)
Definition hey_960_half : @WakeHermesMqtt test_double :=
  set_audio_buffer pcm_500 (snd (load_detectors hey_960)).

(** [hey_960] with a chunk size of zero. *)
Definition hey_zero : @WakeHermesMqtt test_double :=
  @init test_double [fake_model "hey.umdl"%string] ["hey"%string] None true 16000 2 1 0.

(** Two models, no wake word ids, chunks of four bytes. *)
Definition two_models : @WakeHermesMqtt test_double :=
  @init test_double [fake_model "a.umdl"%string; fake_model "b.umdl"%string] []
    None true 16000 2 1 4.

(** [two_models] with its detectors loaded. *)
Definition two_models_loaded : @WakeHermesMqtt test_double :=
  snd (load_detectors two_models).

(** One chunk that the detector of [a.umdl] fires on, one that the detector
    of [b.umdl] fires on, and WAV files of them. *)
Definition chunk_a : bytes := [x61; x00; x00; x00].
Definition chunk_b : bytes := [x62; x00; x00; x00].
Definition wav_a : bytes := x01 :: chunk_a.
Definition wav_b : bytes := x01 :: chunk_b.

(** The model list [--model m1 hey] with no [--wakewordId]: the second
    setting of a model is its sensitivity. *)
Definition m1_hey : @WakeHermesMqtt test_double :=
  @init test_double [@mkSnowboyModel test_double "m1"%string "hey"%string 1%Z false] []
    None true 16000 2 1 4.
Definition chunk_m : bytes := [x6d; x00; x00; x00].
Definition wav_m : bytes := x01 :: chunk_m.

(** A service that listens to the sites kitchen and office. *)
Definition kitchen_office : @WakeHermesMqtt test_double :=
  snd (load_detectors
         (@init test_double [fake_model "a.umdl"%string] ["a"%string]
            (Some ["kitchen"%string; "office"%string]) true 16000 2 1 4)).
Definition toggle_off_kitchen : mqtt_message :=
  MqttMessage HotwordToggleOff_topic (siteId_payload "kitchen").
Definition toggle_on_kitchen : mqtt_message :=
  MqttMessage HotwordToggleOn_topic (siteId_payload "kitchen").
Definition office_frame : mqtt_message :=
  MqttMessage (AudioFrame_topic "office") wav_a.
Definition kitchen_frame : mqtt_message :=
  MqttMessage (AudioFrame_topic "kitchen") wav_b.

(** The stand-ins on a disk where the file [gone.umdl] is missing. *)
Definition test_double_gone : Collaborators :=
  {| float := Z;
     Detector := FakeDetector;
     SnowboyDetect := fake_SnowboyDetect;
     SetSensitivity := fun _ d => d;
     SetAudioGain := fun _ d => d;
     ApplyFrontend := fun _ d => d;
     RunDetection := fake_RunDetection;
     is_file := fun p => negb (String.eqb p "gone.umdl");
     wave_open := fake_wave_open;
     sox := fake_sox;
     json_loads := fake_json_loads |}.

Definition gone_model (p : Path) : @SnowboyModel test_double_gone :=
  @mkSnowboyModel test_double_gone p "0.5" 1%Z false.

(** Three models, the second of which has no file. *)
Definition gone_second : @WakeHermesMqtt test_double_gone :=
  @init test_double_gone
    [gone_model "a.umdl"%string; gone_model "gone.umdl"%string;
     gone_model "b.umdl"%string] [] None true 16000 2 1 4.

(** [two_models_loaded] after a frame on which the first detector fired. *)
Definition two_models_fed : @WakeHermesMqtt test_double :=
  @set_detectors test_double
    [{| trigger := Some x61; fed := [chunk_a] |};
     {| trigger := Some x62; fed := [] |}] two_models_loaded.

(** No model at all, chunks of four bytes; six bytes of audio. *)
Definition no_models : @WakeHermesMqtt test_double :=
  @init test_double [] [] None true 16000 2 1 4.
Definition pcm_six : bytes := chunk_a ++ [x07; x08].
Definition wav_six : bytes := x01 :: pcm_six.

(** The audio [chunk_a ++ chunk_b] in one frame, and in two frames cut in
    the middle of the second chunk. *)
Definition pcm_first : bytes := chunk_a ++ [x62; x00].
Definition pcm_second : bytes := [x00; x00].
Definition wav_first : bytes := x01 :: pcm_first.
Definition wav_second : bytes := x01 :: pcm_second.
Definition wav_whole : bytes := x01 :: chunk_a ++ chunk_b.
Definition two_models_first : @WakeHermesMqtt test_double :=
  @set_detectors test_double
    [{| trigger := Some x61; fed := [chunk_a] |};
     {| trigger := Some x62; fed := [] |}]
    (set_audio_buffer [x62; x00] two_models_loaded).
Definition two_models_second : @WakeHermesMqtt test_double :=
  @set_detectors test_double
    [{| trigger := Some x61; fed := [chunk_a; chunk_b] |};
     {| trigger := Some x62; fed := [chunk_b] |}]
    (set_audio_buffer [] two_models_loaded).
Definition yield_first : event :=
  EvYield "default"
    (Detected {| hd_siteId := "default"; modelId := "b";
                 currentSensitivity := "0.5"; modelVersion := "";
                 modelType := "personal" |}).
Definition yield_second : event :=
  EvYield "default"
    (Error {| error := "Missing 1 in models"; context := "1";
              he_siteId := "default" |}).

(** Two loaded models and the one wake word id [alpha], before and after
    the frame [wav_whole]. *)
Definition two_models_alpha : @WakeHermesMqtt test_double :=
  snd (load_detectors
         (@init test_double [fake_model "a.umdl"%string; fake_model "b.umdl"%string]
            ["alpha"%string] None true 16000 2 1 4)).
Definition two_models_alpha_fed : @WakeHermesMqtt test_double :=
  @set_detectors test_double
    [{| trigger := Some x61; fed := [chunk_a; chunk_b] |};
     {| trigger := Some x62; fed := [chunk_b] |}]
    (set_audio_buffer [] two_models_alpha).

(** A service for two sites, one of which has a slash in its id. *)
Definition oven_office : @WakeHermesMqtt test_double :=
  snd (load_detectors
         (@init test_double [fake_model "a.umdl"%string] ["a"%string]
            (Some ["kitchen/oven"%string; "office"%string]) true 16000 2 1 4)).

(** One sample at 8 kHz and 8 bit, and what the reader makes of it. *)
Definition wav_8k : bytes := [x02; x61].
Definition wave_8k : Wave_read :=
  {| getframerate := 8000; getsampwidth := 1; getnchannels := 1;
     getnframes := 1;
     readframes := fun n => firstn n [x61] |}.

(** Messages for [kitchen_office]: a frame that is no WAV file, a toggle
    whose payload is not JSON, and the state and the detection after
    [office_frame]. *)
Definition unreadable_frame : mqtt_message :=
  MqttMessage (AudioFrame_topic "office") [x09; x09].
Definition not_json_toggle : mqtt_message :=
  MqttMessage HotwordToggleOff_topic [x09].
Definition kitchen_office_fed : @WakeHermesMqtt test_double :=
  set_first_audio false
    (@set_detectors test_double [{| trigger := Some x61; fed := [chunk_a] |}] kitchen_office).
Definition office_detection : hotword_message :=
  Detected {| hd_siteId := "office"; modelId := "a";
              currentSensitivity := "0.5"; modelVersion := "";
              modelType := "personal" |}.

(** Three [--model] arguments and one [--wakewordId]. *)
Definition three_models_alpha : @WakeHermesMqtt test_double :=
  @init test_double
    [fake_model "a.umdl"%string; fake_model "b.umdl"%string;
     fake_model "c.umdl"%string]
    (main_wakeword_ids
       [["a.umdl"%string]; ["b.umdl"%string; "0.6"%string]; ["c.umdl"%string]]
       (Some ["alpha"%string]))
    None true 16000 2 1 4.

(** * Properties *)

Section Properties.

Context {C : Collaborators}.

Open Scope Z_scope.

(** ** Slices *)

Lemma slice_until_length (b : bytes) (k : Z) :
  0 <= k <= py_len b -> py_len (slice_until b k) = k.
Proof.
  intros H. unfold slice_until, py_len in *.
  destruct (Z.leb_spec 0 k); [|lia].
  rewrite length_firstn. lia.
Qed.

Lemma slice_from_length (b : bytes) (k : Z) :
  0 <= k <= py_len b -> py_len (slice_from b k) = py_len b - k.
Proof.
  intros H. unfold slice_from, py_len in *.
  destruct (Z.leb_spec 0 k); [|lia].
  rewrite length_skipn. lia.
Qed.

Lemma slice_split (b : bytes) (k : Z) :
  0 <= k -> slice_until b k ++ slice_from b k = b.
Proof.
  intros H. unfold slice_until, slice_from.
  destruct (Z.leb_spec 0 k); [|lia].
  apply firstn_skipn.
Qed.

(** With a chunk size of zero or less the buffer does not get shorter. *)
Lemma slice_from_nonpositive (b : bytes) (k : Z) :
  k <= 0 -> py_len b <= - k -> slice_from b k = b.
Proof.
  intros Hk Hl. unfold slice_from, py_len in *.
  destruct (Z.leb_spec 0 k).
  - replace k with 0 by lia. reflexivity.
  - replace (Z.to_nat (Z.of_nat (List.length b) + k)) with O by lia. reflexivity.
Qed.

(** ** Traces *)

Lemma chunks_fed_app (a b : list event) :
  chunks_fed (a ++ b) = chunks_fed a ++ chunks_fed b.
Proof. apply flat_map_app. Qed.

Lemma invoked_app (a b : list event) : invoked (a ++ b) = invoked a ++ invoked b.
Proof. apply flat_map_app. Qed.

Lemma yields_app (a b : list event) : yields (a ++ b) = yields a ++ yields b.
Proof. apply flat_map_app. Qed.

Lemma results_of_app (a b : list event) :
  results_of (a ++ b) = results_of a ++ results_of b.
Proof. apply flat_map_app. Qed.

Lemma chunks_of_calls_app (a b : list event) :
  chunks_of_calls (a ++ b) = chunks_of_calls a ++ chunks_of_calls b.
Proof. apply flat_map_app. Qed.

Lemma invoked_calls_of (i : nat) (chunk : bytes) (rs : list Z) :
  invoked (calls_of i chunk rs) = seq i (List.length rs).
Proof.
  revert i. induction rs as [|r rs IH]; intros i; simpl; [reflexivity|].
  now rewrite IH.
Qed.

Lemma results_of_calls_of (i : nat) (chunk : bytes) (rs : list Z) :
  results_of (calls_of i chunk rs) = rs.
Proof.
  revert i. induction rs as [|r rs IH]; intros i; simpl; [reflexivity|].
  now rewrite IH.
Qed.

Lemma chunks_of_calls_of (i : nat) (chunk : bytes) (rs : list Z) :
  chunks_of_calls (calls_of i chunk rs) = repeat chunk (List.length rs).
Proof.
  revert i. induction rs as [|r rs IH]; intros i; simpl; [reflexivity|].
  now rewrite IH.
Qed.

Lemma yields_calls_of (i : nat) (chunk : bytes) (rs : list Z) :
  yields (calls_of i chunk rs) = [].
Proof.
  revert i. induction rs as [|r rs IH]; intros i; simpl; [reflexivity|].
  apply IH.
Qed.

Lemma chunks_fed_calls_of_S (i : nat) (chunk : bytes) (rs : list Z) :
  chunks_fed (calls_of (S i) chunk rs) = [].
Proof.
  revert i. induction rs as [|r rs IH]; intros i; simpl; [reflexivity|].
  apply IH.
Qed.

Lemma chunks_fed_calls_of_O (chunk : bytes) (rs : list Z) :
  rs <> [] -> chunks_fed (calls_of O chunk rs) = [chunk].
Proof.
  destruct rs as [|r rs]; [congruence|]. intros _. simpl.
  now rewrite chunks_fed_calls_of_S.
Qed.

(** ** The detector loop *)

Lemma first_match_bound (ds : list Detector) (chunk : bytes) (k : nat) :
  first_match ds chunk = Some k -> (k < List.length ds)%nat.
Proof.
  revert k. induction ds as [|d ds IH]; intros k; simpl; [discriminate|].
  destruct (0 <? fst (RunDetection d chunk)).
  - intros [= <-]. lia.
  - destruct (first_match ds chunk) as [j|]; [|discriminate].
    intros [= <-]. specialize (IH j eq_refl). lia.
Qed.

Lemma polled_bound (ds : list Detector) (chunk : bytes) :
  (polled ds chunk <= List.length ds)%nat.
Proof.
  unfold polled. destruct (first_match ds chunk) as [k|] eqn:E; [|lia].
  apply first_match_bound in E. lia.
Qed.

Lemma polled_positive (ds : list Detector) (chunk : bytes) :
  ds <> [] -> (0 < polled ds chunk)%nat.
Proof.
  unfold polled. destruct (first_match ds chunk); [lia|].
  destruct ds; [congruence|]. simpl. lia.
Qed.

(** The loop polls the detectors up to the first match and leaves the others
    alone. *)
Lemma detector_loop_eq (i : nat) (ds : list Detector) (chunk : bytes) :
  detector_loop i ds chunk =
    (map (fun d => snd (RunDetection d chunk)) (firstn (polled ds chunk) ds)
       ++ skipn (polled ds chunk) ds,
     calls_of i chunk
       (map (fun d => fst (RunDetection d chunk)) (firstn (polled ds chunk) ds)),
     option_map (Nat.add i) (first_match ds chunk)).
Proof.
  revert i. induction ds as [|d ds IH]; intros i; [reflexivity|].
  unfold polled. simpl.
  destruct (RunDetection d chunk) as [r d'] eqn:E. simpl.
  destruct (0 <? r) eqn:Hr.
  - simpl. rewrite E. simpl. now rewrite Nat.add_0_r.
  - rewrite IH. unfold polled.
    destruct (first_match ds chunk) as [k|]; simpl; rewrite E; simpl.
    + now rewrite Nat.add_succ_r.
    + reflexivity.
Qed.

Lemma polled_results (ds : list Detector) (chunk : bytes) :
  let rs := map (fun d => fst (RunDetection d chunk)) (firstn (polled ds chunk) ds) in
  match first_match ds chunk with
  | Some k =>
      exists rs0 r, rs = rs0 ++ [r] /\ List.length rs0 = k /\
                    Forall (fun x => x <= 0) rs0 /\ 0 < r
  | None => Forall (fun x => x <= 0) rs /\ List.length rs = List.length ds
  end.
Proof.
  induction ds as [|d ds IH]; [simpl; auto|].
  unfold polled in *. simpl in *.
  destruct (Z.ltb_spec 0 (fst (RunDetection d chunk))) as [Hr|Hr].
  - exists [], (fst (RunDetection d chunk)). simpl. auto.
  - destruct (first_match ds chunk) as [k|]; simpl.
    + destruct IH as (rs0 & r & E & Hl & Hall & Hpos).
      exists (fst (RunDetection d chunk) :: rs0), r.
      split; [simpl; f_equal; exact E|].
      split; [simpl; congruence|]. auto.
    + destruct IH as [Hall Hl]. split; [constructor; auto|].
      simpl. now rewrite Hl.
Qed.

Lemma polled_length (ds : list Detector) (chunk : bytes) :
  List.length (firstn (polled ds chunk) ds) = polled ds chunk.
Proof. rewrite length_firstn. pose proof (polled_bound ds chunk). lia. Qed.

(** Every detector is polled exactly when none but the last reports a
    detection. *)
Lemma polled_all_iff (ds : list Detector) (chunk : bytes) :
  polled ds chunk = List.length ds <->
  (forall i d, nth_error ds i = Some d -> (S i < List.length ds)%nat ->
               fst (RunDetection d chunk) <= 0).
Proof.
  induction ds as [|d ds IH].
  - split; [intros _ i d Hn; destruct i; discriminate|reflexivity].
  - assert (Hp : polled (d :: ds) chunk
                 = if 0 <? fst (RunDetection d chunk) then 1%nat
                   else S (polled ds chunk)).
    { unfold polled. simpl. destruct (0 <? fst (RunDetection d chunk)); [reflexivity|].
      destruct (first_match ds chunk); reflexivity. }
    rewrite Hp. cbn [List.length].
    destruct (Z.ltb_spec 0 (fst (RunDetection d chunk))) as [Hr|Hr].
    + split.
      * intros H i d0 Hn Hlt. injection H as H. lia.
      * intros H. destruct ds as [|d1 ds']; [reflexivity|]. exfalso.
        assert (fst (RunDetection d chunk) <= 0)
          by (apply (H 0%nat d eq_refl); cbn [List.length]; lia).
        lia.
    + split.
      * intros H i d0 Hn Hlt. injection H as H. destruct i as [|i]; simpl in Hn.
        -- injection Hn as <-. exact Hr.
        -- apply (proj1 IH H i d0 Hn). lia.
      * intros H. f_equal. apply IH. intros i d0 Hn Hlt.
        apply (H (S i) d0 Hn). lia.
Qed.

(** ** One iteration of the [while] loop *)

Lemma same_settings_refl (self : WakeHermesMqtt) : same_settings self self.
Proof. unfold same_settings. repeat split. Qed.

Lemma same_settings_trans (a b c : WakeHermesMqtt) :
  same_settings a b -> same_settings b c -> same_settings a c.
Proof.
  unfold same_settings. intros H1 H2.
  repeat match goal with H : _ /\ _ |- _ => destruct H end.
  repeat split; congruence.
Qed.

Lemma handle_detection_settings (a b : WakeHermesMqtt) (i : nat) (siteId : string) :
  same_settings a b -> handle_detection a i siteId = handle_detection b i siteId.
Proof.
  intros (Hm & _ & _ & _ & _ & _ & _ & _ & _ & _ & Hi & _).
  unfold handle_detection, handle_detection_try. now rewrite Hm, Hi.
Qed.

Lemma wakewordId_of_settings (a b : WakeHermesMqtt) (i : nat) :
  same_settings a b -> wakewordId_of a i = wakewordId_of b i.
Proof.
  intros (_ & Hw & _). unfold wakewordId_of. now rewrite Hw.
Qed.

Lemma drain_step_None (self : WakeHermesMqtt) (siteId : string) :
  drain_step self siteId = None <-> py_len (audio_buffer self) < chunk_size self.
Proof.
  unfold drain_step.
  destruct (Z.leb_spec (chunk_size self) (py_len (audio_buffer self))) as [H|H].
  - destruct (detector_loop _ _ _) as [[ds calls] [k|]]; split; try discriminate; lia.
  - tauto.
Qed.

Lemma drain_step_Some (self self' : WakeHermesMqtt) (siteId : string) (tr : list event) :
  drain_step self siteId = Some (self', tr) ->
  let chunk := slice_until (audio_buffer self) (chunk_size self) in
  let ds := detectors self in
  chunk_size self <= py_len (audio_buffer self) /\
  audio_buffer self' = slice_from (audio_buffer self) (chunk_size self) /\
  detectors self' =
    map (fun d => snd (RunDetection d chunk)) (firstn (polled ds chunk) ds)
      ++ skipn (polled ds chunk) ds /\
  same_settings self self' /\
  tr = calls_of O chunk
         (map (fun d => fst (RunDetection d chunk)) (firstn (polled ds chunk) ds))
       ++ match first_match ds chunk with
          | Some k => [EvYield (wakewordId_of self k) (handle_detection self k siteId)]
          | None => []
          end.
Proof.
  intros H chunk ds. unfold drain_step in H.
  destruct (Z.leb_spec (chunk_size self) (py_len (audio_buffer self))) as [Hc|Hc];
    [|discriminate].
  cbn [detectors set_audio_buffer] in H. rewrite detector_loop_eq in H.
  fold chunk ds in H.
  assert (Hlen : List.length
            (map (fun d => snd (RunDetection d chunk)) (firstn (polled ds chunk) ds)
             ++ skipn (polled ds chunk) ds) = List.length ds).
  { rewrite length_app, length_map, <- length_app, firstn_skipn. reflexivity. }
  destruct (first_match ds chunk) as [k|]; simpl in H; injection H as <- <-;
    (split; [exact Hc|]); (split; [reflexivity|]); (split; [reflexivity|]);
    (split; [unfold same_settings; cbn; repeat split; now rewrite Hlen|]).
  - reflexivity.
  - now rewrite app_nil_r.
Qed.

Lemma drain_step_chunks_fed (self self' : WakeHermesMqtt) (siteId : string)
    (tr : list event) :
  drain_step self siteId = Some (self', tr) ->
  detectors self <> [] ->
  chunks_fed tr = [slice_until (audio_buffer self) (chunk_size self)].
Proof.
  intros H Hd. apply drain_step_Some in H.
  destruct H as (_ & _ & _ & _ & ->).
  rewrite chunks_fed_app, chunks_fed_calls_of_O.
  - destruct (first_match _ _); reflexivity.
  - intros E. apply (f_equal (@List.length Z)) in E.
    rewrite length_map, polled_length in E.
    pose proof (polled_positive (slice_until (audio_buffer self) (chunk_size self)) Hd).
    simpl in E. lia.
Qed.

(** ** The [while] loop *)

Lemma concat_uniform_length (l : list bytes) (c : Z) :
  Forall (fun ch => py_len ch = c) l -> py_len (List.concat l) = c * py_len l.
Proof.
  unfold py_len. induction 1 as [|ch l Hch Hl IH]; simpl; [lia|].
  rewrite length_app. lia.
Qed.

(** What a finished loop has done: the chunks it fed, followed by what it
    left in the buffer, are the buffer it started from. *)
Lemma drain_chunks (fuel : nat) :
  forall (self self' : WakeHermesMqtt) (siteId : string) (tr : list event),
    1 <= chunk_size self ->
    detectors self <> [] ->
    drain fuel self siteId = Some (self', tr) ->
    List.concat (chunks_fed tr) ++ audio_buffer self' = audio_buffer self /\
    Forall (fun ch => py_len ch = chunk_size self) (chunks_fed tr) /\
    py_len (audio_buffer self') < chunk_size self /\
    same_settings self self'.
Proof.
  induction fuel as [|fuel IH]; intros self self' siteId tr Hc Hd H; [discriminate|].
  simpl in H. destruct (drain_step self siteId) as [[s1 tr1]|] eqn:E1.
  - destruct (drain fuel s1 siteId) as [[s2 tr2]|] eqn:E2; [|discriminate].
    injection H as <- <-.
    pose proof (drain_step_chunks_fed _ _ E1 Hd) as Hfed.
    apply drain_step_Some in E1. destruct E1 as (Hle & Hbuf & _ & Hset & _).
    assert (Hc1 : chunk_size s1 = chunk_size self)
      by (symmetry; apply Hset).
    assert (Hd1 : detectors s1 <> []).
    { intros E. destruct Hset as (_ & _ & _ & _ & _ & _ & _ & _ & _ & _ & _ & Hl).
      rewrite E in Hl. destruct (detectors self); [congruence|discriminate]. }
    destruct (IH s1 s2 siteId tr2) as (Hcat & Hall & Hrem & Hset2); auto; [lia|].
    rewrite chunks_fed_app, Hfed. simpl.
    split; [|split; [|split]].
    + rewrite <- app_assoc, Hcat, Hbuf. apply slice_split. lia.
    + constructor; [apply slice_until_length; lia|]. now rewrite <- Hc1.
    + lia.
    + eapply same_settings_trans; eauto.
  - injection H as <- <-. apply drain_step_None in E1. simpl.
    split; [reflexivity|]. split; [constructor|].
    split; [exact E1|apply same_settings_refl].
Qed.

(** Whatever chunk a detector is called on is one the first detector was
    called on. *)
Lemma drain_calls_fed (fuel : nat) :
  forall (self self' : WakeHermesMqtt) (siteId : string) (tr : list event),
    detectors self <> [] ->
    drain fuel self siteId = Some (self', tr) ->
    incl (chunks_of_calls tr) (chunks_fed tr).
Proof.
  induction fuel as [|fuel IH]; intros self self' siteId tr Hd H; [discriminate|].
  simpl in H. destruct (drain_step self siteId) as [[s1 tr1]|] eqn:E1.
  - destruct (drain fuel s1 siteId) as [[s2 tr2]|] eqn:E2; [|discriminate].
    injection H as <- <-.
    pose proof (drain_step_chunks_fed _ _ E1 Hd) as Hfed.
    apply drain_step_Some in E1. destruct E1 as (_ & _ & _ & Hset & ->).
    assert (Hd1 : detectors s1 <> []).
    { intros E. destruct Hset as (_ & _ & _ & _ & _ & _ & _ & _ & _ & _ & _ & Hl).
      rewrite E in Hl. destruct (detectors self); [congruence|discriminate]. }
    rewrite chunks_of_calls_app, chunks_fed_app, Hfed.
    apply incl_app.
    + rewrite chunks_of_calls_app, chunks_of_calls_of.
      intros ch Hin. apply in_app_or in Hin. destruct Hin as [Hin|Hin].
      * apply repeat_spec in Hin. subst ch. now left.
      * destruct (first_match _ _); simpl in Hin; contradiction.
    + apply incl_appr. eapply IH; eauto.
  - injection H as <- <-. intros ch [].
Qed.

(** The number of iterations is [len(buffer) // chunk_size]. *)
Lemma drain_terminates (fuel : nat) :
  forall (self : WakeHermesMqtt) (siteId : string),
    1 <= chunk_size self ->
    py_len (audio_buffer self) / chunk_size self < Z.of_nat fuel ->
    exists self' tr, drain fuel self siteId = Some (self', tr).
Proof.
  induction fuel as [|fuel IH]; intros self siteId Hc Hf.
  - exfalso. assert (0 <= py_len (audio_buffer self) / chunk_size self).
    { apply Z.div_pos; unfold py_len; lia. }
    lia.
  - simpl. destruct (drain_step self siteId) as [[s1 tr1]|] eqn:E1; [|eauto].
    apply drain_step_Some in E1. destruct E1 as (Hle & Hbuf & _ & Hset & _).
    assert (Hc1 : chunk_size s1 = chunk_size self) by (symmetry; apply Hset).
    destruct (IH s1 siteId) as (s2 & tr2 & E2).
    + lia.
    + rewrite Hc1, Hbuf, slice_from_length by (unfold py_len in *; lia).
      replace (py_len (audio_buffer self) - chunk_size self)
        with (py_len (audio_buffer self) + (-1) * chunk_size self) by lia.
      rewrite Z.div_add by lia. lia.
    + rewrite E2. eauto.
Qed.

(** A chunk size of zero or less: the loop condition never fails. *)
Lemma drain_diverges (fuel : nat) :
  forall (self : WakeHermesMqtt) (siteId : string),
    chunk_size self <= 0 -> drain fuel self siteId = None.
Proof.
  induction fuel as [|fuel IH]; intros self siteId Hc; [reflexivity|].
  simpl. destruct (drain_step self siteId) as [[s1 tr1]|] eqn:E1.
  - apply drain_step_Some in E1. destruct E1 as (_ & _ & _ & Hset & _).
    assert (Hc1 : chunk_size s1 = chunk_size self) by (symmetry; apply Hset).
    rewrite IH; [reflexivity|lia].
  - apply drain_step_None in E1. unfold py_len in E1. lia.
Qed.

Lemma drain_S (fuel : nat) (self : WakeHermesMqtt) (siteId : string) :
  drain (S fuel) self siteId =
    match drain_step self siteId with
    | None => Some (self, [])
    | Some (self', tr) =>
        match drain fuel self' siteId with
        | None => None
        | Some (self'', tr') => Some (self'', tr ++ tr')
        end
    end.
Proof. reflexivity. Qed.

(** More fuel does not change the result. *)
Lemma drain_fuel (fuel : nat) :
  forall (self : WakeHermesMqtt) (siteId : string) r,
    drain fuel self siteId = Some r -> drain (S fuel) self siteId = Some r.
Proof.
  induction fuel as [|fuel IH]; intros self siteId r H; [discriminate|].
  rewrite drain_S in H. rewrite drain_S.
  destruct (drain_step self siteId) as [[s1 tr1]|]; [|exact H].
  destruct (drain fuel s1 siteId) as [[s2 tr2]|] eqn:E2; [|discriminate].
  now rewrite (IH _ _ _ E2).
Qed.

(** A finished loop has run [len(buffer) // chunk_size] times and left
    [len(buffer) % chunk_size] bytes. *)
Lemma drain_complete (fuel : nat) (self : WakeHermesMqtt) (siteId : string) :
  1 <= chunk_size self ->
  detectors self <> [] ->
  py_len (audio_buffer self) / chunk_size self < Z.of_nat fuel ->
  exists self' tr,
    drain fuel self siteId = Some (self', tr) /\
    py_len (chunks_fed tr) = py_len (audio_buffer self) / chunk_size self /\
    Forall (fun ch => py_len ch = chunk_size self) (chunks_fed tr) /\
    List.concat (chunks_fed tr) ++ audio_buffer self' = audio_buffer self /\
    py_len (audio_buffer self') = py_len (audio_buffer self) mod chunk_size self /\
    same_settings self self'.
Proof.
  intros Hc Hd Hf.
  destruct (drain_terminates fuel self siteId Hc Hf) as (self' & tr & E).
  exists self', tr. split; [exact E|].
  destruct (drain_chunks _ _ _ Hc Hd E) as (Hcat & Hall & Hrem & Hset).
  pose proof (concat_uniform_length Hall) as Hlen.
  assert (Htot : py_len (audio_buffer self) =
                 chunk_size self * py_len (chunks_fed tr) + py_len (audio_buffer self')).
  { rewrite <- Hlen, <- Hcat at 1. unfold py_len. rewrite length_app. lia. }
  assert (Hr : 0 <= py_len (audio_buffer self') < chunk_size self)
    by (unfold py_len in *; lia).
  split; [|split; [exact Hall|split; [exact Hcat|split; [|exact Hset]]]].
  - eapply Z.div_unique; [left; exact Hr|exact Htot].
  - eapply Z.mod_unique; [left; exact Hr|exact Htot].
Qed.

(** ** Loading the detectors *)

Lemma load_detectors_loop_configuration (ms : list SnowboyModel) :
  forall (self self' : WakeHermesMqtt) (r : option exn),
    load_detectors_loop ms self = (r, self') -> same_configuration self self'.
Proof.
  induction ms as [|m ms IH]; intros self self' r H; simpl in H.
  - injection H as _ <-. unfold same_configuration. repeat split.
  - destruct (is_file (model_path m)).
    + apply IH in H. unfold same_configuration in *. cbn in H. exact H.
    + injection H as _ <-. unfold same_configuration. repeat split.
Qed.

Lemma ensure_detectors_configuration (self self' : WakeHermesMqtt) (r : option exn) :
  ensure_detectors self = (r, self') -> same_configuration self self'.
Proof.
  unfold ensure_detectors, load_detectors. intros H.
  destruct (detectors self).
  - apply load_detectors_loop_configuration in H.
    unfold same_configuration in *. cbn in H. exact H.
  - injection H as _ <-. unfold same_configuration. repeat split.
Qed.

(** After a successful load [model_ids] is the stem of the last model, a
    string. *)
Lemma load_detectors_loop_model_ids (ms : list SnowboyModel) :
  forall (self self' : WakeHermesMqtt) (m : SnowboyModel),
    load_detectors_loop (ms ++ [m]) self = (None, self') ->
    model_ids self' = ids_str (stem (model_path m)).
Proof.
  induction ms as [|m0 ms IH]; intros self self' m H; simpl in H.
  - destruct (is_file (model_path m)); [|discriminate].
    injection H as <-. reflexivity.
  - destruct (is_file (model_path m0)); [|discriminate].
    eapply IH; eauto.
Qed.

Lemma load_detectors_model_ids (self self' : WakeHermesMqtt)
    (ms : list SnowboyModel) (m : SnowboyModel) :
  models self = ms ++ [m] ->
  load_detectors self = (None, self') ->
  model_ids self' = ids_str (stem (model_path m)).
Proof.
  unfold load_detectors. cbn [models set_detectors set_model_ids]. intros -> H.
  eapply load_detectors_loop_model_ids; eauto.
Qed.

(** ** Conversion *)

Lemma maybe_convert_wav_format (a b : WakeHermesMqtt) (wav : bytes) :
  sample_rate a = sample_rate b ->
  sample_width a = sample_width b ->
  channels a = channels b ->
  maybe_convert_wav a wav = maybe_convert_wav b wav.
Proof.
  intros Hr Hw Hc. unfold maybe_convert_wav, _convert_wav.
  now rewrite Hr, Hw, Hc.
Qed.

(** The only thing a conversion does to the outside world is to run [sox]. *)
Lemma maybe_convert_wav_trace (self : WakeHermesMqtt) (wav : bytes)
    (r : exn + bytes) (tr : list event) :
  maybe_convert_wav self wav = (r, tr) ->
  tr = map EvSox (sox_runs tr).
Proof.
  unfold maybe_convert_wav, _convert_wav. intros H.
  destruct (wave_open wav) as [f|]; [|now injection H as _ <-].
  destruct (_ || _); [|now injection H as _ <-].
  destruct (sox _ _ _ _); now injection H as _ <-.
Qed.

Lemma chunks_fed_sox (l : list bytes) : chunks_fed (map EvSox l) = [].
Proof. induction l; simpl; auto. Qed.

Lemma yields_sox (l : list bytes) : yields (map EvSox l) = [].
Proof. induction l; simpl; auto. Qed.

Lemma invoked_sox (l : list bytes) : invoked (map EvSox l) = [].
Proof. induction l; simpl; auto. Qed.

Lemma chunks_of_calls_sox (l : list bytes) : chunks_of_calls (map EvSox l) = [].
Proof. induction l; simpl; auto. Qed.

Lemma maybe_convert_wav_wraps (self : WakeHermesMqtt) (pcm wav : bytes) :
  wraps self pcm wav -> maybe_convert_wav self wav = (inr pcm, []).
Proof.
  intros (f & Hopen & Hr & Hw & Hc & Hpcm). unfold maybe_convert_wav.
  rewrite Hopen, Hr, Hw, Hc, !Z.eqb_refl. simpl. now rewrite Hpcm.
Qed.

(** ** A whole call of [handle_audio_frame] *)

Lemma handle_audio_frame_complete (fuel : nat) (self self1 : WakeHermesMqtt)
    (wav_bytes audio_data : bytes) (siteId : string) (tr0 : list event) :
  1 <= chunk_size self ->
  ensure_detectors self = (None, self1) ->
  detectors self1 <> [] ->
  maybe_convert_wav self1 wav_bytes = (inr audio_data, tr0) ->
  py_len (audio_buffer self ++ audio_data) / chunk_size self < Z.of_nat fuel ->
  exists self' tr,
    handle_audio_frame fuel self wav_bytes siteId = Some (None, self', tr) /\
    py_len (chunks_fed tr)
      = py_len (audio_buffer self ++ audio_data) / chunk_size self /\
    Forall (fun ch => py_len ch = chunk_size self) (chunks_fed tr) /\
    List.concat (chunks_fed tr) ++ audio_buffer self' = audio_buffer self ++ audio_data /\
    py_len (audio_buffer self')
      = py_len (audio_buffer self ++ audio_data) mod chunk_size self /\
    incl (chunks_of_calls tr) (chunks_fed tr).
Proof.
  intros Hc He Hd Hw Hf.
  pose proof (ensure_detectors_configuration _ He) as Hcfg.
  assert (Hbuf : audio_buffer self1 = audio_buffer self) by (symmetry; apply Hcfg).
  assert (Hcs : chunk_size self1 = chunk_size self) by (symmetry; apply Hcfg).
  set (s2 := set_audio_buffer (audio_buffer self1 ++ audio_data) self1).
  destruct (@drain_complete fuel s2 siteId) as (self' & tr & E & Hn & Hall & Hcat & Hrem & _).
  - cbn. lia.
  - exact Hd.
  - cbn [s2 audio_buffer chunk_size set_audio_buffer]. now rewrite Hbuf, Hcs.
  - cbn [s2 audio_buffer chunk_size set_audio_buffer] in Hn, Hall, Hcat, Hrem.
    rewrite Hbuf, Hcs in *.
    exists self', (tr0 ++ tr). unfold handle_audio_frame.
    rewrite He, Hw. fold s2. rewrite E.
    rewrite chunks_of_calls_app, chunks_fed_app.
    rewrite (maybe_convert_wav_trace _ _ Hw), chunks_fed_sox, chunks_of_calls_sox.
    simpl. repeat (split; [assumption || reflexivity|]).
    exact (@drain_calls_fed fuel s2 self' siteId tr Hd E).
Qed.

(** ** What one chunk does *)

Lemma wakewordId_of_nth (self : WakeHermesMqtt) (i : nat) :
  wakewordId_of self i = nth i (wakeword_ids self) "default"%string.
Proof.
  unfold wakewordId_of.
  destruct (Nat.ltb_spec i (List.length (wakeword_ids self))); [reflexivity|].
  now rewrite nth_overflow.
Qed.

Lemma drain_settings (fuel : nat) :
  forall (self self' : WakeHermesMqtt) (siteId : string) (tr : list event),
    drain fuel self siteId = Some (self', tr) -> same_settings self self'.
Proof.
  induction fuel as [|fuel IH]; intros self self' siteId tr H; [discriminate|].
  rewrite drain_S in H. destruct (drain_step self siteId) as [[s1 tr1]|] eqn:E1.
  - destruct (drain fuel s1 siteId) as [[s2 tr2]|] eqn:E2; [|discriminate].
    injection H as <- <-. apply drain_step_Some in E1.
    destruct E1 as (_ & _ & _ & Hset & _).
    eapply same_settings_trans; eauto.
  - injection H as <- <-. apply same_settings_refl.
Qed.

(** Whatever the loop yields is the wake word id at the position of a
    detector, with what [handle_detection] returns for that position. *)
Lemma drain_yields (fuel : nat) :
  forall (self self' : WakeHermesMqtt) (siteId : string) (tr : list event),
    drain fuel self siteId = Some (self', tr) ->
    forall w m, In (w, m) (yields tr) ->
      exists i : nat,
        (i < List.length (detectors self))%nat /\
        w = wakewordId_of self i /\
        m = handle_detection self i siteId.
Proof.
  induction fuel as [|fuel IH]; intros self self' siteId tr H w m Hin; [discriminate|].
  rewrite drain_S in H. destruct (drain_step self siteId) as [[s1 tr1]|] eqn:E1.
  - destruct (drain fuel s1 siteId) as [[s2 tr2]|] eqn:E2; [|discriminate].
    injection H as <- <-. rewrite yields_app in Hin.
    apply drain_step_Some in E1. destruct E1 as (_ & _ & _ & Hset & ->).
    apply in_app_or in Hin. destruct Hin as [Hin|Hin].
    + rewrite yields_app, yields_calls_of in Hin. simpl in Hin.
      destruct (first_match _ _) as [k|] eqn:Hk; simpl in Hin; [|contradiction].
      destruct Hin as [[= <- <-]|[]]. exists k.
      split; [eapply first_match_bound; eauto|auto].
    + destruct (IH _ _ _ _ E2 _ _ Hin) as (i & Hi & -> & ->).
      exists i. split; [|split].
      * destruct Hset as (_ & _ & _ & _ & _ & _ & _ & _ & _ & _ & _ & Hl). lia.
      * symmetry. now apply wakewordId_of_settings.
      * symmetry. now apply handle_detection_settings.
  - injection H as <- <-. contradiction.
Qed.

(** ** What a detection message carries *)

(** After a successful load the [modelId] of a detection by the detector at
    position [i] is the character at position [i] of the stem of the last
    model; the other fields are as configured. *)
Lemma handle_detection_fields (self self' : WakeHermesMqtt)
    (ms : list SnowboyModel) (m : SnowboyModel) (i : nat) (siteId : string)
    (d : HotwordDetected) :
  models self = ms ++ [m] ->
  load_detectors self = (None, self') ->
  handle_detection self' i siteId = Detected d ->
  (exists c, String.get i (stem (model_path m)) = Some c /\
             modelId d = String c EmptyString) /\
  (exists model, nth_error (models self) i = Some model /\
                 currentSensitivity d = sensitivity model) /\
  modelVersion d = ""%string /\
  modelType d = "personal"%string /\
  hd_siteId d = siteId.
Proof.
  intros Hms Hload H.
  pose proof (@load_detectors_model_ids self self' ms m Hms Hload) as Hids.
  assert (Hmodels : models self' = models self).
  { unfold load_detectors in Hload.
    apply load_detectors_loop_configuration in Hload. symmetry. apply Hload. }
  unfold handle_detection, handle_detection_try in H.
  rewrite Hids, Hmodels in H. simpl in H.
  destruct (i <? String.length (stem (model_path m)))%nat; [|discriminate].
  destruct (String.get i (stem (model_path m))) as [c|]; [|discriminate].
  destruct (nth_error (models self) i) as [model|]; [|discriminate].
  injection H as <-. simpl. eauto 10.
Qed.

(** ** Messages *)

Lemma chunks_fed_publish (tr : list event) :
  chunks_fed (flat_map publish_result tr) = chunks_fed tr.
Proof.
  induction tr as [|ev tr IH]; [reflexivity|].
  cbn [flat_map]. rewrite chunks_fed_app, IH.
  destruct ev as [w|[|i] ch r|w [d|e]|t m]; reflexivity.
Qed.

Lemma on_message_disabled_audio (fuel : nat) (self : WakeHermesMqtt)
    (msg : mqtt_message) :
  enabled self = false ->
  AudioFrame_is_topic (msg_topic msg) = true ->
  on_message fuel self msg = Some (self, []).
Proof.
  intros He Ha. unfold on_message, handle_toggle.
  destruct (msg_topic msg); try discriminate. now rewrite He.
Qed.

Lemma on_message_disabled_frame (fuel : nat) (self : WakeHermesMqtt)
    (siteId : string) (payload : bytes) :
  enabled self = false ->
  on_message fuel self (MqttMessage (AudioFrame_topic siteId) payload)
    = Some (self, []).
Proof.
  intros He. unfold on_message, handle_toggle. cbn [msg_topic]. now rewrite He.
Qed.

Lemma on_messages_disabled_audio (fuel : nat) (self : WakeHermesMqtt)
    (msgs : list mqtt_message) :
  enabled self = false ->
  Forall (fun m => AudioFrame_is_topic (msg_topic m) = true) msgs ->
  on_messages fuel self msgs = Some (self, []).
Proof.
  intros He. induction 1 as [|m msgs Hm _ IH]; [reflexivity|].
  simpl. now rewrite (on_message_disabled_audio fuel self m He Hm), IH.
Qed.

Lemma on_messages_app (fuel : nat) (a b : list mqtt_message) :
  forall self : WakeHermesMqtt,
    on_messages fuel self (a ++ b) =
      match on_messages fuel self a with
      | None => None
      | Some (self', tr) =>
          match on_messages fuel self' b with
          | None => None
          | Some (self'', tr') => Some (self'', tr ++ tr')
          end
      end.
Proof.
  induction a as [|m a IH]; intros self; simpl.
  - destruct (on_messages fuel self b) as [[s t]|]; reflexivity.
  - destruct (on_message fuel self m) as [[s1 t1]|]; [|reflexivity].
    rewrite IH. destruct (on_messages fuel s1 a) as [[s2 t2]|]; [|reflexivity].
    destruct (on_messages fuel s2 b) as [[s3 t3]|]; [|reflexivity].
    now rewrite app_assoc.
Qed.

Lemma on_message_toggle_off (fuel : nat) (self : WakeHermesMqtt)
    (msg : mqtt_message) (json_payload : json) :
  msg_topic msg = HotwordToggleOff_topic ->
  loads_payload (msg_payload msg) = Some json_payload ->
  _check_siteId self json_payload = inr true ->
  on_message fuel self msg = Some (set_enabled false self, []).
Proof.
  intros Ht Hj Hs. unfold on_message, handle_toggle. now rewrite Ht, Hj, Hs.
Qed.

Lemma on_message_toggle_on (fuel : nat) (self : WakeHermesMqtt)
    (msg : mqtt_message) (json_payload : json) :
  msg_topic msg = HotwordToggleOn_topic ->
  loads_payload (msg_payload msg) = Some json_payload ->
  _check_siteId self json_payload = inr true ->
  on_message fuel self msg
    = Some (set_first_audio true (set_enabled true self), []).
Proof.
  intros Ht Hj Hs. unfold on_message, handle_toggle. now rewrite Ht, Hj, Hs.
Qed.

Lemma on_message_audio (fuel : nat) (self : WakeHermesMqtt) (msg : mqtt_message) :
  enabled self = true ->
  AudioFrame_is_topic (msg_topic msg) = true ->
  listens_to self (msg_topic msg) = true ->
  on_message fuel self msg =
    match handle_audio_frame fuel
            (if first_audio self then set_first_audio false self else self)
            (msg_payload msg) (AudioFrame_get_siteId (msg_topic msg)) with
    | None => None
    | Some (_, self', tr) => Some (self', flat_map publish_result tr)
    end.
Proof.
  intros He Ha Hl. unfold on_message, handle_toggle.
  destruct (msg_topic msg) eqn:Ht; try discriminate.
  now rewrite He, Ha, Hl.
Qed.

(** ** When [handle_detection] raises *)

Lemma string_get_some (s : string) :
  forall i : nat, (i < String.length s)%nat -> exists c, String.get i s = Some c.
Proof.
  induction s as [|a s IH]; intros i Hi; simpl in *; [lia|].
  destruct i as [|i]; [eauto|]. apply IH. lia.
Qed.

Lemma model_ids_get_some (m : model_ids_value) (i : nat) :
  (i < model_ids_len m)%nat -> exists mid, model_ids_get m i = Some mid.
Proof.
  destruct m as [l|s]; simpl; intros Hi.
  - destruct (nth_error l i) eqn:E; [eauto|].
    apply nth_error_None in E. lia.
  - destruct (string_get_some s Hi) as [c ->]. eauto.
Qed.

(** When the [try] block of [handle_detection] raises. *)
Lemma handle_detection_try_raises (self : WakeHermesMqtt) (model_index : nat)
    (siteId : string) (e : exn) :
  handle_detection_try self model_index siteId = inl e ->
  ((model_ids_len (model_ids self) <= model_index)%nat /\
   e = AssertionError ("Missing " ++ str_of_nat model_index ++ " in models")) \/
  ((model_index < model_ids_len (model_ids self))%nat /\
   (List.length (models self) <= model_index)%nat /\
   e = IndexError "list index out of range").
Proof.
  unfold handle_detection_try.
  destruct (Nat.ltb_spec model_index (model_ids_len (model_ids self))) as [Hlt|Hge].
  - destruct (model_ids_get_some _ Hlt) as [mid ->].
    destruct (nth_error (models self) model_index) eqn:E; [discriminate|].
    intros [= <-]. right. apply nth_error_None in E. auto.
  - intros [= <-]. left. auto.
Qed.

(** * The claims *)

(** C1.  Whatever was appended to the audio buffer before, a call of
    [handle_audio_frame] with a chunk size [c >= 1] on a buffer that holds
    [L] bytes once the new audio is appended feeds exactly [L // c] chunks
    to the detectors, each of exactly [c] bytes, in the order of the bytes
    (the chunks followed by what stays in the buffer are the [L] bytes), no
    detector is called on anything else, and [L % c] bytes, fewer than [c],
    are left in [audio_buffer]. *)
Theorem handle_audio_frame_chunks (fuel : nat) (self self1 : WakeHermesMqtt)
    (wav_bytes audio_data : bytes) (siteId : string) (tr0 : list event)
    (Hchunk : 1 <= chunk_size self)
    (Hload : ensure_detectors self = (None, self1))
    (Hdetectors : detectors self1 <> [])
    (Hwav : maybe_convert_wav self1 wav_bytes = (inr audio_data, tr0))
    (Hfuel : py_len (audio_buffer self ++ audio_data) / chunk_size self < Z.of_nat fuel) :
  exists self' tr,
    handle_audio_frame fuel self wav_bytes siteId = Some (None, self', tr) /\
    py_len (chunks_fed tr)
      = py_len (audio_buffer self ++ audio_data) / chunk_size self /\
    Forall (fun ch => py_len ch = chunk_size self) (chunks_fed tr) /\
    List.concat (chunks_fed tr) ++ audio_buffer self' = audio_buffer self ++ audio_data /\
    incl (chunks_of_calls tr) (chunks_fed tr) /\
    py_len (audio_buffer self')
      = py_len (audio_buffer self ++ audio_data) mod chunk_size self /\
    py_len (audio_buffer self') < chunk_size self.
Proof.
  destruct (@handle_audio_frame_complete fuel self self1 wav_bytes audio_data siteId tr0)
    as (self' & tr & E & Hn & Hall & Hcat & Hrem & Hcalls); auto.
  exists self', tr. repeat (split; [assumption|]).
  rewrite Hrem. apply Z.mod_pos_bound. lia.
Qed.

(** What one iteration of the [while] loop does with the detectors: the
    first [polled ds chunk] of them are called, in order. *)
Lemma drain_step_polled (self self' : WakeHermesMqtt) (siteId : string)
    (tr : list event) :
  drain_step self siteId = Some (self', tr) ->
  let chunk := slice_until (audio_buffer self) (chunk_size self) in
  let ds := detectors self in
  let n := polled ds chunk in
  invoked tr = seq 0 n /\
  chunks_of_calls tr = repeat chunk n /\
  results_of tr = map (fun d => fst (RunDetection d chunk)) (firstn n ds) /\
  ((n = List.length ds /\ Forall (fun r => r <= 0) (results_of tr) /\ yields tr = []) \/
   (exists rs0 r,
       results_of tr = rs0 ++ [r] /\ Forall (fun x => x <= 0) rs0 /\ 0 < r /\
       n = S (List.length rs0) /\
       yields tr = [(wakewordId_of self (List.length rs0),
                     handle_detection self (List.length rs0) siteId)])).
Proof.
  intros H chunk ds n. apply drain_step_Some in H.
  destruct H as (_ & _ & _ & _ & ->). fold chunk ds. unfold n.
  set (rs := map (fun d => fst (RunDetection d chunk)) (firstn (polled ds chunk) ds)).
  assert (Hrs : List.length rs = polled ds chunk)
    by (unfold rs; now rewrite length_map, polled_length).
  rewrite invoked_app, chunks_of_calls_app, results_of_app, yields_app.
  rewrite invoked_calls_of, chunks_of_calls_of, results_of_calls_of, yields_calls_of, Hrs.
  pose proof (polled_results ds chunk) as Hres. fold rs in Hres. cbv zeta in Hres.
  destruct (first_match ds chunk) as [k|] eqn:Hk; simpl; rewrite !app_nil_r.
  - split; [reflexivity|]. split; [reflexivity|]. split; [reflexivity|]. right.
    destruct Hres as (rs0 & r & E & Hl & Hall & Hpos).
    exists rs0, r. rewrite Hl. repeat (split; [assumption|]).
    split; [|reflexivity]. unfold polled. now rewrite Hk.
  - split; [reflexivity|]. split; [reflexivity|]. split; [reflexivity|]. left.
    destruct Hres as [Hall Hl]. split; [|split; [exact Hall|reflexivity]].
    unfold polled. now rewrite Hk.
Qed.

(** C3, as amended.  For every chunk processed, the detectors are invoked
    on that chunk in the configured order, starting from the first, each at
    most once, up to and including the first one that reports a detection;
    the detectors after it are not invoked for that chunk.  So every
    configured detector is invoked exactly once on the chunk if and only if
    no detector before the last one reports a detection on it. *)
Theorem detectors_polled_until_first_match (self self' : WakeHermesMqtt) (siteId : string)
    (tr : list event) :
  drain_step self siteId = Some (self', tr) ->
  let chunk := slice_until (audio_buffer self) (chunk_size self) in
  let ds := detectors self in
  exists n : nat,
    (n <= List.length ds)%nat /\
    invoked tr = seq 0 n /\
    chunks_of_calls tr = repeat chunk n /\
    results_of tr = map (fun d => fst (RunDetection d chunk)) (firstn n ds) /\
    ((n = List.length ds /\ Forall (fun r => r <= 0) (results_of tr) /\ yields tr = []) \/
     (exists rs0 r,
         results_of tr = rs0 ++ [r] /\ Forall (fun x => x <= 0) rs0 /\ 0 < r /\
         n = S (List.length rs0) /\
         yields tr = [(wakewordId_of self (List.length rs0),
                       handle_detection self (List.length rs0) siteId)])) /\
    (invoked tr = seq 0 (List.length ds)
     <-> forall i d, nth_error ds i = Some d -> (S i < List.length ds)%nat ->
                     fst (RunDetection d chunk) <= 0).
Proof.
  intros H chunk ds.
  destruct (@drain_step_polled self self' siteId tr H) as (Hi & Hc & Hr & Hy).
  fold chunk ds in Hi, Hc, Hr, Hy.
  exists (polled ds chunk).
  split; [apply polled_bound|].
  split; [exact Hi|]. split; [exact Hc|]. split; [exact Hr|]. split; [exact Hy|].
  rewrite Hi, <- polled_all_iff. split.
  - intros E. apply (f_equal (@List.length nat)) in E.
    now rewrite !length_seq in E.
  - now intros ->.
Qed.

(** C5, as amended.  Whether the service is enabled is one flag for all
    sites.  After a toggle-off message whose site id passes [_check_siteId]
    (["kitchen"] when the service listens to ["kitchen"] and ["office"], for
    one) the service is disabled, the audio buffer is as it was, and an audio
    frame of any site, ["office"] as much as ["kitchen"], is dropped: the
    object is left as it is and no detector runs. *)
Theorem toggle_off_disables_every_site (fuel : nat) (self : WakeHermesMqtt)
    (msg : mqtt_message) (json_payload : json)
    (Htopic : msg_topic msg = HotwordToggleOff_topic)
    (Hjson : loads_payload (msg_payload msg) = Some json_payload)
    (Hsite : _check_siteId self json_payload = inr true) :
  exists self1,
    on_message fuel self msg = Some (self1, []) /\
    enabled self1 = false /\
    audio_buffer self1 = audio_buffer self /\
    forall fuel' siteId payload,
      on_message fuel' self1 (MqttMessage (AudioFrame_topic siteId) payload)
        = Some (self1, []).
Proof.
  exists (set_enabled false self).
  split; [eapply on_message_toggle_off; eauto|].
  split; [reflexivity|]. split; [reflexivity|].
  intros fuel' siteId payload. now apply on_message_disabled_frame.
Qed.

(** C6.  Audio frames that arrive while the service is disabled are dropped
    before anything is appended to [audio_buffer], and what was in the buffer
    before stays there.  For a toggle-off, any audio frames, a toggle-on and
    one more audio frame: each frame in between leaves the object as it is
    and runs no detector; the run is the run without those frames; and what
    the detectors are fed afterwards, followed by what stays in the buffer,
    is exactly what was buffered before the toggle-off followed by the audio
    of the last frame. *)
Theorem disabled_audio_is_dropped (fuel : nat) (self : WakeHermesMqtt)
    (off on frame : mqtt_message) (dropped : list mqtt_message)
    (json_off json_on : json) (audio_data : bytes) (tr0 : list event)
    (Hoff : msg_topic off = HotwordToggleOff_topic)
    (Hoff_json : loads_payload (msg_payload off) = Some json_off)
    (Hoff_site : _check_siteId self json_off = inr true)
    (Hdropped : Forall (fun m => AudioFrame_is_topic (msg_topic m) = true) dropped)
    (Hon : msg_topic on = HotwordToggleOn_topic)
    (Hon_json : loads_payload (msg_payload on) = Some json_on)
    (Hon_site : _check_siteId self json_on = inr true)
    (Hframe : AudioFrame_is_topic (msg_topic frame) = true)
    (Hlistens : listens_to self (msg_topic frame) = true)
    (Hdetectors : detectors self <> [])
    (Hchunk : 1 <= chunk_size self)
    (Hwav : maybe_convert_wav self (msg_payload frame) = (inr audio_data, tr0))
    (Hfuel : py_len (audio_buffer self ++ audio_data) / chunk_size self < Z.of_nat fuel) :
  (forall m, In m dropped ->
     on_message fuel (set_enabled false self) m = Some (set_enabled false self, [])) /\
  on_messages fuel self (off :: dropped ++ [on; frame])
    = on_messages fuel self [off; on; frame] /\
  exists self' tr,
    on_messages fuel self (off :: dropped ++ [on; frame]) = Some (self', tr) /\
    List.concat (chunks_fed tr) ++ audio_buffer self' = audio_buffer self ++ audio_data /\
    py_len (chunks_fed tr)
      = py_len (audio_buffer self ++ audio_data) / chunk_size self /\
    py_len (audio_buffer self') < chunk_size self.
Proof.
  set (s1 := set_enabled false self).
  set (s3 := set_first_audio true (set_enabled true s1)).
  set (s4 := set_first_audio false s3).
  assert (E1 : on_message fuel self off = Some (s1, []))
    by (eapply on_message_toggle_off; eauto).
  assert (E2 : on_messages fuel s1 dropped = Some (s1, []))
    by (now apply on_messages_disabled_audio).
  assert (E3 : on_message fuel s1 on = Some (s3, []))
    by (eapply on_message_toggle_on; eauto).
  assert (Hrun : forall pre,
             on_messages fuel s1 pre = Some (s1, []) ->
             on_messages fuel self (off :: pre ++ [on; frame])
               = match handle_audio_frame fuel s4 (msg_payload frame)
                         (AudioFrame_get_siteId (msg_topic frame)) with
                 | None => None
                 | Some (_, self', tr) => Some (self', flat_map publish_result tr)
                 end).
  { intros pre Hpre. cbn [on_messages]. rewrite E1, on_messages_app, Hpre.
    cbn [on_messages]. rewrite E3.
    rewrite (@on_message_audio fuel s3 frame eq_refl Hframe Hlistens).
    cbn [first_audio s3 set_first_audio]. fold s4.
    destruct (handle_audio_frame fuel s4 _ _) as [[[e s'] tr]|]; [|reflexivity].
    now rewrite app_nil_r. }
  split; [|split].
  - intros m Hm. apply on_message_disabled_audio; [reflexivity|].
    rewrite Forall_forall in Hdropped. now apply Hdropped.
  - rewrite (Hrun dropped E2). symmetry. apply (Hrun [] eq_refl).
  - assert (He : ensure_detectors s4 = (None, s4)).
    { unfold ensure_detectors. cbn [detectors s4 s3 s1 set_first_audio set_enabled].
      destruct (detectors self); [congruence|reflexivity]. }
    destruct (@handle_audio_frame_complete fuel s4 s4 (msg_payload frame) audio_data
                (AudioFrame_get_siteId (msg_topic frame)) tr0)
      as (self' & tr & E & Hn & _ & Hcat & Hrem & _);
      [exact Hchunk|exact He|exact Hdetectors| |exact Hfuel|].
    { rewrite <- Hwav. now apply maybe_convert_wav_format. }
    exists self', (flat_map publish_result tr).
    rewrite (Hrun dropped E2), E, chunks_fed_publish.
    cbn [audio_buffer chunk_size s4 s3 s1 set_first_audio set_enabled] in Hn, Hcat, Hrem.
    repeat (split; [assumption || reflexivity|]).
    rewrite Hrem. apply Z.mod_pos_bound. lia.
Qed.

(** C7.  When the [try] block of [handle_detection] raises, for whatever
    detector index and site id, [handle_detection] still returns: the result
    is an error message whose [error] is the text of the exception and whose
    [context] is the detector index as a string; the exception is a failed
    assertion on [model_ids] or an index out of the range of [models]; and
    the loop over the chunks goes on to its end all the same. *)
Theorem handle_detection_error (self : WakeHermesMqtt) (model_index : nat)
    (siteId : string) (e : exn)
    (Hraise : handle_detection_try self model_index siteId = inl e) :
  handle_detection self model_index siteId
    = Error {| error := str_of_exn e;
               context := str_of_nat model_index;
               he_siteId := siteId |} /\
  (e = AssertionError ("Missing " ++ str_of_nat model_index ++ " in models") \/
   e = IndexError "list index out of range") /\
  (forall fuel,
      1 <= chunk_size self ->
      detectors self <> [] ->
      py_len (audio_buffer self) / chunk_size self < Z.of_nat fuel ->
      exists self' tr,
        drain fuel self siteId = Some (self', tr) /\
        py_len (chunks_fed tr) = py_len (audio_buffer self) / chunk_size self /\
        py_len (audio_buffer self') < chunk_size self).
Proof.
  split; [|split].
  - unfold handle_detection. now rewrite Hraise.
  - apply handle_detection_try_raises in Hraise. tauto.
  - intros fuel Hc Hd Hf.
    destruct (@drain_complete fuel self siteId Hc Hd Hf) as (self' & tr & E & Hn & _ & _ & Hrem & _).
    exists self', tr. repeat (split; [assumption|]).
    rewrite Hrem. apply Z.mod_pos_bound. lia.
Qed.

(** ** Which detection a yield answers *)

Lemma resolved_app (n : nat) (w : nat -> string) (m : nat -> hotword_message)
    (a b : list event) :
  resolved n w m a -> resolved n w m b -> resolved n w m (a ++ b).
Proof.
  intros Ha Hb. induction Ha; cbn [app]; [exact Hb| | |]; now constructor.
Qed.

Lemma resolved_ext (n : nat) (w w' : nat -> string)
    (m m' : nat -> hotword_message) (tr : list event) :
  (forall i, w i = w' i) -> (forall i, m i = m' i) ->
  resolved n w m tr -> resolved n w' m' tr.
Proof.
  intros Hw Hm H. induction H; [constructor|now constructor|now constructor|].
  rewrite Hw, Hm. now constructor.
Qed.

Lemma resolved_soxes (n : nat) (w : nat -> string) (m : nat -> hotword_message)
    (l : list bytes) :
  resolved n w m (map EvSox l).
Proof. induction l; cbn [map]; now constructor. Qed.

Lemma resolved_calls_quiet (n : nat) (w : nat -> string)
    (m : nat -> hotword_message) (chunk : bytes) (rs : list Z) :
  forall i : nat,
    Forall (fun x => x <= 0) rs -> (i + List.length rs <= n)%nat ->
    resolved n w m (calls_of i chunk rs).
Proof.
  induction rs as [|r rs IH]; intros i Hall Hn; cbn [calls_of]; [constructor|].
  inversion Hall as [|? ? Hr Hrs]; subst. cbn [List.length] in Hn.
  apply resolved_quiet; [lia|exact Hr|]. apply IH; [exact Hrs|lia].
Qed.

Lemma resolved_calls_match (n : nat) (w : nat -> string)
    (m : nat -> hotword_message) (chunk : bytes) (r : Z) (rs0 : list Z) :
  forall i : nat,
    Forall (fun x => x <= 0) rs0 -> 0 < r -> (i + List.length rs0 < n)%nat ->
    resolved n w m
      (calls_of i chunk (rs0 ++ [r])
         ++ [EvYield (w (i + List.length rs0)%nat) (m (i + List.length rs0)%nat)]).
Proof.
  induction rs0 as [|x rs0 IH]; intros i Hall Hr Hn; cbn [calls_of app List.length] in *.
  - rewrite Nat.add_0_r in *. apply resolved_match; [exact Hn|exact Hr|constructor].
  - inversion Hall as [|? ? Hx Hrs]; subst.
    apply resolved_quiet; [lia|exact Hx|].
    replace (i + S (List.length rs0))%nat with (S i + List.length rs0)%nat by lia.
    apply IH; [exact Hrs|exact Hr|lia].
Qed.

Lemma drain_step_resolved (self self' : WakeHermesMqtt) (siteId : string)
    (tr : list event) :
  drain_step self siteId = Some (self', tr) ->
  resolved (List.length (detectors self)) (wakewordId_of self)
    (fun i => handle_detection self i siteId) tr.
Proof.
  intros H. apply drain_step_Some in H. cbv zeta in H.
  destruct H as (_ & _ & _ & _ & ->).
  set (chunk := slice_until (audio_buffer self) (chunk_size self)).
  set (ds := detectors self).
  pose proof (polled_results ds chunk) as Hres. cbv zeta in Hres.
  destruct (first_match ds chunk) as [k|] eqn:Hk.
  - destruct Hres as (rs0 & r & -> & Hl & Hall & Hpos). subst k.
    apply first_match_bound in Hk.
    apply (@resolved_calls_match (List.length ds) (wakewordId_of self)
             (fun i => handle_detection self i siteId) chunk r rs0 0%nat Hall Hpos).
    exact Hk.
  - destruct Hres as [Hall Hl]. rewrite app_nil_r.
    apply resolved_calls_quiet; [exact Hall|]. rewrite Hl. cbn. lia.
Qed.

Lemma drain_resolved (fuel : nat) :
  forall (self self' : WakeHermesMqtt) (siteId : string) (tr : list event),
    drain fuel self siteId = Some (self', tr) ->
    resolved (List.length (detectors self)) (wakewordId_of self)
      (fun i => handle_detection self i siteId) tr.
Proof.
  induction fuel as [|fuel IH]; intros self self' siteId tr H; [discriminate|].
  rewrite drain_S in H. destruct (drain_step self siteId) as [[s1 tr1]|] eqn:E1.
  - destruct (drain fuel s1 siteId) as [[s2 tr2]|] eqn:E2; [|discriminate].
    injection H as <- <-.
    pose proof (@drain_step_resolved _ _ _ _ E1) as H1.
    pose proof (IH _ _ _ _ E2) as H2.
    apply drain_step_Some in E1. cbv zeta in E1.
    destruct E1 as (_ & _ & _ & Hset & _).
    apply resolved_app; [exact H1|].
    assert (Hl : List.length (detectors s1) = List.length (detectors self))
      by (symmetry; apply Hset).
    rewrite Hl in H2. revert H2. apply resolved_ext.
    + intros i. symmetry. now apply wakewordId_of_settings.
    + intros i. symmetry. now apply handle_detection_settings.
  - injection H as <- <-. constructor.
Qed.

Lemma handle_audio_frame_resolved (fuel : nat) (self self' : WakeHermesMqtt)
    (wav_bytes : bytes) (siteId : string) (r : option exn) (tr : list event) :
  handle_audio_frame fuel self wav_bytes siteId = Some (r, self', tr) ->
  resolved (List.length (detectors self'))
    (fun i => nth i (wakeword_ids self) "default"%string)
    (fun i => handle_detection self' i siteId) tr.
Proof.
  unfold handle_audio_frame.
  destruct (ensure_detectors self) as [[e|] self1] eqn:He.
  { intros [= <- <- <-]. constructor. }
  pose proof (ensure_detectors_configuration _ He) as Hcfg.
  assert (Hids : wakeword_ids self1 = wakeword_ids self) by (symmetry; apply Hcfg).
  destruct (maybe_convert_wav self1 wav_bytes) as [[e|audio_data] tr0] eqn:Hw.
  { intros [= <- <- <-]. rewrite (maybe_convert_wav_trace _ _ Hw).
    apply resolved_soxes. }
  destruct (drain fuel _ siteId) as [[s3 tr3]|] eqn:Hd; [|discriminate].
  intros [= <- <- <-].
  pose proof (drain_settings _ _ _ Hd) as Hset.
  pose proof (@drain_resolved _ _ _ _ _ Hd) as Hres.
  rewrite (maybe_convert_wav_trace _ _ Hw).
  apply resolved_app; [apply resolved_soxes|].
  assert (Hl : List.length (detectors (set_audio_buffer (audio_buffer self1 ++ audio_data) self1))
               = List.length (detectors s3)) by apply Hset.
  rewrite Hl in Hres. revert Hres. apply resolved_ext.
  - intros i. rewrite wakewordId_of_nth. cbn [wakeword_ids set_audio_buffer].
    now rewrite Hids.
  - intros i. now apply handle_detection_settings.
Qed.

Lemma resolved_match_followed (n : nat) (w : nat -> string)
    (m : nat -> hotword_message) (tr : list event) :
  resolved n w m tr ->
  forall pre post i chunk r,
    tr = pre ++ EvRunDetection i chunk r :: post -> 0 < r ->
    (i < n)%nat /\ exists post', post = EvYield (w i) (m i) :: post'.
Proof.
  induction 1 as [|wav tr H IH|j ch x tr Hj Hx H IH|j ch x tr Hj Hx H IH];
    intros pre post i chunk r E Hr.
  - destruct pre; discriminate.
  - destruct pre as [|ev pre]; [discriminate|].
    injection E as _ E. eapply IH; eauto.
  - destruct pre as [|ev pre].
    + injection E as -> -> -> ->. lia.
    + injection E as _ E. eapply IH; eauto.
  - destruct pre as [|ev pre].
    + injection E as -> -> -> <-. split; [exact Hj|]. now exists tr.
    + injection E as _ E. destruct pre as [|ev' pre]; [discriminate|].
      injection E as _ E. eapply IH; eauto.
Qed.

Lemma resolved_yield_preceded (n : nat) (w : nat -> string)
    (m : nat -> hotword_message) (tr : list event) :
  resolved n w m tr ->
  forall pre post w0 m0,
    tr = pre ++ EvYield w0 m0 :: post ->
    exists pre' i chunk r, pre = pre' ++ [EvRunDetection i chunk r] /\ 0 < r.
Proof.
  induction 1 as [|wav tr H IH|j ch x tr Hj Hx H IH|j ch x tr Hj Hx H IH];
    intros pre post w0 m0 E.
  - destruct pre; discriminate.
  - destruct pre as [|ev pre]; [discriminate|].
    injection E as <- E. destruct (IH _ _ _ _ E) as (pre' & i & chunk & r & -> & Hr).
    now exists (EvSox wav :: pre'), i, chunk, r.
  - destruct pre as [|ev pre]; [discriminate|].
    injection E as <- E. destruct (IH _ _ _ _ E) as (pre' & i & chunk & r & -> & Hr).
    now exists (EvRunDetection j ch x :: pre'), i, chunk, r.
  - destruct pre as [|ev pre]; [discriminate|].
    injection E as <- E. destruct pre as [|ev' pre].
    + now exists [], j, ch, x.
    + injection E as <- E.
      destruct (IH _ _ _ _ E) as (pre' & i & chunk & r & -> & Hr).
      now exists (EvRunDetection j ch x :: EvYield (w j) (m j) :: pre'), i, chunk, r.
Qed.

Lemma handle_audio_frame_yield_index (fuel : nat) (self self' : WakeHermesMqtt)
    (wav_bytes : bytes) (siteId : string) (r : option exn) (tr : list event)
    (Hcall : handle_audio_frame fuel self wav_bytes siteId = Some (r, self', tr)) :
  forall w m, In (w, m) (yields tr) ->
    exists i : nat,
      (i < List.length (detectors self'))%nat /\
      ((i < List.length (wakeword_ids self))%nat ->
       nth_error (wakeword_ids self) i = Some w) /\
      ((List.length (wakeword_ids self) <= i)%nat -> w = "default"%string) /\
      (wakeword_ids self = [] -> w = "default"%string) /\
      m = handle_detection self' i siteId.
Proof.
  intros w m Hin. unfold handle_audio_frame in Hcall.
  destruct (ensure_detectors self) as [[e|] self1] eqn:He.
  - injection Hcall as _ _ <-. contradiction.
  - pose proof (ensure_detectors_configuration _ He) as Hcfg.
    assert (Hids : wakeword_ids self1 = wakeword_ids self) by (symmetry; apply Hcfg).
    destruct (maybe_convert_wav self1 wav_bytes) as [[e|audio_data] tr0] eqn:Hw.
    + injection Hcall as _ _ <-.
      rewrite (maybe_convert_wav_trace _ _ Hw), yields_sox in Hin. contradiction.
    + destruct (drain fuel _ siteId) as [[s3 tr3]|] eqn:Hd; [|discriminate].
      injection Hcall as _ <- <-.
      rewrite yields_app, (maybe_convert_wav_trace _ _ Hw), yields_sox in Hin.
      simpl in Hin.
      pose proof (drain_settings _ _ _ Hd) as Hset.
      destruct (drain_yields _ _ _ Hd _ _ Hin) as (i & Hi & -> & ->).
      exists i. rewrite wakewordId_of_nth.
      cbn [wakeword_ids detectors set_audio_buffer] in *. rewrite Hids.
      split; [|split; [|split; [|split]]].
      * destruct Hset as (_ & _ & _ & _ & _ & _ & _ & _ & _ & _ & _ & Hl).
        cbn in Hl. lia.
      * intros Hlt. now apply nth_error_nth'.
      * intros Hge. now apply nth_overflow.
      * intros ->. now destruct i.
      * now apply handle_detection_settings.
Qed.


(** C8, as amended.  The wake word id of a detection is bound by position
    to the list of wake word ids and to nothing else.  Wherever in a call of
    [handle_audio_frame] the detector at position [i] reports a detection,
    the next thing that happens is the yield of that detection,
    [handle_detection(i)], with [wakeword_ids[i]] when the list has a
    position [i] and with ["default"] otherwise; with an empty list every
    detection, that of the first detector included, is yielded with
    ["default"].  Nothing else is yielded: every yield directly follows a
    call that reported a detection. *)
Theorem wakewordId_by_position (fuel : nat) (self self' : WakeHermesMqtt)
    (wav_bytes : bytes) (siteId : string) (r : option exn) (tr : list event)
    (Hcall : handle_audio_frame fuel self wav_bytes siteId = Some (r, self', tr)) :
  (forall pre post i chunk result_index,
      tr = pre ++ EvRunDetection i chunk result_index :: post ->
      0 < result_index ->
      (i < List.length (detectors self'))%nat /\
      exists w post',
        post = EvYield w (handle_detection self' i siteId) :: post' /\
        ((i < List.length (wakeword_ids self))%nat ->
         nth_error (wakeword_ids self) i = Some w) /\
        ((List.length (wakeword_ids self) <= i)%nat -> w = "default"%string) /\
        (wakeword_ids self = [] -> w = "default"%string)) /\
  (forall pre post w m,
      tr = pre ++ EvYield w m :: post ->
      exists pre' i chunk result_index,
        pre = pre' ++ [EvRunDetection i chunk result_index] /\ 0 < result_index) /\
  (forall w m, In (w, m) (yields tr) ->
    exists i : nat,
      (i < List.length (detectors self'))%nat /\
      ((i < List.length (wakeword_ids self))%nat ->
       nth_error (wakeword_ids self) i = Some w) /\
      ((List.length (wakeword_ids self) <= i)%nat -> w = "default"%string) /\
      (wakeword_ids self = [] -> w = "default"%string) /\
      m = handle_detection self' i siteId).
Proof.
  pose proof (@handle_audio_frame_resolved _ _ _ _ _ _ _ Hcall) as Hres.
  split; [|split].
  - intros pre post i chunk result_index E Hpos.
    destruct (@resolved_match_followed _ _ _ _ Hres _ _ _ _ _ E Hpos)
      as (Hi & post' & ->).
    split; [exact Hi|].
    exists (nth i (wakeword_ids self) "default"%string), post'.
    split; [reflexivity|]. split; [|split].
    + intros Hlt. now apply nth_error_nth'.
    + intros Hge. now apply nth_overflow.
    + intros ->. now destruct i.
  - intros pre post w m E.
    exact (@resolved_yield_preceded _ _ _ _ Hres _ _ _ _ E).
  - exact (@handle_audio_frame_yield_index fuel self self' wav_bytes siteId r tr Hcall).
Qed.

(** C9.  When the header of the WAV input already has the required sample
    rate, sample width and number of channels, [maybe_convert_wav] returns
    the frames of the input as they are and does not run [sox]; hence audio
    that came out of the normalizer, wrapped again as a WAV file in the
    required format, comes out of it again byte for byte. *)
Theorem maybe_convert_wav_passthrough (self : WakeHermesMqtt) (wav_bytes : bytes)
    (wav_file : Wave_read)
    (Hopen : wave_open wav_bytes = Some wav_file)
    (Hrate : getframerate wav_file = sample_rate self)
    (Hwidth : getsampwidth wav_file = sample_width self)
    (Hchannels : getnchannels wav_file = channels self) :
  maybe_convert_wav self wav_bytes
    = (inr (readframes wav_file (getnframes wav_file)), []) /\
  (forall wav0 pcm tr wav',
      maybe_convert_wav self wav0 = (inr pcm, tr) ->
      wraps self pcm wav' ->
      maybe_convert_wav self wav' = (inr pcm, [])).
Proof.
  split.
  - apply maybe_convert_wav_wraps. exists wav_file. auto.
  - intros wav0 pcm tr wav' _ Hwraps. now apply maybe_convert_wav_wraps.
Qed.

(** C10.  The chunk-draining loop of [handle_audio_frame] comes to an end
    exactly when [chunk_size] is at least 1: then every iteration makes
    [audio_buffer] shorter by [chunk_size] bytes; with [chunk_size = 0] the
    loop condition holds, an iteration leaves the buffer as it is, and a call
    that reaches the loop never returns, whatever fuel it is given. *)
Theorem drain_terminates_iff (self : WakeHermesMqtt) (siteId : string) :
  ((exists fuel r, drain fuel self siteId = Some r) <-> 1 <= chunk_size self) /\
  (forall self' tr,
      1 <= chunk_size self ->
      drain_step self siteId = Some (self', tr) ->
      py_len (audio_buffer self') = py_len (audio_buffer self) - chunk_size self) /\
  (chunk_size self = 0 ->
   exists self' tr,
     drain_step self siteId = Some (self', tr) /\
     audio_buffer self' = audio_buffer self) /\
  (chunk_size self = 0 ->
   forall fuel wav_bytes self1 audio_data tr0,
     ensure_detectors self = (None, self1) ->
     maybe_convert_wav self1 wav_bytes = (inr audio_data, tr0) ->
     handle_audio_frame fuel self wav_bytes siteId = None).
Proof.
  split; [split|split; [|split]].
  - intros (fuel & r & E).
    destruct (Z.le_gt_cases 1 (chunk_size self)) as [H|H]; [exact H|].
    rewrite drain_diverges in E by lia. discriminate.
  - intros Hc.
    destruct (@drain_terminates
                (S (Z.to_nat (py_len (audio_buffer self) / chunk_size self)))
                self siteId Hc) as (self' & tr & E).
    + assert (0 <= py_len (audio_buffer self) / chunk_size self)
        by (apply Z.div_pos; unfold py_len; lia).
      lia.
    + eauto.
  - intros self' tr Hc H. apply drain_step_Some in H.
    destruct H as (Hle & -> & _). apply slice_from_length. lia.
  - intros Hc. destruct (drain_step self siteId) as [[self' tr]|] eqn:E.
    + exists self', tr. split; [reflexivity|].
      apply drain_step_Some in E. destruct E as (_ & -> & _).
      rewrite Hc. reflexivity.
    + apply drain_step_None in E. unfold py_len in E. lia.
  - intros Hc fuel wav_bytes self1 audio_data tr0 He Hw.
    unfold handle_audio_frame. rewrite He, Hw.
    rewrite drain_diverges; [reflexivity|].
    cbn [chunk_size set_audio_buffer].
    pose proof (ensure_detectors_configuration _ He) as Hcfg.
    assert (Hcs : chunk_size self1 = chunk_size self) by (symmetry; apply Hcfg).
    lia.
Qed.

(** * Further properties *)

(** ** Loading *)

Lemma load_detectors_loop_spec (ms : list SnowboyModel) :
  forall (self self' : WakeHermesMqtt) (r : option exn),
    load_detectors_loop ms self = (r, self') ->
    match r with
    | None =>
        forallb (fun m => is_file (model_path m)) ms = true /\
        detectors self' = detectors self ++ map new_detector ms
    | Some e =>
        exists pre m post,
          ms = pre ++ m :: post /\
          forallb (fun m => is_file (model_path m)) pre = true /\
          is_file (model_path m) = false /\
          e = AssertionError ("Missing " ++ model_path m) /\
          detectors self' = detectors self ++ map new_detector pre
    end.
Proof.
  induction ms as [|m ms IH]; intros self self' r H; simpl in H.
  - injection H as <- <-. simpl. now rewrite app_nil_r.
  - destruct (is_file (model_path m)) eqn:Hm.
    + apply IH in H. cbn [detectors set_detectors set_model_ids] in H.
      destruct r as [e|].
      * destruct H as (pre & m' & post & -> & Hpre & Hm' & -> & Hd).
        exists (m :: pre), m', post. simpl. rewrite Hm, Hpre.
        repeat (split; [reflexivity || assumption|]).
        rewrite Hd, <- app_assoc. reflexivity.
      * destruct H as [Hall Hd]. simpl. rewrite Hm, Hall.
        split; [reflexivity|]. rewrite Hd, <- app_assoc. reflexivity.
    + injection H as <- <-. exists [], m, ms. simpl. rewrite app_nil_r. auto.
Qed.

Lemma load_detectors_loop_ok (ms : list SnowboyModel) (self : WakeHermesMqtt) :
  forallb (fun m => is_file (model_path m)) ms = true ->
  fst (load_detectors_loop ms self) = None.
Proof.
  intros Hall. destruct (load_detectors_loop ms self) as [[e|] self'] eqn:E; [|reflexivity].
  apply load_detectors_loop_spec in E.
  destruct E as (pre & m & post & -> & _ & Hm & _).
  rewrite forallb_app in Hall. simpl in Hall. rewrite Hm in Hall.
  rewrite andb_false_r in Hall. discriminate.
Qed.

Lemma load_detectors_loop_missing (pre post : list SnowboyModel) (m : SnowboyModel) :
  forall self : WakeHermesMqtt,
    forallb (fun m => is_file (model_path m)) pre = true ->
    is_file (model_path m) = false ->
    exists self',
      load_detectors_loop (pre ++ m :: post) self
        = (Some (AssertionError ("Missing " ++ model_path m)), self') /\
      detectors self' = detectors self ++ map new_detector pre.
Proof.
  induction pre as [|m0 pre IH]; intros self Hpre Hm; simpl.
  - rewrite Hm. exists self. now rewrite app_nil_r.
  - simpl in Hpre. apply andb_prop in Hpre. destruct Hpre as [Hm0 Hpre].
    rewrite Hm0.
    destruct (IH (set_model_ids (ids_str (stem (model_path m0)))
                    (set_detectors
                       (detectors self
                        ++ [ApplyFrontend (apply_frontend m0)
                              (SetAudioGain (audio_gain m0)
                                 (SetSensitivity (sensitivity m0)
                                    (SnowboyDetect (model_path m0))))]) self))
                Hpre Hm) as (self' & E & Hd).
    exists self'. split; [exact E|].
    rewrite Hd. cbn [detectors set_detectors set_model_ids].
    now rewrite <- app_assoc.
Qed.

(** X1.  When the file of every model exists, [load_detectors] returns
    without raising, with one detector per model, in the order of the
    models, each made from the model's path and given its sensitivity, audio
    gain and frontend setting; nothing else of the object changes but
    [model_ids]. *)
Theorem load_detectors_every_file
    (self : WakeHermesMqtt)
    (Hfiles : forallb (fun m => is_file (model_path m)) (models self) = true) :
  exists self',
    load_detectors self = (None, self') /\
    detectors self' = map new_detector (models self) /\
    same_configuration self self'.
Proof.
  destruct (load_detectors self) as [r self'] eqn:E. exists self'.
  assert (Hr : r = None).
  { unfold load_detectors in E. cbn [models set_detectors set_model_ids] in E.
    pose proof (@load_detectors_loop_ok (models self)
                  (set_detectors [] (set_model_ids (ids_list []) self)) Hfiles) as H.
    rewrite E in H. exact H. }
  subst r. split; [reflexivity|].
  unfold load_detectors in E. split.
  - apply load_detectors_loop_spec in E. destruct E as [_ Hd]. exact Hd.
  - apply load_detectors_loop_configuration in E.
    unfold same_configuration in *. cbn in E. exact E.
Qed.

(** X2.  When the file of a model is missing and those of the models before
    it exist, a call of [handle_audio_frame] on an object without detectors
    raises the assertion error that names the missing file, before it looks
    at the audio: nothing is converted or buffered.  The detectors of the
    models before the missing one stay in the object; when there is one, the
    next call does not load again. *)
Theorem handle_audio_frame_missing_model
    (self : WakeHermesMqtt) (pre post : list SnowboyModel) (m : SnowboyModel)
    (Hmodels : models self = pre ++ m :: post)
    (Hunloaded : detectors self = [])
    (Hpre : forallb (fun m => is_file (model_path m)) pre = true)
    (Hmissing : is_file (model_path m) = false) :
  exists self1,
    (forall fuel wav_bytes siteId,
        handle_audio_frame fuel self wav_bytes siteId
          = Some (Some (AssertionError ("Missing " ++ model_path m)), self1, [])) /\
    audio_buffer self1 = audio_buffer self /\
    models self1 = models self /\
    detectors self1 = map new_detector pre /\
    (pre <> [] -> ensure_detectors self1 = (None, self1)).
Proof.
  destruct (@load_detectors_loop_missing pre post m
              (set_detectors [] (set_model_ids (ids_list []) self)) Hpre Hmissing)
    as (self1 & E & Hd).
  assert (Hload : load_detectors self
                  = (Some (AssertionError ("Missing " ++ model_path m)), self1)).
  { unfold load_detectors. cbn [models set_detectors set_model_ids].
    rewrite Hmodels. exact E. }
  pose proof E as Hcfg. apply load_detectors_loop_configuration in Hcfg.
  exists self1. split; [|split; [|split; [|split]]].
  - intros fuel wav_bytes siteId. unfold handle_audio_frame, ensure_detectors.
    now rewrite Hunloaded, Hload.
  - symmetry. apply Hcfg.
  - symmetry. apply Hcfg.
  - exact Hd.
  - intros Hne. unfold ensure_detectors. rewrite Hd.
    destruct pre; [congruence|reflexivity].
Qed.

(** X3.  What [load_detectors] returns does not depend on the detectors and
    model ids the object has: it starts from empty lists.  Loading a second
    time, also after the detectors have been fed audio, gives what the first
    load gave. *)
Theorem load_detectors_afresh (a b : WakeHermesMqtt)
    (Hsame : same_configuration a b) :
  load_detectors a = load_detectors b.
Proof.
  destruct Hsame as (H1 & H2 & H3 & H4 & H5 & H6 & H7 & H8 & H9 & H10 & H11).
  unfold load_detectors, set_detectors, set_model_ids. cbn.
  now rewrite H1, H2, H3, H4, H5, H6, H7, H8, H9, H10, H11.
Qed.

(** ** More on the loop *)

(** What the loop leaves in the buffer is the end of what it found there,
    after a whole number of chunks. *)
Lemma drain_suffix (fuel : nat) :
  forall (self self' : WakeHermesMqtt) (siteId : string) (tr : list event),
    1 <= chunk_size self ->
    drain fuel self siteId = Some (self', tr) ->
    py_len (audio_buffer self') < chunk_size self /\
    exists (dropped : bytes) (n : Z),
      audio_buffer self = dropped ++ audio_buffer self' /\
      0 <= n /\ py_len dropped = chunk_size self * n.
Proof.
  induction fuel as [|fuel IH]; intros self self' siteId tr Hc H; [discriminate|].
  rewrite drain_S in H. destruct (drain_step self siteId) as [[s1 tr1]|] eqn:E1.
  - destruct (drain fuel s1 siteId) as [[s2 tr2]|] eqn:E2; [|discriminate].
    injection H as <- <-. apply drain_step_Some in E1.
    destruct E1 as (Hle & Hbuf & _ & Hset & _).
    assert (Hc1 : chunk_size s1 = chunk_size self) by (symmetry; apply Hset).
    assert (Hc1' : 1 <= chunk_size s1) by lia.
    destruct (IH _ _ _ _ Hc1' E2) as (Hrem & dropped & n & Hd & Hn & Hl).
    split; [lia|].
    exists (slice_until (audio_buffer self) (chunk_size self) ++ dropped), (n + 1).
    split; [|split; [lia|]].
    + rewrite <- app_assoc, <- Hd, Hbuf. symmetry. apply slice_split. lia.
    + unfold py_len in *. rewrite length_app.
      pose proof (@slice_until_length (audio_buffer self) (chunk_size self)) as Hs.
      unfold py_len in Hs. lia.
  - injection H as <- <-. apply drain_step_None in E1. split; [exact E1|].
    exists [], 0. simpl. unfold py_len. simpl. split; [reflexivity|lia].
Qed.

Lemma drain_fuel_le (fuel fuel' : nat) (self : WakeHermesMqtt) (siteId : string) r :
  (fuel <= fuel')%nat ->
  drain fuel self siteId = Some r -> drain fuel' self siteId = Some r.
Proof.
  induction 1 as [|fuel' _ IH]; [auto|].
  intros H. apply drain_fuel. auto.
Qed.

(** Without detectors the loop calls nothing and yields nothing. *)
Lemma drain_no_detectors (fuel : nat) :
  forall (self self' : WakeHermesMqtt) (siteId : string) (tr : list event),
    detectors self = [] ->
    drain fuel self siteId = Some (self', tr) ->
    tr = [] /\ detectors self' = [].
Proof.
  induction fuel as [|fuel IH]; intros self self' siteId tr Hd H; [discriminate|].
  rewrite drain_S in H. destruct (drain_step self siteId) as [[s1 tr1]|] eqn:E1.
  - destruct (drain fuel s1 siteId) as [[s2 tr2]|] eqn:E2; [|discriminate].
    injection H as <- <-. apply drain_step_Some in E1.
    destruct E1 as (_ & _ & Hds & _ & Htr). rewrite Hd in Hds, Htr.
    simpl in Hds, Htr. subst tr1.
    destruct (IH _ _ _ _ Hds E2) as [-> Hd2]. auto.
  - injection H as <- <-. auto.
Qed.

(** The first chunk of a buffer does not depend on what comes after it. *)
Lemma drain_step_app (self self' : WakeHermesMqtt) (siteId : string)
    (tr : list event) (extra : bytes) :
  1 <= chunk_size self ->
  drain_step self siteId = Some (self', tr) ->
  drain_step (set_audio_buffer (audio_buffer self ++ extra) self) siteId
    = Some (set_audio_buffer (audio_buffer self' ++ extra) self', tr).
Proof.
  intros Hc H. unfold drain_step in *.
  cbn [audio_buffer chunk_size detectors set_audio_buffer] in *.
  destruct (Z.leb_spec (chunk_size self) (py_len (audio_buffer self))) as [Hle|Hle];
    [|discriminate].
  assert (Hle' : chunk_size self <= py_len (audio_buffer self ++ extra)).
  { unfold py_len in *. rewrite length_app. lia. }
  destruct (Z.leb_spec (chunk_size self) (py_len (audio_buffer self ++ extra)));
    [|lia].
  assert (Hu : slice_until (audio_buffer self ++ extra) (chunk_size self)
               = slice_until (audio_buffer self) (chunk_size self)).
  { unfold slice_until. destruct (Z.leb_spec 0 (chunk_size self)); [|lia].
    rewrite firstn_app.
    replace (Z.to_nat (chunk_size self) - List.length (audio_buffer self))%nat
      with O by (unfold py_len in *; lia).
    simpl. apply app_nil_r. }
  assert (Hf : slice_from (audio_buffer self ++ extra) (chunk_size self)
               = slice_from (audio_buffer self) (chunk_size self) ++ extra).
  { unfold slice_from. destruct (Z.leb_spec 0 (chunk_size self)); [|lia].
    rewrite skipn_app.
    replace (Z.to_nat (chunk_size self) - List.length (audio_buffer self))%nat
      with O by (unfold py_len in *; lia).
    reflexivity. }
  rewrite Hu, Hf.
  destruct (detector_loop 0 (detectors self) _) as [[ds calls] [k|]];
    injection H as <- <-; reflexivity.
Qed.

(** Audio that arrives in two pieces goes through the loop as it would in
    one piece. *)
Lemma drain_app (fuel1 : nat) :
  forall (self s1 s2 : WakeHermesMqtt) (siteId : string) (tr1 tr2 : list event)
         (extra : bytes) (fuel2 : nat),
    1 <= chunk_size self ->
    drain fuel1 self siteId = Some (s1, tr1) ->
    drain fuel2 (set_audio_buffer (audio_buffer s1 ++ extra) s1) siteId
      = Some (s2, tr2) ->
    drain (fuel1 + fuel2) (set_audio_buffer (audio_buffer self ++ extra) self) siteId
      = Some (s2, tr1 ++ tr2).
Proof.
  induction fuel1 as [|fuel1 IH];
    intros self s1 s2 siteId tr1 tr2 extra fuel2 Hc H1 H2; [discriminate|].
  rewrite drain_S in H1. destruct (drain_step self siteId) as [[sa tra]|] eqn:Ea.
  - destruct (drain fuel1 sa siteId) as [[sb trb]|] eqn:Eb; [|discriminate].
    injection H1 as <- <-.
    pose proof (@drain_step_app self sa siteId tra extra Hc Ea) as Ea'.
    apply drain_step_Some in Ea. destruct Ea as (_ & _ & _ & Hset & _).
    assert (Hca : chunk_size sa = chunk_size self) by (symmetry; apply Hset).
    cbn [Nat.add]. rewrite drain_S, Ea'.
    assert (Hca' : 1 <= chunk_size sa) by lia.
    rewrite (IH sa sb s2 siteId trb tr2 extra fuel2 Hca' Eb H2).
    now rewrite app_assoc.
  - injection H1 as <- <-. simpl app.
    eapply drain_fuel_le; [|exact H2]. lia.
Qed.

Lemma ensure_detectors_loaded (self : WakeHermesMqtt) :
  detectors self <> [] -> ensure_detectors self = (None, self).
Proof.
  unfold ensure_detectors. destruct (detectors self); [congruence|reflexivity].
Qed.

(** X4.  With no models there are no detectors: a call of
    [handle_audio_frame] still takes the audio into the buffer and removes
    every whole chunk from it, but calls no detector and yields nothing.  The
    audio is gone: what stays in the buffer is the last [L % c] bytes. *)
Theorem handle_audio_frame_no_models
    (fuel : nat) (self : WakeHermesMqtt) (wav_bytes audio_data : bytes)
    (siteId : string) (tr0 : list event)
    (Hmodels : models self = [])
    (Hunloaded : detectors self = [])
    (Hchunk : 1 <= chunk_size self)
    (Hwav : maybe_convert_wav self wav_bytes = (inr audio_data, tr0))
    (Hfuel : py_len (audio_buffer self ++ audio_data) / chunk_size self < Z.of_nat fuel) :
  exists self',
    handle_audio_frame fuel self wav_bytes siteId = Some (None, self', tr0) /\
    invoked tr0 = [] /\ yields tr0 = [] /\
    detectors self' = [] /\
    py_len (audio_buffer self')
      = py_len (audio_buffer self ++ audio_data) mod chunk_size self /\
    exists dropped, audio_buffer self ++ audio_data = dropped ++ audio_buffer self'.
Proof.
  set (s1 := set_detectors [] (set_model_ids (ids_list []) self)).
  assert (He : ensure_detectors self = (None, s1)).
  { unfold ensure_detectors, load_detectors. rewrite Hunloaded.
    cbn [models set_detectors set_model_ids]. now rewrite Hmodels. }
  assert (Hw : maybe_convert_wav s1 wav_bytes = (inr audio_data, tr0)).
  { rewrite <- Hwav. now apply maybe_convert_wav_format. }
  set (s2 := set_audio_buffer (audio_buffer s1 ++ audio_data) s1).
  destruct (@drain_terminates fuel s2 siteId Hchunk Hfuel) as (self' & tr & E).
  destruct (@drain_no_detectors fuel s2 self' siteId tr eq_refl E) as [-> Hd].
  destruct (@drain_suffix fuel s2 self' siteId [] Hchunk E)
    as (Hrem & dropped & n & Hcat & Hn & Hlen).
  cbn [s2 s1 audio_buffer chunk_size set_audio_buffer set_detectors set_model_ids]
    in Hrem, Hcat, Hlen.
  exists self'. unfold handle_audio_frame. rewrite He, Hw. fold s2. rewrite E.
  rewrite app_nil_r, (maybe_convert_wav_trace _ _ Hwav), invoked_sox, yields_sox.
  repeat (split; [reflexivity || assumption|]).
  split; [|exists dropped; exact Hcat].
  eapply Z.mod_unique with (q := n).
  - left. unfold py_len in *. lia.
  - rewrite Hcat. unfold py_len in *. rewrite length_app. lia.
Qed.

(** X5.  Where a frame ends makes no difference to the detectors: when two
    calls of [handle_audio_frame] take the audio [a1] and then the audio
    [a2], the detector calls and the results yielded, one call after the
    other, are those of a single call that takes [a1 ++ a2], and the object
    is the same afterwards. *)
Theorem handle_audio_frame_two_frames
    (fuel1 fuel2 : nat) (self s1 s2 : WakeHermesMqtt)
    (wav1 wav2 wav12 a1 a2 : bytes) (siteId : string)
    (t1 t2 t12 tr1 tr2 : list event) (r1 r2 : option exn)
    (Hchunk : 1 <= chunk_size self)
    (Hdetectors : detectors self <> [])
    (Hwav1 : maybe_convert_wav self wav1 = (inr a1, t1))
    (Hwav2 : maybe_convert_wav self wav2 = (inr a2, t2))
    (Hwav12 : maybe_convert_wav self wav12 = (inr (a1 ++ a2), t12))
    (Hfirst : handle_audio_frame fuel1 self wav1 siteId = Some (r1, s1, tr1))
    (Hsecond : handle_audio_frame fuel2 s1 wav2 siteId = Some (r2, s2, tr2)) :
  exists d1 d2,
    tr1 = t1 ++ d1 /\ tr2 = t2 ++ d2 /\
    handle_audio_frame (fuel1 + fuel2) self wav12 siteId
      = Some (None, s2, t12 ++ d1 ++ d2).
Proof.
  pose proof (@ensure_detectors_loaded self Hdetectors) as He.
  unfold handle_audio_frame in Hfirst. rewrite He, Hwav1 in Hfirst.
  destruct (drain fuel1 _ siteId) as [[sa d1]|] eqn:E1; [|discriminate].
  injection Hfirst as <- <- <-.
  pose proof (drain_settings _ _ _ E1) as Hset.
  assert (Hd1 : detectors sa <> []).
  { intros E. destruct Hset as (_ & _ & _ & _ & _ & _ & _ & _ & _ & _ & _ & Hl).
    rewrite E in Hl. cbn in Hl. destruct (detectors self); [congruence|discriminate]. }
  assert (Hw2 : maybe_convert_wav sa wav2 = (inr a2, t2)).
  { rewrite <- Hwav2. symmetry.
    destruct Hset as (_ & _ & _ & _ & Hr & Hw & Hc & _).
    now apply maybe_convert_wav_format. }
  unfold handle_audio_frame in Hsecond.
  rewrite (@ensure_detectors_loaded sa Hd1), Hw2 in Hsecond.
  destruct (drain fuel2 _ siteId) as [[sb d2]|] eqn:E2; [|discriminate].
  injection Hsecond as <- <- <-.
  exists d1, d2. split; [reflexivity|]. split; [reflexivity|].
  unfold handle_audio_frame. rewrite He, Hwav12.
  pose proof (@drain_app fuel1 (set_audio_buffer (audio_buffer self ++ a1) self)
                sa sb siteId d1 d2 a2 fuel2 Hchunk E1 E2) as E.
  unfold set_audio_buffer in E at 1. cbn [audio_buffer set_audio_buffer models
    wakeword_ids siteIds enabled sample_rate sample_width channels chunk_size
    audioframe_topics first_audio detectors model_ids] in E.
  rewrite <- app_assoc in E. unfold set_audio_buffer at 1. rewrite E.
  reflexivity.
Qed.

(** ** More on messages *)

Lemma maybe_convert_wav_error (self : WakeHermesMqtt) (wav : bytes) (e : exn)
    (tr : list event) :
  maybe_convert_wav self wav = (inl e, tr) ->
  (e = WaveError /\ tr = [] /\ wave_open wav = None) \/
  (e = CalledProcessError /\ tr = [EvSox wav] /\
   sox (sample_rate self) (sample_width self * 8) (channels self) wav = None).
Proof.
  unfold maybe_convert_wav, _convert_wav.
  destruct (wave_open wav) as [f|]; [|intros [= <- <-]; auto].
  destruct (_ || _); [|discriminate].
  destruct (sox _ _ _ _) eqn:E; [discriminate|].
  intros [= <- <-]. auto.
Qed.

Lemma publish_result_sox (l : list bytes) :
  flat_map publish_result (map EvSox l) = map EvSox l.
Proof. induction l as [|x l IH]; simpl; [reflexivity|]. now rewrite IH. Qed.

Lemma published_sox (l : list bytes) : published (map EvSox l) = [].
Proof. induction l; simpl; auto. Qed.

Lemma on_message_toggle (fuel : nat) (self : WakeHermesMqtt) (msg : mqtt_message)
    (on : bool) (json_payload : json) (accepted : bool) :
  msg_topic msg = toggle_topic on ->
  loads_payload (msg_payload msg) = Some json_payload ->
  _check_siteId self json_payload = inr accepted ->
  on_message fuel self msg
    = Some (if accepted then toggled on self else self, []).
Proof.
  intros Ht Hj Hs. unfold on_message, handle_toggle, toggled.
  rewrite Ht. destruct on; cbn [toggle_topic]; rewrite Hj, Hs;
    destruct accepted; cbn [enabled set_enabled set_first_audio negb];
    try reflexivity; now destruct (enabled self).
Qed.

Lemma on_message_toggle_raises (fuel : nat) (self : WakeHermesMqtt)
    (msg : mqtt_message) (on : bool) :
  msg_topic msg = toggle_topic on ->
  (loads_payload (msg_payload msg) = None \/
   exists j e, loads_payload (msg_payload msg) = Some j /\
               _check_siteId self j = inl e) ->
  on_message fuel self msg = Some (self, []).
Proof.
  intros Ht H. unfold on_message, handle_toggle. rewrite Ht.
  destruct on; cbn [toggle_topic];
    destruct H as [->|(j & e & -> & ->)]; reflexivity.
Qed.

Lemma existsb_eqb_In (site : string) (l : list string) :
  existsb (String.eqb site) l = true <-> In site l.
Proof.
  rewrite existsb_exists. split.
  - intros (x & Hx & E). apply String.eqb_eq in E. now subst.
  - intros H. exists site. split; [exact H|apply String.eqb_refl].
Qed.

(** X6.  An audio frame that the service accepts but cannot read, or cannot
    convert, is dropped whole: [on_message] returns whatever fuel it has,
    the audio buffer and the detectors are as they were, no detector is
    called and nothing is published; the service stays enabled.  The error
    is that of the [wave] reader, before [sox] is run, or that of the one
    [sox] run on the payload. *)
Theorem on_message_unreadable_audio
    (self : WakeHermesMqtt) (msg : mqtt_message) (e : exn) (tr0 : list event)
    (Henabled : enabled self = true)
    (Htopic : AudioFrame_is_topic (msg_topic msg) = true)
    (Hlistens : listens_to self (msg_topic msg) = true)
    (Hdetectors : detectors self <> [])
    (Hbad : maybe_convert_wav self (msg_payload msg) = (inl e, tr0)) :
  exists self',
    (forall fuel, on_message fuel self msg = Some (self', tr0)) /\
    audio_buffer self' = audio_buffer self /\
    detectors self' = detectors self /\
    enabled self' = true /\
    first_audio self' = false /\
    invoked tr0 = [] /\ published tr0 = [] /\
    ((e = WaveError /\ tr0 = []) \/
     (e = CalledProcessError /\ tr0 = [EvSox (msg_payload msg)])).
Proof.
  set (s1 := if first_audio self then set_first_audio false self else self).
  assert (Hs1 : audio_buffer s1 = audio_buffer self /\
                detectors s1 = detectors self /\
                enabled s1 = enabled self /\ first_audio s1 = false /\
                sample_rate s1 = sample_rate self /\
                sample_width s1 = sample_width self /\
                channels s1 = channels self).
  { unfold s1. destruct (first_audio self) eqn:Hf; cbn; auto 10. }
  destruct Hs1 as (Hb & Hd & He & Hf & Hr & Hw & Hc).
  assert (Hbad1 : maybe_convert_wav s1 (msg_payload msg) = (inl e, tr0)).
  { rewrite <- Hbad. now apply maybe_convert_wav_format. }
  exists s1. split.
  - intros fuel. rewrite on_message_audio by assumption. fold s1.
    unfold handle_audio_frame.
    rewrite ensure_detectors_loaded by (now rewrite Hd). rewrite Hbad1.
    rewrite (maybe_convert_wav_trace _ _ Hbad), publish_result_sox. reflexivity.
  - rewrite (maybe_convert_wav_trace _ _ Hbad), invoked_sox, published_sox.
    rewrite <- (maybe_convert_wav_trace _ _ Hbad).
    repeat (split; [congruence || reflexivity|]).
    apply maybe_convert_wav_error in Hbad. tauto.
Qed.

(** X7.  A toggle message whose payload is a JSON object is accepted for the
    site id it names, or for ["default"] when it names none, when no site
    ids are configured or that site id is one of them: it enables the
    service and sets [first_audio], or disables it.  For any other site id
    the message changes nothing. *)
Theorem toggle_site_scope
    (fuel : nat) (self : WakeHermesMqtt) (msg : mqtt_message) (on : bool)
    (d : list (string * json)) (site : string)
    (Htopic : msg_topic msg = toggle_topic on)
    (Hjson : loads_payload (msg_payload msg) = Some (JDict d))
    (Hsite : dict_get d "siteId" (JStr "default") = JStr site) :
  (siteIds self = [] \/ In site (siteIds self) ->
   on_message fuel self msg = Some (toggled on self, [])) /\
  (siteIds self <> [] -> ~ In site (siteIds self) ->
   on_message fuel self msg = Some (self, [])).
Proof.
  split.
  - intros Hin.
    rewrite (@on_message_toggle fuel self msg on (JDict d) true); auto.
    unfold _check_siteId. destruct (siteIds self) as [|x l] eqn:E; [reflexivity|].
    rewrite Hsite. cbn [json_in].
    destruct Hin as [Hin|Hin]; [discriminate|].
    apply existsb_eqb_In in Hin. now rewrite Hin.
  - intros Hne Hout.
    rewrite (@on_message_toggle fuel self msg on (JDict d) false); auto.
    unfold _check_siteId. destruct (siteIds self) as [|x l] eqn:E; [congruence|].
    rewrite Hsite. cbn [json_in].
    destruct (existsb (String.eqb site) (x :: l)) eqn:Hex; [|reflexivity].
    apply existsb_eqb_In in Hex. contradiction.
Qed.

(** X8.  A toggle message whose payload is not JSON changes nothing.  When
    site ids are configured, neither does one whose payload is JSON but not
    an object, or an object whose [siteId] is not a string.  When no site
    ids are configured the payload is not looked at beyond being JSON: any
    JSON value toggles the service. *)
Theorem toggle_malformed
    (fuel : nat) (self : WakeHermesMqtt) (msg : mqtt_message) (on : bool)
    (Htopic : msg_topic msg = toggle_topic on) :
  (loads_payload (msg_payload msg) = None ->
   on_message fuel self msg = Some (self, [])) /\
  (forall j,
      loads_payload (msg_payload msg) = Some j ->
      siteIds self <> [] ->
      (forall d, j <> JDict d) ->
      on_message fuel self msg = Some (self, [])) /\
  (forall d,
      loads_payload (msg_payload msg) = Some (JDict d) ->
      siteIds self <> [] ->
      (forall site, dict_get d "siteId" (JStr "default") <> JStr site) ->
      on_message fuel self msg = Some (self, [])) /\
  (forall j,
      loads_payload (msg_payload msg) = Some j ->
      siteIds self = [] ->
      on_message fuel self msg = Some (toggled on self, [])).
Proof.
  split; [|split; [|split]].
  - intros Hj. eapply on_message_toggle_raises; eauto.
  - intros j Hj Hne Hnd. eapply on_message_toggle_raises; eauto.
    right. exists j. unfold _check_siteId.
    destruct (siteIds self); [congruence|].
    destruct j; try (eexists; split; [exact Hj|reflexivity]).
    exfalso. eapply Hnd. reflexivity.
  - intros d Hj Hne Hns.
    rewrite (@on_message_toggle fuel self msg on (JDict d) false); auto.
    unfold _check_siteId. destruct (siteIds self); [congruence|].
    destruct (dict_get d "siteId" (JStr "default")) eqn:E; try reflexivity.
    exfalso. eapply Hns. reflexivity.
  - intros j Hj He.
    rewrite (@on_message_toggle fuel self msg on j true); auto.
    unfold _check_siteId. now rewrite He.
Qed.

(** X9.  Disabling and enabling again gives the object back as it was, but
    for [first_audio], which is set: the audio buffer, the detectors and
    their state are untouched.  A second toggle-off changes nothing. *)
Theorem toggle_off_on
    (fuel : nat) (self : WakeHermesMqtt) (off on : mqtt_message)
    (json_off json_on : json)
    (Henabled : enabled self = true)
    (Hoff : msg_topic off = HotwordToggleOff_topic)
    (Hoff_json : loads_payload (msg_payload off) = Some json_off)
    (Hoff_site : _check_siteId self json_off = inr true)
    (Hon : msg_topic on = HotwordToggleOn_topic)
    (Hon_json : loads_payload (msg_payload on) = Some json_on)
    (Hon_site : _check_siteId self json_on = inr true) :
  on_messages fuel self [off; on] = Some (set_first_audio true self, []) /\
  on_messages fuel self [off; off] = on_messages fuel self [off].
Proof.
  assert (E1 : on_message fuel self off = Some (set_enabled false self, []))
    by (eapply on_message_toggle_off; eauto).
  assert (E2 : on_message fuel (set_enabled false self) on
               = Some (set_first_audio true (set_enabled true (set_enabled false self)), []))
    by (eapply on_message_toggle_on; eauto).
  assert (E3 : on_message fuel (set_enabled false self) off
               = Some (set_enabled false (set_enabled false self), []))
    by (eapply on_message_toggle_off; eauto).
  split.
  - cbn [on_messages]. rewrite E1, E2. cbn [app].
    unfold set_first_audio, set_enabled. cbn. now rewrite Henabled.
  - cbn [on_messages]. rewrite E1, E3. reflexivity.
Qed.

(** X10.  An object as [__init__] makes it listens to the audio frames of a
    site exactly when no site ids are configured or the site is one of
    them; an audio frame of any other site is dropped by [on_message], the
    object left as it is, enabled or not. *)
Theorem audio_frame_scope
    (self : WakeHermesMqtt) (site : string)
    (Htopics : audioframe_topics self = map AudioFrame_topic (siteIds self)) :
  (listens_to self (AudioFrame_topic site) = true
   <-> siteIds self = [] \/ In site (siteIds self)) /\
  (siteIds self <> [] -> ~ In site (siteIds self) ->
   forall fuel payload,
     on_message fuel self (MqttMessage (AudioFrame_topic site) payload)
       = Some (self, [])).
Proof.
  assert (Hiff : listens_to self (AudioFrame_topic site) = true
                 <-> siteIds self = [] \/ In site (siteIds self)).
  { unfold listens_to. rewrite Htopics.
    destruct (siteIds self) as [|x l]; [simpl; tauto|].
    cbn [map orb]. rewrite existsb_exists. split.
    - intros (t & Ht & E). right.
      change (In t (map AudioFrame_topic (x :: l))) in Ht.
      apply in_map_iff in Ht.
      destruct Ht as (y & <- & Hy). simpl in E. apply String.eqb_eq in E. now subst.
    - intros [H|H]; [discriminate|].
      exists (AudioFrame_topic site). split.
      + change (In (AudioFrame_topic site) (map AudioFrame_topic (x :: l))).
        now apply in_map.
      + simpl. apply String.eqb_refl. }
  split; [exact Hiff|].
  intros Hne Hout fuel payload. unfold on_message, handle_toggle.
  cbn [msg_topic].
  destruct (enabled self); cbn [negb]; [|reflexivity].
  destruct (AudioFrame_is_topic (AudioFrame_topic site)); [|reflexivity].
  destruct (listens_to self (AudioFrame_topic site)) eqn:E; [|reflexivity].
  destruct Hiff as [Hiff _]. specialize (Hiff eq_refl). tauto.
Qed.

(** ** The object over a session *)

Lemma same_options_refl (self : WakeHermesMqtt) : same_options self self.
Proof. unfold same_options. tauto. Qed.

Lemma same_options_trans (a b c : WakeHermesMqtt) :
  same_options a b -> same_options b c -> same_options a c.
Proof.
  unfold same_options.
  intros (?&?&?&?&?&?&?&?) (?&?&?&?&?&?&?&?).
  repeat split; congruence.
Qed.

Lemma same_settings_options (a b : WakeHermesMqtt) :
  same_settings a b -> same_options a b.
Proof. unfold same_settings, same_options. tauto. Qed.

Lemma same_configuration_options (a b : WakeHermesMqtt) :
  same_configuration a b -> same_options a b.
Proof. unfold same_configuration, same_options. tauto. Qed.

(** What a call of [handle_audio_frame] leaves of the object. *)
Lemma handle_audio_frame_outcome (fuel : nat) (self self' : WakeHermesMqtt)
    (wav_bytes : bytes) (siteId : string) (r : option exn) (tr : list event) :
  handle_audio_frame fuel self wav_bytes siteId = Some (r, self', tr) ->
  same_options self self' /\
  enabled self' = enabled self /\
  first_audio self' = first_audio self /\
  match r with
  | Some _ => audio_buffer self' = audio_buffer self /\ yields tr = []
  | None => 1 <= chunk_size self -> py_len (audio_buffer self') < chunk_size self
  end.
Proof.
  unfold handle_audio_frame.
  destruct (ensure_detectors self) as [[e|] s1] eqn:E1.
  - intros [= <- <- <-].
    pose proof (ensure_detectors_configuration _ E1) as Hc.
    split; [now apply same_configuration_options|].
    unfold same_configuration in Hc. intuition congruence.
  - pose proof (ensure_detectors_configuration _ E1) as Hc.
    destruct (maybe_convert_wav s1 wav_bytes) as [[e|audio_data] tr0] eqn:E2.
    + intros [= <- <- <-].
      split; [now apply same_configuration_options|].
      rewrite (maybe_convert_wav_trace _ _ E2), yields_sox.
      unfold same_configuration in Hc. intuition congruence.
    + destruct (drain fuel _ siteId) as [[s2 tr']|] eqn:E3; [|discriminate].
      intros [= <- <- <-].
      pose proof (drain_settings _ _ _ E3) as Hs.
      split.
      { eapply same_options_trans; [apply same_configuration_options, Hc|].
        apply same_settings_options in Hs. exact Hs. }
      unfold same_settings in Hs. cbn in Hs.
      unfold same_configuration in Hc.
      split; [intuition congruence|]. split; [intuition congruence|].
      intros H1.
      assert (Hcs : chunk_size s1 = chunk_size self) by intuition congruence.
      rewrite <- Hcs in *.
      eapply drain_suffix in E3; [|exact H1]. cbn in E3. tauto.
Qed.

Lemma handle_audio_frame_fuel_le (fuel fuel' : nat) (self : WakeHermesMqtt)
    (wav_bytes : bytes) (siteId : string) r :
  (fuel <= fuel')%nat ->
  handle_audio_frame fuel self wav_bytes siteId = Some r ->
  handle_audio_frame fuel' self wav_bytes siteId = Some r.
Proof.
  intros Hle. unfold handle_audio_frame.
  destruct (ensure_detectors self) as [[e|] s1]; [auto|].
  destruct (maybe_convert_wav s1 wav_bytes) as [[e|audio_data] tr0]; [auto|].
  destruct (drain fuel _ siteId) as [[s2 tr']|] eqn:E3; [|discriminate].
  now rewrite (@drain_fuel_le _ _ _ _ _ Hle E3).
Qed.

Lemma handle_audio_frame_returns (self : WakeHermesMqtt) (wav_bytes : bytes)
    (siteId : string) :
  1 <= chunk_size self ->
  exists fuel r, handle_audio_frame fuel self wav_bytes siteId = Some r.
Proof.
  intros H1. unfold handle_audio_frame.
  destruct (ensure_detectors self) as [[e|] s1] eqn:E1.
  - exists O. eauto.
  - pose proof (ensure_detectors_configuration _ E1) as Hc.
    assert (Hcs : chunk_size s1 = chunk_size self)
      by (unfold same_configuration in Hc; intuition congruence).
    destruct (maybe_convert_wav s1 wav_bytes) as [[e|audio_data] tr0] eqn:E2.
    + exists O. eauto.
    + set (s2 := set_audio_buffer (audio_buffer s1 ++ audio_data) s1).
      set (q := py_len (audio_buffer s2) / chunk_size s2).
      assert (Hq : 0 <= q).
      { apply Z.div_pos; [unfold py_len|cbn]; lia. }
      destruct (@drain_terminates (S (Z.to_nat q)) s2 siteId) as (s3 & tr & E3).
      * cbn. lia.
      * fold q. lia.
      * exists (S (Z.to_nat q)). rewrite E3. eauto.
Qed.

Lemma handle_toggle_cases (self s1 : WakeHermesMqtt) (msg : mqtt_message) :
  handle_toggle self msg = inr s1 ->
  s1 = self \/ s1 = set_enabled false self \/
  s1 = set_first_audio true (set_enabled true self).
Proof.
  unfold handle_toggle.
  destruct (msg_topic msg);
    try (intros [= <-]; now left);
    (destruct (loads_payload (msg_payload msg)); [|discriminate]);
    (destruct (_check_siteId self _) as [e|b]; [discriminate|destruct b]);
    intros [= <-]; auto.
Qed.

Lemma handle_toggle_options (self s1 : WakeHermesMqtt) (msg : mqtt_message) :
  handle_toggle self msg = inr s1 ->
  same_options self s1 /\ audio_buffer s1 = audio_buffer self /\
  detectors s1 = detectors self.
Proof.
  intros H. apply handle_toggle_cases in H.
  destruct H as [-> | [-> | ->]]; unfold same_options; cbn; tauto.
Qed.

(** The ways [on_message] ends: nothing is done but a toggle, or the frame
    went to [handle_audio_frame]. *)
Lemma on_message_cases (fuel : nat) (self self' : WakeHermesMqtt)
    (msg : mqtt_message) (tr : list event) :
  on_message fuel self msg = Some (self', tr) ->
  (tr = [] /\ same_options self self' /\
   audio_buffer self' = audio_buffer self /\
   detectors self' = detectors self) \/
  (exists s1 r tr_in,
      AudioFrame_is_topic (msg_topic msg) = true /\
      same_options self s1 /\ audio_buffer s1 = audio_buffer self /\
      detectors s1 = detectors self /\
      handle_audio_frame fuel s1 (msg_payload msg)
        (AudioFrame_get_siteId (msg_topic msg)) = Some (r, self', tr_in) /\
      tr = flat_map publish_result tr_in).
Proof.
  unfold on_message.
  destruct (handle_toggle self msg) as [e|s0] eqn:E0.
  { intros [= <- <-]. left. unfold same_options. tauto. }
  apply handle_toggle_options in E0. destruct E0 as (Ho & Hb & Hd).
  destruct (negb (enabled s0)); [intros [= <- <-]; left; tauto|].
  destruct (AudioFrame_is_topic (msg_topic msg)) eqn:Ea;
    [|intros [= <- <-]; left; tauto].
  destruct (listens_to s0 (msg_topic msg)); [|intros [= <- <-]; left; tauto].
  destruct (handle_audio_frame _ _ _ _) as [[[r s2] tr_in]|] eqn:E1; [|discriminate].
  intros [= <- <-]. right. eexists _, r, tr_in.
  split; [reflexivity|]. split; [|split; [|split; [|split; [exact E1|reflexivity]]]].
  - eapply same_options_trans; [exact Ho|].
    destruct (first_audio s0); unfold same_options; cbn; tauto.
  - rewrite <- Hb. now destruct (first_audio s0).
  - rewrite <- Hd. now destruct (first_audio s0).
Qed.

Lemma on_message_fuel_le (fuel fuel' : nat) (self : WakeHermesMqtt)
    (msg : mqtt_message) r :
  (fuel <= fuel')%nat ->
  on_message fuel self msg = Some r -> on_message fuel' self msg = Some r.
Proof.
  intros Hle. unfold on_message.
  destruct (handle_toggle self msg) as [e|s0]; [auto|].
  destruct (negb (enabled s0)); [auto|].
  destruct (AudioFrame_is_topic (msg_topic msg)); [|auto].
  destruct (listens_to s0 (msg_topic msg)); [|auto].
  destruct (handle_audio_frame fuel _ _ _) as [x|] eqn:E1; [|discriminate].
  now rewrite (@handle_audio_frame_fuel_le _ _ _ _ _ _ Hle E1).
Qed.

Lemma on_message_returns (self : WakeHermesMqtt) (msg : mqtt_message) :
  1 <= chunk_size self ->
  exists fuel r, on_message fuel self msg = Some r.
Proof.
  intros H1. unfold on_message.
  destruct (handle_toggle self msg) as [e|s0] eqn:E0; [exists O; eauto|].
  apply handle_toggle_options in E0. destruct E0 as (Ho & _).
  destruct (negb (enabled s0)); [exists O; eauto|].
  destruct (AudioFrame_is_topic (msg_topic msg)); [|exists O; eauto].
  destruct (listens_to s0 (msg_topic msg)); [|exists O; eauto].
  set (s1 := if first_audio s0 then set_first_audio false s0 else s0).
  assert (Hcs : chunk_size s1 = chunk_size self).
  { unfold same_options in Ho. unfold s1.
    destruct (first_audio s0); cbn; intuition congruence. }
  destruct (@handle_audio_frame_returns s1 (msg_payload msg)
              (AudioFrame_get_siteId (msg_topic msg))) as (fuel & [[r s2] tr] & E);
    [lia|].
  exists fuel. rewrite E. eauto.
Qed.

Lemma on_messages_fuel_le (fuel fuel' : nat) (msgs : list mqtt_message) :
  (fuel <= fuel')%nat ->
  forall (self : WakeHermesMqtt) r,
    on_messages fuel self msgs = Some r -> on_messages fuel' self msgs = Some r.
Proof.
  intros Hle. induction msgs as [|msg msgs IH]; intros self r; [auto|].
  cbn [on_messages].
  destruct (on_message fuel self msg) as [[s1 tr]|] eqn:E1; [|discriminate].
  rewrite (@on_message_fuel_le _ _ _ _ _ Hle E1).
  destruct (on_messages fuel s1 msgs) as [[s2 tr']|] eqn:E2; [|discriminate].
  now rewrite (IH _ _ E2).
Qed.

Lemma published_app (a b : list event) :
  published (a ++ b) = published a ++ published b.
Proof. apply flat_map_app. Qed.

Lemma published_calls_of (i : nat) (chunk : bytes) (rs : list Z) :
  published (calls_of i chunk rs) = [].
Proof. revert i. induction rs as [|r rs IH]; intros i; simpl; auto. Qed.

(** The generator publishes nothing itself. *)
Lemma drain_published (fuel : nat) :
  forall (self self' : WakeHermesMqtt) (siteId : string) (tr : list event),
    drain fuel self siteId = Some (self', tr) -> published tr = [].
Proof.
  induction fuel as [|fuel IH]; intros self self' siteId tr H; [discriminate|].
  simpl in H.
  destruct (drain_step self siteId) as [[s1 tr1]|] eqn:E1.
  - destruct (drain fuel s1 siteId) as [[s2 tr2]|] eqn:E2; [|discriminate].
    injection H as <- <-. rewrite published_app, (IH _ _ _ _ E2), app_nil_r.
    apply drain_step_Some in E1. cbn zeta in E1.
    destruct E1 as (_ & _ & _ & _ & ->).
    rewrite published_app, published_calls_of.
    now destruct (first_match _ _).
  - now injection H as <- <-.
Qed.

Lemma handle_audio_frame_published (fuel : nat) (self self' : WakeHermesMqtt)
    (wav_bytes : bytes) (siteId : string) (r : option exn) (tr : list event) :
  handle_audio_frame fuel self wav_bytes siteId = Some (r, self', tr) ->
  published tr = [].
Proof.
  unfold handle_audio_frame.
  destruct (ensure_detectors self) as [[e|] s1] eqn:E1.
  { now intros [= <- <- <-]. }
  destruct (maybe_convert_wav s1 wav_bytes) as [[e|audio_data] tr0] eqn:E2.
  { intros [= <- <- <-].
    now rewrite (maybe_convert_wav_trace _ _ E2), published_sox. }
  destruct (drain fuel _ siteId) as [[s2 tr']|] eqn:E3; [|discriminate].
  intros [= <- <- <-].
  rewrite published_app, (maybe_convert_wav_trace _ _ E2), published_sox.
  exact (drain_published _ _ _ E3).
Qed.

(** One message for each pair the generator yields, in order. *)
Lemma published_publish_result (tr : list event) :
  published tr = [] ->
  published (flat_map publish_result tr)
    = map (fun wm => (topic_of_result (fst wm) (snd wm), snd wm)) (yields tr).
Proof.
  induction tr as [|ev tr IH]; [reflexivity|].
  intros H. cbn [flat_map]. rewrite published_app.
  destruct ev as [w|i ch r|w [d|e]|t m]; try discriminate;
    cbn in H; rewrite (IH H); reflexivity.
Qed.

Lemma handle_detection_siteId (self : WakeHermesMqtt) (i : nat) (siteId : string) :
  message_siteId (handle_detection self i siteId) = siteId.
Proof.
  unfold handle_detection, handle_detection_try.
  destruct (i <? _)%nat; [|reflexivity].
  destruct (model_ids_get _ _); [|reflexivity].
  destruct (nth_error _ _); reflexivity.
Qed.

Lemma handle_audio_frame_yields (fuel : nat) (self self' : WakeHermesMqtt)
    (wav_bytes : bytes) (siteId : string) (r : option exn) (tr : list event) :
  handle_audio_frame fuel self wav_bytes siteId = Some (r, self', tr) ->
  forall w m, In (w, m) (yields tr) ->
    message_siteId m = siteId /\
    exists i : nat,
      (i < List.length (detectors self'))%nat /\
      w = nth i (wakeword_ids self) "default"%string.
Proof.
  unfold handle_audio_frame.
  destruct (ensure_detectors self) as [[e|] s1] eqn:E1.
  { intros [= <- <- <-] w m []. }
  pose proof (ensure_detectors_configuration _ E1) as Hc.
  destruct (maybe_convert_wav s1 wav_bytes) as [[e|audio_data] tr0] eqn:E2.
  { intros [= <- <- <-] w m.
    rewrite (maybe_convert_wav_trace _ _ E2), yields_sox. intros []. }
  destruct (drain fuel _ siteId) as [[s2 tr']|] eqn:E3; [|discriminate].
  intros [= <- <- <-] w m.
  rewrite yields_app, (maybe_convert_wav_trace _ _ E2), yields_sox. cbn [app].
  intros Hin.
  destruct (drain_yields _ _ _ E3 _ _ Hin) as (i & Hi & -> & ->).
  split; [apply handle_detection_siteId|].
  pose proof (drain_settings _ _ _ E3) as Hs.
  exists i. split.
  - unfold same_settings in Hs. cbn in Hs, Hi. intuition congruence.
  - rewrite wakewordId_of_nth. cbn.
    unfold same_configuration in Hc. f_equal. intuition congruence.
Qed.

(** X11.  Over any sequence of messages the options set in [__init__] stay
    as they were, and the audio buffer holds less than one chunk after each
    message when it did before the first. *)
Theorem on_messages_invariant
    (fuel : nat) (msgs : list mqtt_message) (self self' : WakeHermesMqtt)
    (tr : list event)
    (Hchunk : 1 <= chunk_size self)
    (Hbuffer : py_len (audio_buffer self) < chunk_size self)
    (Hrun : on_messages fuel self msgs = Some (self', tr)) :
  same_options self self' /\
  py_len (audio_buffer self') < chunk_size self'.
Proof.
  revert self tr Hchunk Hbuffer Hrun.
  induction msgs as [|msg msgs IH]; intros self tr Hchunk Hbuffer Hrun.
  - cbn in Hrun. injection Hrun as <- <-.
    split; [apply same_options_refl|exact Hbuffer].
  - cbn [on_messages] in Hrun.
    destruct (on_message fuel self msg) as [[s1 tr1]|] eqn:E1; [|discriminate].
    destruct (on_messages fuel s1 msgs) as [[s2 tr2]|] eqn:E2; [|discriminate].
    injection Hrun as <- <-.
    assert (H1 : same_options self s1 /\ py_len (audio_buffer s1) < chunk_size s1).
    { apply on_message_cases in E1.
      destruct E1 as [(_ & Ho & Hb & _)|(s0 & r & tr_in & _ & Ho & Hb & _ & E & _)].
      - split; [exact Ho|]. rewrite Hb.
        unfold same_options in Ho. intuition congruence.
      - apply handle_audio_frame_outcome in E.
        destruct E as (Ho' & _ & _ & Hr).
        assert (Hos : same_options self s1)
          by (eapply same_options_trans; eauto).
        split; [exact Hos|].
        assert (Hc0 : chunk_size s0 = chunk_size self)
          by (unfold same_options in Ho; intuition congruence).
        assert (Hc1 : chunk_size s1 = chunk_size self)
          by (unfold same_options in Hos; intuition congruence).
        rewrite Hc1. destruct r as [e|].
        + destruct Hr as [-> _]. now rewrite Hb.
        + rewrite <- Hc0. apply Hr. lia. }
    destruct H1 as (Ho1 & Hb1).
    assert (Hc1 : chunk_size s1 = chunk_size self)
      by (unfold same_options in Ho1; intuition congruence).
    destruct (IH s1 tr2) as (Ho2 & Hb2); [lia|exact Hb1|exact E2|].
    split; [eapply same_options_trans; eauto|exact Hb2].
Qed.

(** X12.  With a chunk size of at least one, [on_message] handles every
    sequence of messages to the end: no payload, topic or error makes the
    [while] loop run for ever, and no exception escapes.  What it takes is
    enough iterations, and more do not change the result. *)
Theorem on_messages_returns
    (msgs : list mqtt_message) (self : WakeHermesMqtt)
    (Hchunk : 1 <= chunk_size self) :
  exists fuel self' tr,
    forall fuel', (fuel <= fuel')%nat ->
      on_messages fuel' self msgs = Some (self', tr).
Proof.
  revert self Hchunk.
  induction msgs as [|msg msgs IH]; intros self Hchunk.
  - exists O, self, []. reflexivity.
  - destruct (@on_message_returns self msg Hchunk) as (f1 & [s1 tr1] & E1).
    assert (Hc1 : chunk_size s1 = chunk_size self).
    { apply on_message_cases in E1.
      destruct E1 as [(_ & Ho & _)|(s0 & r & tr_in & _ & Ho & _ & _ & E & _)].
      - unfold same_options in Ho. intuition congruence.
      - apply handle_audio_frame_outcome in E. destruct E as (Ho' & _).
        unfold same_options in Ho, Ho'. intuition congruence. }
    destruct (IH s1) as (f2 & s2 & tr2 & E2); [lia|].
    exists (Nat.max f1 f2), s2, (tr1 ++ tr2). intros fuel' Hle.
    cbn [on_messages].
    rewrite (@on_message_fuel_le f1 fuel' self msg (s1, tr1)) by (lia || exact E1).
    rewrite E2 by lia. reflexivity.
Qed.

(** X13.  Whatever [on_message] publishes answers an audio frame and carries
    the site id of the frame's topic.  An error goes to the error topic; a
    detection goes to the topic of the wake word id at the position of one
    of the detectors, ["default"] when there are fewer ids than that. *)
Theorem on_message_published
    (fuel : nat) (self self' : WakeHermesMqtt) (msg : mqtt_message)
    (tr : list event)
    (Hrun : on_message fuel self msg = Some (self', tr)) :
  forall t m, In (t, m) (published tr) ->
    AudioFrame_is_topic (msg_topic msg) = true /\
    message_siteId m = AudioFrame_get_siteId (msg_topic msg) /\
    match m with
    | Detected _ =>
        exists i : nat,
          (i < List.length (detectors self'))%nat /\
          t = detected_topic (nth i (wakeword_ids self) "default"%string)
    | Error _ => t = error_topic
    end.
Proof.
  intros t m Hin. apply on_message_cases in Hrun.
  destruct Hrun as [(-> & _)|(s0 & r & tr_in & Ha & Ho & _ & _ & E & ->)];
    [destruct Hin|].
  rewrite published_publish_result in Hin
    by exact (handle_audio_frame_published _ _ _ _ E).
  apply in_map_iff in Hin.
  destruct Hin as ([w m'] & [= <- <-] & Hin). cbn [fst snd].
  destruct (handle_audio_frame_yields _ _ _ _ E _ _ Hin) as (Hs & i & Hi & ->).
  split; [exact Ha|]. split; [exact Hs|].
  destruct m' as [d|e]; cbn [topic_of_result]; [|reflexivity].
  exists i. split; [exact Hi|].
  unfold same_options in Ho. do 2 f_equal. intuition congruence.
Qed.

Lemma listens_to_scope (self : WakeHermesMqtt) (site : string) :
  audioframe_topics self = map AudioFrame_topic (siteIds self) ->
  (listens_to self (AudioFrame_topic site) = true
   <-> siteIds self = [] \/ In site (siteIds self)).
Proof.
  intros Htopics. unfold listens_to. rewrite Htopics.
  destruct (siteIds self) as [|x l]; [simpl; tauto|].
  cbn [map orb]. rewrite existsb_exists. split.
  - intros (t & Ht & E). right.
    change (In t (map AudioFrame_topic (x :: l))) in Ht.
    apply in_map_iff in Ht.
    destruct Ht as (y & <- & Hy). simpl in E. apply String.eqb_eq in E. now subst.
  - intros [H|H]; [discriminate|].
    exists (AudioFrame_topic site). split.
    + change (In (AudioFrame_topic site) (map AudioFrame_topic (x :: l))).
      now apply in_map.
    + simpl. apply String.eqb_refl.
Qed.

Lemma on_message_frame (fuel : nat) (self : WakeHermesMqtt) (site : string)
    (payload : bytes) :
  enabled self = true ->
  on_message fuel self (MqttMessage (AudioFrame_topic site) payload)
    = if AudioFrame_is_topic (AudioFrame_topic site)
      then if listens_to self (AudioFrame_topic site)
           then take_audio_frame fuel self
                  (MqttMessage (AudioFrame_topic site) payload)
           else Some (self, [])
      else Some (self, []).
Proof.
  intros He. unfold on_message, handle_toggle, take_audio_frame.
  cbn [msg_topic msg_payload]. rewrite He. reflexivity.
Qed.

(** X14.  [on_connect] always subscribes to the two toggle topics.  Without
    site ids it adds the wildcard audio frame topic, and an enabled service
    takes the frames of every site whose id is one topic level.  With site
    ids it adds the audio frame topic of each of them and no other; an
    enabled service then takes a frame only from a subscribed topic, and
    from a subscribed topic only when the site id is one topic level: the
    frames of a configured site whose id is empty or has a slash are
    dropped although their topic is subscribed to. *)
Theorem on_connect_subscriptions
    (self : WakeHermesMqtt)
    (Htopics : audioframe_topics self = map AudioFrame_topic (siteIds self))
    (Henabled : enabled self = true) :
  In HotwordToggleOn_topic (on_connect self) /\
  In HotwordToggleOff_topic (on_connect self) /\
  (siteIds self = [] ->
   on_connect self
     = [HotwordToggleOn_topic; HotwordToggleOff_topic; AudioFrame_topic "+"] /\
   forall fuel site payload,
     on_message fuel self (MqttMessage (AudioFrame_topic site) payload)
       = if AudioFrame_is_topic (AudioFrame_topic site)
         then take_audio_frame fuel self
                (MqttMessage (AudioFrame_topic site) payload)
         else Some (self, [])) /\
  (siteIds self <> [] ->
   on_connect self
     = [HotwordToggleOn_topic; HotwordToggleOff_topic]
         ++ map AudioFrame_topic (siteIds self) /\
   forall fuel site payload,
     (In (AudioFrame_topic site) (on_connect self) ->
      on_message fuel self (MqttMessage (AudioFrame_topic site) payload)
        = if AudioFrame_is_topic (AudioFrame_topic site)
          then take_audio_frame fuel self
                 (MqttMessage (AudioFrame_topic site) payload)
          else Some (self, [])) /\
     (~ In (AudioFrame_topic site) (on_connect self) ->
      on_message fuel self (MqttMessage (AudioFrame_topic site) payload)
        = Some (self, []))).
Proof.
  assert (Hoc : on_connect self
                = [HotwordToggleOn_topic; HotwordToggleOff_topic]
                    ++ match siteIds self with
                       | [] => [AudioFrame_topic "+"]
                       | _ :: _ => map AudioFrame_topic (siteIds self)
                       end).
  { unfold on_connect. rewrite Htopics. now destruct (siteIds self). }
  split; [rewrite Hoc; cbn; auto|]. split; [rewrite Hoc; cbn; auto|].
  split.
  - intros Hnone. split; [rewrite Hoc, Hnone; reflexivity|].
    intros fuel site payload. rewrite on_message_frame by exact Henabled.
    destruct (AudioFrame_is_topic (AudioFrame_topic site)); [|reflexivity].
    assert (Hl : listens_to self (AudioFrame_topic site) = true)
      by (apply listens_to_scope; auto).
    now rewrite Hl.
  - intros Hsome.
    assert (Hoc' : on_connect self
                   = [HotwordToggleOn_topic; HotwordToggleOff_topic]
                       ++ map AudioFrame_topic (siteIds self)).
    { rewrite Hoc. destruct (siteIds self); [congruence|reflexivity]. }
    split; [exact Hoc'|].
    assert (Hin : forall site, In (AudioFrame_topic site) (on_connect self)
                               <-> In site (siteIds self)).
    { intros site. rewrite Hoc'. split.
      - intros H. apply in_app_or in H. destruct H as [[H|[H|[]]]|H]; try discriminate.
        apply in_map_iff in H. destruct H as (y & [= ->] & Hy). exact Hy.
      - intros H. apply in_or_app. right. now apply in_map. }
    intros fuel site payload. rewrite on_message_frame by exact Henabled.
    split.
    + intros H. apply Hin in H.
      destruct (AudioFrame_is_topic (AudioFrame_topic site)); [|reflexivity].
      assert (Hl : listens_to self (AudioFrame_topic site) = true)
        by (apply listens_to_scope; auto).
      now rewrite Hl.
    + intros H.
      destruct (AudioFrame_is_topic (AudioFrame_topic site)); [|reflexivity].
      destruct (listens_to self (AudioFrame_topic site)) eqn:Hl; [|reflexivity].
      apply listens_to_scope in Hl; [|exact Htopics].
      destruct Hl as [Hl|Hl]; [contradiction|]. apply Hin in Hl. contradiction.
Qed.

Lemma zip_longest_nil_r {A B : Type} (a : list A) (fill_a : A) (fill_b : B) :
  map snd (zip_longest a [] fill_a fill_b) = repeat fill_b (List.length a).
Proof. induction a as [|x a IH]; cbn; [reflexivity|]. now rewrite IH. Qed.

Lemma zip_longest_snd {A B : Type} (a : list A) (fill_a : A) (fill_b : B) :
  forall b : list B,
    map snd (zip_longest a b fill_a fill_b)
      = b ++ repeat fill_b (List.length a - List.length b).
Proof.
  induction a as [|x a IH]; intros b.
  - cbn. rewrite map_map. cbn. rewrite map_id. now rewrite app_nil_r.
  - destruct b as [|y b].
    + change (map snd (zip_longest (x :: a) [] fill_a fill_b))
        with (fill_b :: map snd (zip_longest a [] fill_a fill_b)).
      now rewrite zip_longest_nil_r.
    + cbn. now rewrite IH.
Qed.

(** X15.  The wake word ids [main] hands to the service are those of the
    command line, in order, followed by one ["default"] for each model
    beyond them; ids beyond the models are kept.  So the wake word id of
    the detector at position [i] is the [i]-th id of the command line, or
    ["default"] when there is none. *)
Theorem main_wakeword_ids_padded
    (self : WakeHermesMqtt) (model : list (list string))
    (wakewordId : option (list string))
    (Hmain : wakeword_ids self = main_wakeword_ids model wakewordId) :
  let given := match wakewordId with Some l => l | None => [] end in
  wakeword_ids self
    = (given ++ repeat "default"%string (List.length model - List.length given))%list /\
  List.length (wakeword_ids self)
    = Nat.max (List.length model) (List.length given) /\
  forall i, wakewordId_of self i = nth i given "default"%string.
Proof.
  intros given. rewrite Hmain. unfold main_wakeword_ids. fold given.
  rewrite zip_longest_snd. split; [reflexivity|]. split.
  - rewrite length_app, repeat_length. lia.
  - intros i. rewrite wakewordId_of_nth, Hmain. unfold main_wakeword_ids.
    fold given. rewrite zip_longest_snd.
    destruct (Nat.lt_ge_cases i (List.length given)) as [Hi|Hi].
    + now rewrite app_nth1.
    + rewrite app_nth2 by exact Hi. rewrite (nth_overflow given) by exact Hi.
      apply nth_repeat.
Qed.

(** ** Conversion *)

Lemma sox_runs_app (a b : list event) :
  sox_runs (a ++ b) = sox_runs a ++ sox_runs b.
Proof. apply flat_map_app. Qed.

Lemma sox_runs_calls_of (i : nat) (chunk : bytes) (rs : list Z) :
  sox_runs (calls_of i chunk rs) = [].
Proof. revert i. induction rs as [|r rs IH]; intros i; simpl; auto. Qed.

Lemma drain_sox_runs (fuel : nat) :
  forall (self self' : WakeHermesMqtt) (siteId : string) (tr : list event),
    drain fuel self siteId = Some (self', tr) -> sox_runs tr = [].
Proof.
  induction fuel as [|fuel IH]; intros self self' siteId tr H; [discriminate|].
  simpl in H.
  destruct (drain_step self siteId) as [[s1 tr1]|] eqn:E1.
  - destruct (drain fuel s1 siteId) as [[s2 tr2]|] eqn:E2; [|discriminate].
    injection H as <- <-. rewrite sox_runs_app, (IH _ _ _ _ E2), app_nil_r.
    apply drain_step_Some in E1. cbn zeta in E1.
    destruct E1 as (_ & _ & _ & _ & ->).
    rewrite sox_runs_app, sox_runs_calls_of.
    now destruct (first_match _ _).
  - now injection H as <- <-.
Qed.

(** X16.  A frame whose WAV header differs from the required format in rate,
    width or channels is converted by one run of [sox], asked for the
    object's rate, eight times its width in bits and its channels; what
    [sox] prints, not the frames of the file, is what goes to the buffer
    and from there to the detectors. *)
Theorem handle_audio_frame_converted
    (fuel : nat) (self : WakeHermesMqtt) (wav_bytes stdout : bytes)
    (wav_file : Wave_read) (siteId : string)
    (Hchunk : 1 <= chunk_size self)
    (Hdetectors : detectors self <> [])
    (Hopen : wave_open wav_bytes = Some wav_file)
    (Hformat : getframerate wav_file <> sample_rate self \/
               getsampwidth wav_file <> sample_width self \/
               getnchannels wav_file <> channels self)
    (Hsox : sox (sample_rate self) (sample_width self * 8) (channels self)
              wav_bytes = Some stdout)
    (Hfuel : py_len (audio_buffer self ++ stdout) / chunk_size self
             < Z.of_nat fuel) :
  exists self' tr,
    handle_audio_frame fuel self wav_bytes siteId = Some (None, self', tr) /\
    sox_runs tr = [wav_bytes] /\
    py_len (chunks_fed tr)
      = py_len (audio_buffer self ++ stdout) / chunk_size self /\
    List.concat (chunks_fed tr) ++ audio_buffer self'
      = audio_buffer self ++ stdout.
Proof.
  assert (Hw : maybe_convert_wav self wav_bytes = (inr stdout, [EvSox wav_bytes])).
  { unfold maybe_convert_wav, _convert_wav. rewrite Hopen, Hsox.
    destruct (negb _ || negb _ || negb _) eqn:E; [reflexivity|].
    apply orb_false_elim in E. destruct E as [E E3].
    apply orb_false_elim in E. destruct E as [E1 E2].
    apply negb_false_iff, Z.eqb_eq in E1, E2, E3. tauto. }
  set (s2 := set_audio_buffer (audio_buffer self ++ stdout) self).
  destruct (@drain_complete fuel s2 siteId)
    as (self' & tr & E & Hn & _ & Hcat & _); [exact Hchunk|exact Hdetectors|exact Hfuel|].
  exists self', ([EvSox wav_bytes] ++ tr).
  unfold handle_audio_frame.
  rewrite (@ensure_detectors_loaded self Hdetectors), Hw. fold s2. rewrite E.
  split; [reflexivity|].
  rewrite sox_runs_app, chunks_fed_app, (drain_sox_runs _ _ _ E).
  cbn [sox_runs chunks_fed flat_map app].
  repeat split; assumption || reflexivity.
Qed.

End Properties.

(** * The claims on concrete runs *)

#[local] Existing Instance test_double.

Open Scope Z_scope.
Open Scope string_scope.

(** Two appends of 500 bytes with a chunk size of 960: one chunk of 960
    bytes is fed and 40 bytes stay. *)
Lemma handle_audio_frame_chunks_witness :
  1 <= chunk_size hey_960_half /\
  ensure_detectors hey_960_half = (None, hey_960_half) /\
  detectors hey_960_half <> [] /\
  maybe_convert_wav hey_960_half wav_500 = (inr pcm_500, []) /\
  py_len (audio_buffer hey_960_half ++ pcm_500) / chunk_size hey_960_half < Z.of_nat 2 /\
  exists self' tr,
    handle_audio_frame 2 hey_960_half wav_500 "default" = Some (None, self', tr) /\
    py_len (chunks_fed tr) = 1 /\
    py_len (audio_buffer self') = 40.
Proof.
  assert (H1 : 1 <= chunk_size hey_960_half) by (vm_compute; discriminate).
  assert (H2 : ensure_detectors hey_960_half = (None, hey_960_half)) by reflexivity.
  assert (H3 : detectors hey_960_half <> []) by (vm_compute; discriminate).
  assert (H4 : maybe_convert_wav hey_960_half wav_500 = (inr pcm_500, []))
    by (vm_compute; reflexivity).
  assert (H5 : py_len (audio_buffer hey_960_half ++ pcm_500) / chunk_size hey_960_half
               < Z.of_nat 2) by (vm_compute; reflexivity).
  repeat (split; [assumption|]).
  destruct (@handle_audio_frame_chunks test_double 2 hey_960_half hey_960_half
              wav_500 pcm_500 "default" [] H1 H2 H3 H4 H5)
    as (self' & tr & E & Hn & _ & _ & _ & Hrem & _).
  exists self', tr. split; [exact E|]. split.
  - rewrite Hn. reflexivity.
  - rewrite Hrem. reflexivity.
Defined.

(** C2, on the code.  Two models [a.umdl] and [b.umdl] and a chunk on which
    only the second detector reports a detection: both detectors are polled,
    one result is yielded, and it is an error message, not a detection,
    because [load_detectors] left the string ["b"] in [model_ids]. *)
Theorem second_detector_yields_error :
  model_ids two_models_loaded = ids_str "b" /\
  option_map (fun '(e, _, tr) => (e, tr))
    (handle_audio_frame 2 two_models wav_b "default")
    = Some (None,
            [EvRunDetection 0 chunk_b 0;
             EvRunDetection 1 chunk_b 1;
             EvYield "default"
               (Error {| error := "Missing 1 in models";
                         context := "1";
                         he_siteId := "default" |})]).
Proof. split; vm_compute; reflexivity. Qed.

(** C3 as stated fails: with two detectors and a chunk on which the first
    one reports a detection, the second one is not invoked on that chunk. *)
Lemma every_detector_polled_counterexample :
  option_map (fun '(e, self', tr) =>
                (e, List.length (detectors self'), chunks_fed tr, invoked tr))
    (handle_audio_frame 2 two_models wav_a "default")
    = Some (None, 2%nat, [chunk_a], [0%nat]) /\
  [0%nat] <> seq 0 2.
Proof. split; [vm_compute; reflexivity|discriminate]. Qed.

(** One chunk through two loaded detectors, the first of which fires. *)
Lemma detectors_polled_until_first_match_witness :
  drain_step (set_audio_buffer chunk_a two_models_loaded) "default"
    = Some (set_detectors
              [{| trigger := Some x61; fed := [chunk_a] |};
               {| trigger := Some x62; fed := [] |}]
              (set_audio_buffer [] two_models_loaded),
            [EvRunDetection 0 chunk_a 1;
             EvYield "default"
               (handle_detection two_models_loaded 0 "default")]) /\
  (exists n : nat,
      (n <= 2)%nat /\
      invoked [EvRunDetection 0 chunk_a 1;
               EvYield "default" (handle_detection two_models_loaded 0 "default")]
        = seq 0 n) /\
  invoked [EvRunDetection 0 chunk_a 1;
           EvYield "default" (handle_detection two_models_loaded 0 "default")]
    <> seq 0 2.
Proof.
  assert (H : drain_step (set_audio_buffer chunk_a two_models_loaded) "default"
              = Some (set_detectors
                        [{| trigger := Some x61; fed := [chunk_a] |};
                         {| trigger := Some x62; fed := [] |}]
                        (set_audio_buffer [] two_models_loaded),
                      [EvRunDetection 0 chunk_a 1;
                       EvYield "default"
                         (handle_detection two_models_loaded 0 "default")]))
    by reflexivity.
  split; [exact H|].
  destruct (detectors_polled_until_first_match _ _ H)
    as (n & Hn & Hi & _ & _ & _ & Hiff).
  split; [exists n; split; [exact Hn|exact Hi]|].
  intros E. apply (proj1 Hiff) with (i := 0%nat) (d := mkFakeDetector (Some x61) [])
    in E; [|reflexivity|vm_compute; lia].
  vm_compute in E. apply E. reflexivity.
Defined.

(** When it is the last detector that reports a detection, every detector
    has been polled. *)
Lemma last_detector_match_polls_all :
  option_map (fun '(_, tr) => (invoked tr, results_of tr))
    (drain_step (set_audio_buffer chunk_b two_models_loaded) "default")
    = Some (seq 0 2, [0; 1]).
Proof. vm_compute; reflexivity. Qed.

(** C4, on the code.  One model [hey.umdl], whose stem is ["hey"]: the
    detection by its detector carries the model id ["h"]. *)
Theorem modelId_is_one_character :
  stem (model_path (fake_model "hey.umdl")) = "hey" /\
  handle_detection (snd (load_detectors hey_960)) 0 "default"
    = Detected {| hd_siteId := "default";
                  modelId := "h";
                  currentSensitivity := "0.5";
                  modelVersion := "";
                  modelType := "personal" |}.
Proof. split; reflexivity. Qed.

(** C5 as stated fails: after a toggle-off for the kitchen a frame of the
    office is dropped, and the same frame is run through the detector when
    the toggle-off has not come. *)
Lemma per_site_toggle_counterexample :
  siteIds kitchen_office = ["kitchen"; "office"] /\
  loads_payload (msg_payload toggle_off_kitchen)
    = Some (JDict [("siteId", JStr "kitchen")]) /\
  option_map (fun '(self', _) => enabled self')
    (on_message 2 kitchen_office toggle_off_kitchen) = Some false /\
  option_map (fun '(self', tr) => (audio_buffer self', chunks_of_calls tr))
    (on_messages 2 kitchen_office [toggle_off_kitchen; office_frame])
    = Some ([], []) /\
  option_map (fun '(self', tr) => (audio_buffer self', chunks_of_calls tr))
    (on_messages 2 kitchen_office [office_frame])
    = Some ([], [chunk_a]).
Proof. repeat split; vm_compute; reflexivity. Qed.

Lemma toggle_off_disables_every_site_witness :
  msg_topic toggle_off_kitchen = HotwordToggleOff_topic /\
  loads_payload (msg_payload toggle_off_kitchen)
    = Some (JDict [("siteId", JStr "kitchen")]) /\
  _check_siteId kitchen_office (JDict [("siteId", JStr "kitchen")]) = inr true /\
  exists self1,
    on_message 2 kitchen_office toggle_off_kitchen = Some (self1, []) /\
    enabled self1 = false /\
    audio_buffer self1 = audio_buffer kitchen_office /\
    forall fuel' siteId payload,
      on_message fuel' self1 (MqttMessage (AudioFrame_topic siteId) payload)
        = Some (self1, []).
Proof.
  assert (H1 : msg_topic toggle_off_kitchen = HotwordToggleOff_topic) by reflexivity.
  assert (H2 : loads_payload (msg_payload toggle_off_kitchen)
               = Some (JDict [("siteId", JStr "kitchen")])) by reflexivity.
  assert (H3 : _check_siteId kitchen_office (JDict [("siteId", JStr "kitchen")])
               = inr true) by reflexivity.
  repeat (split; [assumption|]).
  exact (@toggle_off_disables_every_site test_double 2 kitchen_office
           toggle_off_kitchen _ H1 H2 H3).
Defined.

(** A toggle-off, a frame of each site, a toggle-on and a frame. *)
Lemma disabled_audio_is_dropped_witness :
  msg_topic toggle_off_kitchen = HotwordToggleOff_topic /\
  loads_payload (msg_payload toggle_off_kitchen)
    = Some (JDict [("siteId", JStr "kitchen")]) /\
  _check_siteId (set_audio_buffer [x2a; x2a] kitchen_office)
    (JDict [("siteId", JStr "kitchen")]) = inr true /\
  Forall (fun m => AudioFrame_is_topic (msg_topic m) = true)
    [kitchen_frame; office_frame] /\
  msg_topic toggle_on_kitchen = HotwordToggleOn_topic /\
  loads_payload (msg_payload toggle_on_kitchen)
    = Some (JDict [("siteId", JStr "kitchen")]) /\
  AudioFrame_is_topic (msg_topic office_frame) = true /\
  listens_to (set_audio_buffer [x2a; x2a] kitchen_office) (msg_topic office_frame)
    = true /\
  detectors (set_audio_buffer [x2a; x2a] kitchen_office) <> [] /\
  1 <= chunk_size (set_audio_buffer [x2a; x2a] kitchen_office) /\
  maybe_convert_wav (set_audio_buffer [x2a; x2a] kitchen_office)
    (msg_payload office_frame) = (inr chunk_a, []) /\
  py_len (audio_buffer (set_audio_buffer [x2a; x2a] kitchen_office) ++ chunk_a)
    / chunk_size (set_audio_buffer [x2a; x2a] kitchen_office) < Z.of_nat 2 /\
  exists self' tr,
    on_messages 2 (set_audio_buffer [x2a; x2a] kitchen_office)
      (toggle_off_kitchen :: [kitchen_frame; office_frame]
         ++ [toggle_on_kitchen; office_frame]) = Some (self', tr) /\
    (List.concat (chunks_fed tr) ++ audio_buffer self' = [x2a; x2a] ++ chunk_a)%list.
Proof.
  set (self := set_audio_buffer [x2a; x2a] kitchen_office).
  assert (H1 : msg_topic toggle_off_kitchen = HotwordToggleOff_topic) by reflexivity.
  assert (H2 : loads_payload (msg_payload toggle_off_kitchen)
               = Some (JDict [("siteId", JStr "kitchen")])) by reflexivity.
  assert (H3 : _check_siteId self (JDict [("siteId", JStr "kitchen")]) = inr true)
    by reflexivity.
  assert (H4 : Forall (fun m => AudioFrame_is_topic (msg_topic m) = true)
                 [kitchen_frame; office_frame])
    by (repeat constructor).
  assert (H5 : msg_topic toggle_on_kitchen = HotwordToggleOn_topic) by reflexivity.
  assert (H6 : loads_payload (msg_payload toggle_on_kitchen)
               = Some (JDict [("siteId", JStr "kitchen")])) by reflexivity.
  assert (H7 : AudioFrame_is_topic (msg_topic office_frame) = true) by reflexivity.
  assert (H8 : listens_to self (msg_topic office_frame) = true) by reflexivity.
  assert (H9 : detectors self <> []) by (vm_compute; discriminate).
  assert (H10 : 1 <= chunk_size self) by (vm_compute; discriminate).
  assert (H11 : maybe_convert_wav self (msg_payload office_frame) = (inr chunk_a, []))
    by reflexivity.
  assert (H12 : py_len (audio_buffer self ++ chunk_a) / chunk_size self < Z.of_nat 2)
    by (vm_compute; reflexivity).
  repeat (split; [assumption|]).
  destruct (@disabled_audio_is_dropped test_double 2 self toggle_off_kitchen
              toggle_on_kitchen office_frame [kitchen_frame; office_frame]
              _ _ chunk_a [] H1 H2 H3 H4 H5 H6 H3 H7 H8 H9 H10 H11 H12)
    as (_ & _ & self' & tr & E & Hcat & _).
  exists self', tr. split; [exact E|exact Hcat].
Defined.

(** The second of two models, whose stem has one character. *)
Lemma handle_detection_error_witness :
  handle_detection_try two_models_loaded 1 "kitchen"
    = inl (AssertionError "Missing 1 in models") /\
  handle_detection two_models_loaded 1 "kitchen"
    = Error {| error := "Missing 1 in models";
               context := "1";
               he_siteId := "kitchen" |}.
Proof.
  assert (H : handle_detection_try two_models_loaded 1 "kitchen"
              = inl (AssertionError "Missing 1 in models")) by reflexivity.
  split; [exact H|].
  exact (proj1 (@handle_detection_error test_double two_models_loaded 1 "kitchen" _ H)).
Defined.

(** C8 as stated fails: with the model list [(m1, "hey")] and no wake word
    ids the detection by the first detector is yielded with ["default"]. *)
Lemma wakewordId_of_own_model_counterexample :
  option_map (fun '(e, _, tr) => (e, invoked tr, map fst (yields tr)))
    (handle_audio_frame 2 m1_hey wav_m "default")
    = Some (None, [0%nat], ["default"]) /\
  "default" <> "hey".
Proof. split; [vm_compute; reflexivity|discriminate]. Qed.

(** Two detectors and the one wake word id [alpha]: the first detector
    reports a detection on the first chunk, the second one on the second
    chunk. *)
Lemma wakewordId_by_position_witness :
  handle_audio_frame 4 two_models_alpha wav_whole "default"
    = Some (None, two_models_alpha_fed,
            [EvRunDetection 0 chunk_a 1;
             EvYield "alpha" (handle_detection two_models_alpha_fed 0 "default");
             EvRunDetection 0 chunk_b 0;
             EvRunDetection 1 chunk_b 1;
             EvYield "default" (handle_detection two_models_alpha_fed 1 "default")]) /\
  (exists w post',
      [EvYield "alpha" (handle_detection two_models_alpha_fed 0 "default");
       EvRunDetection 0 chunk_b 0;
       EvRunDetection 1 chunk_b 1;
       EvYield "default" (handle_detection two_models_alpha_fed 1 "default")]
        = EvYield w (handle_detection two_models_alpha_fed 0 "default") :: post' /\
      nth_error (wakeword_ids two_models_alpha) 0 = Some w) /\
  (exists w post',
      [EvYield "default" (handle_detection two_models_alpha_fed 1 "default")]
        = EvYield w (handle_detection two_models_alpha_fed 1 "default") :: post' /\
      w = "default").
Proof.
  assert (H : handle_audio_frame 4 two_models_alpha wav_whole "default"
              = Some (None, two_models_alpha_fed,
                      [EvRunDetection 0 chunk_a 1;
                       EvYield "alpha"
                         (handle_detection two_models_alpha_fed 0 "default");
                       EvRunDetection 0 chunk_b 0;
                       EvRunDetection 1 chunk_b 1;
                       EvYield "default"
                         (handle_detection two_models_alpha_fed 1 "default")]))
    by (vm_compute; reflexivity).
  split; [exact H|].
  pose proof (proj1 (@wakewordId_by_position test_double 4 two_models_alpha
                       two_models_alpha_fed wav_whole "default" None _ H)) as Hmatch.
  split.
  - destruct (Hmatch [] _ 0%nat chunk_a 1 eq_refl eq_refl)
      as (_ & w & post' & Hpost & Hlt & _).
    exists w, post'. split; [exact Hpost|]. apply Hlt. vm_compute. lia.
  - destruct (Hmatch [EvRunDetection 0 chunk_a 1;
                      EvYield "alpha"
                        (handle_detection two_models_alpha_fed 0 "default");
                      EvRunDetection 0 chunk_b 0] _ 1%nat chunk_b 1 eq_refl eq_refl)
      as (_ & w & post' & Hpost & _ & Hge & _).
    exists w, post'. split; [exact Hpost|]. apply Hge. vm_compute. lia.
Defined.

(** A WAV file in the required format. *)
Lemma maybe_convert_wav_passthrough_witness :
  wave_open wav_500
    = Some {| getframerate := 16000; getsampwidth := 2; getnchannels := 1;
              getnframes := 250;
              readframes := fun n => firstn (n * 2) pcm_500 |} /\
  maybe_convert_wav hey_960 wav_500 = (inr pcm_500, []).
Proof.
  assert (H : wave_open wav_500
              = Some {| getframerate := 16000; getsampwidth := 2; getnchannels := 1;
                        getnframes := 250;
                        readframes := fun n => firstn (n * 2) pcm_500 |})
    by reflexivity.
  split; [exact H|].
  exact (proj1 (@maybe_convert_wav_passthrough test_double hey_960 wav_500 _ H
                  eq_refl eq_refl eq_refl)).
Defined.

(** A chunk size of 960 and a chunk size of zero. *)
Lemma drain_terminates_iff_witness :
  (exists fuel r, drain fuel hey_960_half "default" = Some r) /\
  ~ (exists fuel r, drain fuel hey_zero "default" = Some r).
Proof.
  split.
  - apply (proj1 (@drain_terminates_iff test_double hey_960_half "default")).
    vm_compute. discriminate.
  - intros H.
    apply (proj1 (@drain_terminates_iff test_double hey_zero "default")) in H.
    vm_compute in H. apply H. reflexivity.
Defined.

(** * Further properties on concrete runs *)

(** Both model files of [two_models] exist. *)
Lemma load_detectors_every_file_witness :
  forallb (fun m => is_file (model_path m)) (models two_models) = true /\
  exists self',
    load_detectors two_models = (None, self') /\
    detectors self' = map new_detector (models two_models) /\
    same_configuration two_models self'.
Proof.
  split; [reflexivity|].
  apply (@load_detectors_every_file test_double two_models). reflexivity.
Defined.

(** The second of three model files is missing: the detector of the first
    model stays, and the next frame does not load again. *)
Lemma handle_audio_frame_missing_model_witness :
  models gone_second
    = ([gone_model "a.umdl"] ++ gone_model "gone.umdl" :: [gone_model "b.umdl"])%list /\
  detectors gone_second = [] /\
  forallb (fun m => @is_file test_double_gone (model_path m)) [gone_model "a.umdl"]
    = true /\
  @is_file test_double_gone (model_path (gone_model "gone.umdl")) = false /\
  exists self1,
    (forall fuel wav_bytes siteId,
        handle_audio_frame fuel gone_second wav_bytes siteId
          = Some (Some (AssertionError "Missing gone.umdl"), self1, [])) /\
    detectors self1 = map (@new_detector test_double_gone) [gone_model "a.umdl"] /\
    ensure_detectors self1 = (None, self1).
Proof.
  assert (H1 : models gone_second
               = ([gone_model "a.umdl"] ++ gone_model "gone.umdl"
                    :: [gone_model "b.umdl"])%list) by reflexivity.
  assert (H2 : detectors gone_second = []) by reflexivity.
  assert (H3 : forallb (fun m => @is_file test_double_gone (model_path m))
                 [gone_model "a.umdl"] = true) by reflexivity.
  assert (H4 : @is_file test_double_gone (model_path (gone_model "gone.umdl")) = false)
    by reflexivity.
  repeat (split; [assumption|]).
  destruct (@handle_audio_frame_missing_model test_double_gone gone_second
              [gone_model "a.umdl"] [gone_model "b.umdl"] (gone_model "gone.umdl")
              H1 H2 H3 H4) as (self1 & Hcall & _ & _ & Hd & Hnext).
  exists self1. split; [exact Hcall|]. split; [exact Hd|].
  apply Hnext. discriminate.
Defined.

(** Loading [two_models] again after its first detector was fed. *)
Lemma load_detectors_afresh_witness :
  option_map (fun '(_, self', _) => self')
    (handle_audio_frame 2 two_models wav_a "default") = Some two_models_fed /\
  same_configuration two_models two_models_fed /\
  load_detectors two_models = load_detectors two_models_fed.
Proof.
  assert (H : same_configuration two_models two_models_fed)
    by (unfold same_configuration; repeat apply conj; reflexivity).
  split; [vm_compute; reflexivity|]. split; [exact H|].
  exact (@load_detectors_afresh test_double two_models two_models_fed H).
Defined.

(** Six bytes into an object without models: four are dropped, two stay. *)
Lemma handle_audio_frame_no_models_witness :
  models no_models = [] /\
  detectors no_models = [] /\
  1 <= chunk_size no_models /\
  maybe_convert_wav no_models wav_six = (inr pcm_six, []) /\
  py_len (audio_buffer no_models ++ pcm_six) / chunk_size no_models < Z.of_nat 2 /\
  exists self',
    handle_audio_frame 2 no_models wav_six "default" = Some (None, self', []) /\
    detectors self' = [] /\
    py_len (audio_buffer self') = 2.
Proof.
  assert (H1 : models no_models = []) by reflexivity.
  assert (H2 : detectors no_models = []) by reflexivity.
  assert (H3 : 1 <= chunk_size no_models) by (vm_compute; discriminate).
  assert (H4 : maybe_convert_wav no_models wav_six = (inr pcm_six, []))
    by (vm_compute; reflexivity).
  assert (H5 : py_len (audio_buffer no_models ++ pcm_six) / chunk_size no_models
               < Z.of_nat 2) by (vm_compute; reflexivity).
  repeat (split; [assumption|]).
  destruct (@handle_audio_frame_no_models test_double 2 no_models wav_six pcm_six
              "default" [] H1 H2 H3 H4 H5) as (self' & E & _ & _ & Hd & Hrem & _).
  exists self'. split; [exact E|]. split; [exact Hd|].
  rewrite Hrem. reflexivity.
Defined.

(** Eight bytes in one frame, and in frames of six and two bytes. *)
Lemma handle_audio_frame_two_frames_witness :
  1 <= chunk_size two_models_loaded /\
  detectors two_models_loaded <> [] /\
  maybe_convert_wav two_models_loaded wav_first = (inr pcm_first, []) /\
  maybe_convert_wav two_models_loaded wav_second = (inr pcm_second, []) /\
  maybe_convert_wav two_models_loaded wav_whole
    = (inr (pcm_first ++ pcm_second)%list, []) /\
  handle_audio_frame 2 two_models_loaded wav_first "default"
    = Some (None, two_models_first, [EvRunDetection 0 chunk_a 1; yield_first]) /\
  handle_audio_frame 2 two_models_first wav_second "default"
    = Some (None, two_models_second,
            [EvRunDetection 0 chunk_b 0; EvRunDetection 1 chunk_b 1; yield_second]) /\
  handle_audio_frame 4 two_models_loaded wav_whole "default"
    = Some (None, two_models_second,
            [EvRunDetection 0 chunk_a 1; yield_first;
             EvRunDetection 0 chunk_b 0; EvRunDetection 1 chunk_b 1; yield_second]).
Proof.
  assert (H1 : 1 <= chunk_size two_models_loaded) by (vm_compute; discriminate).
  assert (H2 : detectors two_models_loaded <> []) by (vm_compute; discriminate).
  assert (H3 : maybe_convert_wav two_models_loaded wav_first = (inr pcm_first, []))
    by (vm_compute; reflexivity).
  assert (H4 : maybe_convert_wav two_models_loaded wav_second = (inr pcm_second, []))
    by (vm_compute; reflexivity).
  assert (H5 : maybe_convert_wav two_models_loaded wav_whole
               = (inr (pcm_first ++ pcm_second)%list, []))
    by (vm_compute; reflexivity).
  assert (H6 : handle_audio_frame 2 two_models_loaded wav_first "default"
               = Some (None, two_models_first,
                       [EvRunDetection 0 chunk_a 1; yield_first]))
    by (vm_compute; reflexivity).
  assert (H7 : handle_audio_frame 2 two_models_first wav_second "default"
               = Some (None, two_models_second,
                       [EvRunDetection 0 chunk_b 0; EvRunDetection 1 chunk_b 1;
                        yield_second]))
    by (vm_compute; reflexivity).
  repeat (split; [assumption|]).
  destruct (@handle_audio_frame_two_frames test_double 2 2 two_models_loaded
              two_models_first two_models_second wav_first wav_second wav_whole
              pcm_first pcm_second "default" [] [] [] _ _ None None
              H1 H2 H3 H4 H5 H6 H7) as (d1 & d2 & E1 & E2 & E).
  cbn [app] in E1, E2, E. subst d1 d2. exact E.
Defined.

(** A frame of the office that is no WAV file. *)
Lemma on_message_unreadable_audio_witness :
  enabled kitchen_office = true /\
  AudioFrame_is_topic (msg_topic unreadable_frame) = true /\
  listens_to kitchen_office (msg_topic unreadable_frame) = true /\
  detectors kitchen_office <> [] /\
  maybe_convert_wav kitchen_office (msg_payload unreadable_frame)
    = (inl WaveError, []) /\
  exists self',
    (forall fuel, on_message fuel kitchen_office unreadable_frame = Some (self', [])) /\
    audio_buffer self' = audio_buffer kitchen_office /\
    detectors self' = detectors kitchen_office /\
    enabled self' = true.
Proof.
  assert (H1 : enabled kitchen_office = true) by reflexivity.
  assert (H2 : AudioFrame_is_topic (msg_topic unreadable_frame) = true) by reflexivity.
  assert (H3 : listens_to kitchen_office (msg_topic unreadable_frame) = true)
    by (vm_compute; reflexivity).
  assert (H4 : detectors kitchen_office <> []) by (vm_compute; discriminate).
  assert (H5 : maybe_convert_wav kitchen_office (msg_payload unreadable_frame)
               = (inl WaveError, [])) by (vm_compute; reflexivity).
  repeat (split; [assumption|]).
  destruct (@on_message_unreadable_audio test_double kitchen_office unreadable_frame
              WaveError [] H1 H2 H3 H4 H5) as (self' & E & Hb & Hd & He & _).
  exists self'. auto.
Defined.

(** The kitchen is one of the sites of [kitchen_office]. *)
Lemma toggle_site_scope_witness :
  msg_topic toggle_off_kitchen = toggle_topic false /\
  loads_payload (msg_payload toggle_off_kitchen)
    = Some (JDict [("siteId", JStr "kitchen")]) /\
  dict_get [("siteId", JStr "kitchen")] "siteId" (JStr "default") = JStr "kitchen" /\
  on_message 0 kitchen_office toggle_off_kitchen
    = Some (toggled false kitchen_office, []).
Proof.
  assert (H1 : msg_topic toggle_off_kitchen = toggle_topic false) by reflexivity.
  assert (H2 : loads_payload (msg_payload toggle_off_kitchen)
               = Some (JDict [("siteId", JStr "kitchen")]))
    by (vm_compute; reflexivity).
  assert (H3 : dict_get [("siteId", JStr "kitchen")] "siteId" (JStr "default")
               = JStr "kitchen") by reflexivity.
  repeat (split; [assumption|]).
  apply (proj1 (@toggle_site_scope test_double 0 kitchen_office toggle_off_kitchen
                  false [("siteId", JStr "kitchen")] "kitchen" H1 H2 H3)).
  right. vm_compute. left. reflexivity.
Defined.

(** A toggle whose payload is not JSON. *)
Lemma toggle_malformed_witness :
  msg_topic not_json_toggle = toggle_topic false /\
  loads_payload (msg_payload not_json_toggle) = None /\
  on_message 0 kitchen_office not_json_toggle = Some (kitchen_office, []).
Proof.
  assert (H1 : msg_topic not_json_toggle = toggle_topic false) by reflexivity.
  assert (H2 : loads_payload (msg_payload not_json_toggle) = None)
    by (vm_compute; reflexivity).
  repeat (split; [assumption|]).
  exact (proj1 (@toggle_malformed test_double 0 kitchen_office not_json_toggle
                  false H1) H2).
Defined.

(** The kitchen turns the service off and on again. *)
Lemma toggle_off_on_witness :
  enabled kitchen_office = true /\
  msg_topic toggle_off_kitchen = HotwordToggleOff_topic /\
  loads_payload (msg_payload toggle_off_kitchen)
    = Some (JDict [("siteId", JStr "kitchen")]) /\
  _check_siteId kitchen_office (JDict [("siteId", JStr "kitchen")]) = inr true /\
  msg_topic toggle_on_kitchen = HotwordToggleOn_topic /\
  loads_payload (msg_payload toggle_on_kitchen)
    = Some (JDict [("siteId", JStr "kitchen")]) /\
  on_messages 0 kitchen_office [toggle_off_kitchen; toggle_on_kitchen]
    = Some (set_first_audio true kitchen_office, []).
Proof.
  assert (H1 : enabled kitchen_office = true) by reflexivity.
  assert (H2 : msg_topic toggle_off_kitchen = HotwordToggleOff_topic) by reflexivity.
  assert (H3 : loads_payload (msg_payload toggle_off_kitchen)
               = Some (JDict [("siteId", JStr "kitchen")]))
    by (vm_compute; reflexivity).
  assert (H4 : _check_siteId kitchen_office (JDict [("siteId", JStr "kitchen")])
               = inr true) by (vm_compute; reflexivity).
  assert (H5 : msg_topic toggle_on_kitchen = HotwordToggleOn_topic) by reflexivity.
  assert (H6 : loads_payload (msg_payload toggle_on_kitchen)
               = Some (JDict [("siteId", JStr "kitchen")]))
    by (vm_compute; reflexivity).
  repeat (split; [assumption|]).
  exact (proj1 (@toggle_off_on test_double 0 kitchen_office toggle_off_kitchen
                  toggle_on_kitchen _ _ H1 H2 H3 H4 H5 H6 H4)).
Defined.

(** The bedroom is not one of the sites of [kitchen_office]. *)
Lemma audio_frame_scope_witness :
  audioframe_topics kitchen_office
    = map AudioFrame_topic (siteIds kitchen_office) /\
  forall fuel payload,
    on_message fuel kitchen_office (MqttMessage (AudioFrame_topic "bedroom") payload)
      = Some (kitchen_office, []).
Proof.
  assert (H1 : audioframe_topics kitchen_office
               = map AudioFrame_topic (siteIds kitchen_office)) by reflexivity.
  split; [exact H1|].
  apply (proj2 (@audio_frame_scope test_double kitchen_office "bedroom" H1)).
  - vm_compute. discriminate.
  - vm_compute. intros [H|[H|[]]]; discriminate H.
Defined.

(** A frame of the office, a toggle-off and a frame of the kitchen. *)
Lemma on_messages_invariant_witness :
  1 <= chunk_size kitchen_office /\
  py_len (audio_buffer kitchen_office) < chunk_size kitchen_office /\
  on_messages 2 kitchen_office [office_frame; toggle_off_kitchen; kitchen_frame]
    = Some (set_enabled false kitchen_office_fed,
            [EvRunDetection 0 chunk_a 1;
             EvPublish (detected_topic "a") office_detection]) /\
  same_options kitchen_office (set_enabled false kitchen_office_fed) /\
  py_len (audio_buffer (set_enabled false kitchen_office_fed))
    < chunk_size (set_enabled false kitchen_office_fed).
Proof.
  assert (H1 : 1 <= chunk_size kitchen_office) by (vm_compute; discriminate).
  assert (H2 : py_len (audio_buffer kitchen_office) < chunk_size kitchen_office)
    by (vm_compute; reflexivity).
  assert (H3 : on_messages 2 kitchen_office
                 [office_frame; toggle_off_kitchen; kitchen_frame]
               = Some (set_enabled false kitchen_office_fed,
                       [EvRunDetection 0 chunk_a 1;
                        EvPublish (detected_topic "a") office_detection]))
    by (vm_compute; reflexivity).
  repeat (split; [assumption|]).
  exact (@on_messages_invariant test_double 2
           [office_frame; toggle_off_kitchen; kitchen_frame] kitchen_office _ _
           H1 H2 H3).
Defined.

(** The same three messages are handled to the end. *)
Lemma on_messages_returns_witness :
  1 <= chunk_size kitchen_office /\
  exists fuel self' tr,
    forall fuel', (fuel <= fuel')%nat ->
      on_messages fuel' kitchen_office
        [office_frame; toggle_off_kitchen; kitchen_frame] = Some (self', tr).
Proof.
  assert (H1 : 1 <= chunk_size kitchen_office) by (vm_compute; discriminate).
  split; [exact H1|].
  exact (@on_messages_returns test_double
           [office_frame; toggle_off_kitchen; kitchen_frame] kitchen_office H1).
Defined.

(** The detection of a frame of the office goes to the topic of the wake
    word id ["a"] with the site id of the office. *)
Lemma on_message_published_witness :
  on_message 2 kitchen_office office_frame
    = Some (kitchen_office_fed,
            [EvRunDetection 0 chunk_a 1;
             EvPublish (detected_topic "a") office_detection]) /\
  message_siteId office_detection = "office" /\
  exists i : nat,
    (i < List.length (detectors kitchen_office_fed))%nat /\
    detected_topic "a"
      = detected_topic (nth i (wakeword_ids kitchen_office) "default").
Proof.
  assert (H1 : on_message 2 kitchen_office office_frame
               = Some (kitchen_office_fed,
                       [EvRunDetection 0 chunk_a 1;
                        EvPublish (detected_topic "a") office_detection]))
    by (vm_compute; reflexivity).
  split; [exact H1|].
  destruct (@on_message_published test_double 2 kitchen_office kitchen_office_fed
              office_frame _ H1 (detected_topic "a") office_detection)
    as (_ & Hs & Ht).
  - left. reflexivity.
  - split; [exact Hs|exact Ht].
Defined.

(** A service for the sites [kitchen/oven] and [office]: both audio frame
    topics are subscribed to, the frames of the office are taken, those of
    the oven and of the bedroom are dropped. *)
Lemma on_connect_subscriptions_witness :
  audioframe_topics oven_office = map AudioFrame_topic (siteIds oven_office) /\
  enabled oven_office = true /\
  on_connect oven_office
    = [HotwordToggleOn_topic; HotwordToggleOff_topic;
       AudioFrame_topic "kitchen/oven"; AudioFrame_topic "office"] /\
  (forall fuel payload,
      on_message fuel oven_office (MqttMessage (AudioFrame_topic "office") payload)
        = take_audio_frame fuel oven_office
            (MqttMessage (AudioFrame_topic "office") payload)) /\
  (forall fuel payload,
      on_message fuel oven_office
        (MqttMessage (AudioFrame_topic "kitchen/oven") payload)
        = Some (oven_office, [])) /\
  (forall fuel payload,
      on_message fuel oven_office (MqttMessage (AudioFrame_topic "bedroom") payload)
        = Some (oven_office, [])).
Proof.
  assert (H1 : audioframe_topics oven_office
               = map AudioFrame_topic (siteIds oven_office)) by reflexivity.
  assert (H2 : enabled oven_office = true) by reflexivity.
  split; [exact H1|]. split; [exact H2|].
  destruct (proj2 (proj2 (proj2
              (@on_connect_subscriptions test_double oven_office H1 H2))))
    as (Hoc & Hall).
  { vm_compute. discriminate. }
  split; [exact Hoc|]. split; [|split].
  - intros fuel payload.
    apply (proj1 (Hall fuel "office" payload)).
    vm_compute. right. right. right. left. reflexivity.
  - intros fuel payload.
    apply (proj1 (Hall fuel "kitchen/oven" payload)).
    vm_compute. right. right. left. reflexivity.
  - intros fuel payload.
    apply (proj2 (Hall fuel "bedroom" payload)).
    vm_compute. intros [H|[H|[H|[H|[]]]]]; discriminate H.
Defined.

(** Three models and the one wake word id [alpha]. *)
Lemma main_wakeword_ids_padded_witness :
  wakeword_ids three_models_alpha
    = main_wakeword_ids [["a.umdl"]; ["b.umdl"; "0.6"]; ["c.umdl"]] (Some ["alpha"]) /\
  wakeword_ids three_models_alpha = ["alpha"; "default"; "default"] /\
  forall i, wakewordId_of three_models_alpha i = nth i ["alpha"] "default".
Proof.
  assert (H1 : wakeword_ids three_models_alpha
               = main_wakeword_ids [["a.umdl"]; ["b.umdl"; "0.6"]; ["c.umdl"]]
                   (Some ["alpha"])) by reflexivity.
  split; [exact H1|].
  destruct (@main_wakeword_ids_padded test_double three_models_alpha _ _ H1)
    as (Hids & _ & Hnth).
  split; [exact Hids|exact Hnth].
Defined.

(** One sample at 8 kHz and 8 bit for detectors at 16 kHz and 16 bit. *)
Lemma handle_audio_frame_converted_witness :
  1 <= chunk_size two_models_loaded /\
  detectors two_models_loaded <> [] /\
  wave_open wav_8k = Some wave_8k /\
  (getframerate wave_8k <> sample_rate two_models_loaded \/
   getsampwidth wave_8k <> sample_width two_models_loaded \/
   getnchannels wave_8k <> channels two_models_loaded) /\
  sox (sample_rate two_models_loaded) (sample_width two_models_loaded * 8)
    (channels two_models_loaded) wav_8k = Some [x00; x61; x00; x61] /\
  py_len (audio_buffer two_models_loaded ++ [x00; x61; x00; x61])
    / chunk_size two_models_loaded < Z.of_nat 2 /\
  exists self' tr,
    handle_audio_frame 2 two_models_loaded wav_8k "default" = Some (None, self', tr) /\
    sox_runs tr = [wav_8k] /\
    (List.concat (chunks_fed tr) ++ audio_buffer self')%list = [x00; x61; x00; x61].
Proof.
  assert (H1 : 1 <= chunk_size two_models_loaded) by (vm_compute; discriminate).
  assert (H2 : detectors two_models_loaded <> []) by (vm_compute; discriminate).
  assert (H3 : wave_open wav_8k = Some wave_8k) by reflexivity.
  assert (H4 : getframerate wave_8k <> sample_rate two_models_loaded \/
               getsampwidth wave_8k <> sample_width two_models_loaded \/
               getnchannels wave_8k <> channels two_models_loaded)
    by (left; vm_compute; discriminate).
  assert (H5 : sox (sample_rate two_models_loaded) (sample_width two_models_loaded * 8)
                 (channels two_models_loaded) wav_8k = Some [x00; x61; x00; x61])
    by (vm_compute; reflexivity).
  assert (H6 : py_len (audio_buffer two_models_loaded ++ [x00; x61; x00; x61])
               / chunk_size two_models_loaded < Z.of_nat 2)
    by (vm_compute; reflexivity).
  repeat (split; [assumption|]).
  destruct (@handle_audio_frame_converted test_double 2 two_models_loaded wav_8k
              [x00; x61; x00; x61] wave_8k "default" H1 H2 H3 H4 H5 H6)
    as (self' & tr & E & Hs & _ & Hcat).
  exists self', tr. split; [exact E|]. split; [exact Hs|exact Hcat].
Defined.
